(** * plumpy.ports: port schemas, namespaces and their validation

    A shallow embedding of [src/plumpy/ports.py], the properties of it
    that the specification states, and further properties of the code.

    Python objects live in a heap and are addressed by location, so that
    object identity ("the same node"), in-place mutation (of a namespace's
    attributes and children, of a value mapping) and aliasing are all
    visible in the model.  Methods are state-passing functions in a small
    state-and-exception monad; an exception leaves the heap as it was at
    the moment it was raised. *)

From Stdlib Require Import String Ascii ZArith List Lia Bool Arith.
From stdpp Require Import base list.
From Equations Require Import Equations.
Import ListNotations.
Set Warnings "-register-all".
Local Open Scope string_scope.
Local Open Scope list_scope.

(** ** Python values *)

Definition loc := nat.

(** A Python function object, known by its identity only; what it computes
    is given by the [call] parameter of the model below. *)
Definition callable := nat.

(** The classes that occur in the module, with the builtin ones of the
    value universe. *)
Inductive pytype :=
| TObject | TNoneType | TBool | TInt | TStr | TTuple | TList | TDict
| TType | TFunction
| TValueSpec | TPort | TInputPort | TOutputPort | TPortNamespace.

Definition pytype_eqb (a b : pytype) : bool :=
  match a, b with
  | TObject, TObject | TNoneType, TNoneType | TBool, TBool | TInt, TInt
  | TStr, TStr | TTuple, TTuple | TList, TList | TDict, TDict
  | TType, TType | TFunction, TFunction
  | TValueSpec, TValueSpec | TPort, TPort | TInputPort, TInputPort
  | TOutputPort, TOutputPort | TPortNamespace, TPortNamespace => true
  | _, _ => false
  end.

(** [issubclass c d]: the class hierarchy.  [bool] derives from [int];
    [InputPort], [OutputPort] and [PortNamespace] derive from [Port], which
    derives from [ValueSpec]. *)
Definition issubclass (c d : pytype) : bool :=
  pytype_eqb c d ||
  match d with
  | TObject => true
  | TInt => pytype_eqb c TBool
  | TPort => pytype_eqb c TInputPort || pytype_eqb c TOutputPort || pytype_eqb c TPortNamespace
  | TValueSpec => pytype_eqb c TPort || pytype_eqb c TInputPort
                  || pytype_eqb c TOutputPort || pytype_eqb c TPortNamespace
  | _ => false
  end.

(** Values.  Tuples, strings and numbers are immutable and carried by value;
    lists are carried by value too, since nothing in the module updates one.
    Dictionaries and ports are mutable objects: a value only refers to them. *)
Inductive val :=
| VNone
| VBool (b : bool)
| VInt (z : Z)
| VStr (s : string)
| VTuple (l : list val)
| VList (l : list val)
| VType (t : pytype)
| VFun (f : callable)
| VRef (l : loc).

(** [UNSPECIFIED = ()] (ports.py, line 14): the sentinel is the empty tuple. *)
Definition UNSPECIFIED : val := VTuple [].

(** [v is UNSPECIFIED].  CPython has exactly one empty tuple object, so the
    identity test holds of every empty tuple and of nothing else. *)
Definition is_UNSPECIFIED (v : val) : bool :=
  match v with
  | VTuple [] => true
  | _ => false
  end.

(** [v is None], [v is False]: [None], [True] and [False] are singletons. *)
Definition is_None (v : val) : bool :=
  match v with VNone => true | _ => false end.

Definition is_False (v : val) : bool :=
  match v with VBool false => true | _ => false end.

(** ** Dictionaries

    A [dict] keeps its entries in insertion order; keys are strings (port
    names) throughout the module. *)

Definition dict (A : Type) := list (string * A).

Fixpoint dict_get {A} (k : string) (d : dict A) : option A :=
  match d with
  | [] => None
  | (k', v) :: d' => if String.eqb k k' then Some v else dict_get k d'
  end.

(** [k in d] *)
Definition dict_mem {A} (k : string) (d : dict A) : bool :=
  match dict_get k d with Some _ => true | None => false end.

(** [d[k] = v]: an existing key keeps its place, a new one goes last. *)
Fixpoint dict_set {A} (k : string) (v : A) (d : dict A) : dict A :=
  match d with
  | [] => [(k, v)]
  | (k', v') :: d' =>
      if String.eqb k k' then (k', v) :: d' else (k', v') :: dict_set k v d'
  end.

(** [del d[k]], for a key that may be absent. *)
Fixpoint dict_remove {A} (k : string) (d : dict A) : dict A :=
  match d with
  | [] => []
  | (k', v') :: d' =>
      if String.eqb k k' then d' else (k', v') :: dict_remove k d'
  end.

(** ** Strings: [str.split] and [str.join] for a one-character separator *)

(** [s.split(c)]; the empty string splits into one empty segment. *)
Fixpoint split (c : ascii) (s : string) : list string :=
  match s with
  | EmptyString => [EmptyString]
  | String a s' =>
      if Ascii.eqb a c then EmptyString :: split c s'
      else match split c s' with
           | x :: xs => String a x :: xs
           | [] => [String a EmptyString]
           end
  end.

(** [c.join(l)] *)
Fixpoint join (c : ascii) (l : list string) : string :=
  match l with
  | [] => EmptyString
  | [x] => x
  | x :: xs => x ++ String c (join c xs)
  end.

(** [c in s] *)
Fixpoint contains (c : ascii) (s : string) : bool :=
  match s with
  | EmptyString => false
  | String a s' => Ascii.eqb a c || contains c s'
  end.

(** ** Heap objects *)

(** The attributes every port has ([ValueSpec.__init__], lines 25-30).
    Python does not type them: each holds a value. *)
Record ValueSpec := {
  _name : val;
  _valid_type : val;
  _help : val;
  _required : val;
  _validator : val
}.

(** What [PortNamespace.__init__] adds (lines 202-204). *)
Record PortNamespace := {
  ns_spec : ValueSpec;
  _ports : dict loc;
  ns_default : val;
  _dynamic : val
}.

(** The classes of the ports that are not namespaces *)
Inductive leaf_class := CValueSpec | CPort | CInputPort | COutputPort.

Definition leaf_type (c : leaf_class) : pytype :=
  match c with
  | CValueSpec => TValueSpec
  | CPort => TPort
  | CInputPort => TInputPort
  | COutputPort => TOutputPort
  end.

Inductive obj :=
| OLeaf (c : leaf_class) (s : ValueSpec) (default : option val)
    (** an instance of [ValueSpec], [Port], [InputPort] or [OutputPort];
        only [InputPort] has a [_default] *)
| ONamespace (n : PortNamespace)
| ODict (d : dict val).

Definition heap := list obj.

(** ** Exceptions, results, the monad *)

Inductive exn :=
| ValueError (msg : string)
| TypeError (msg : string)
| AttributeError (msg : string)
| AssertionError (msg : string)
| KeyError (msg : string).

(** The outcome of a call: a result, an exception, or recursion that went
    deeper than the fuel allows (Python's recursion limit). *)
Inductive res (A : Type) :=
| Ok (a : A)
| Raise (e : exn)
| NoFuel.
Arguments Ok {A} a.
Arguments Raise {A} e.
Arguments NoFuel {A}.

(** The state a call runs in: the heap, the lines written to [_LOGGER], and
    a record of the receivers of every [validate] call, in call order.  The
    last one is not program state; it is what lets a theorem say that some
    port was never validated. *)
Record state := {
  objs : heap;
  logged : list string;
  validated : list loc
}.

Definition M (A : Type) := state -> res A * state.

Definition ret {A} (a : A) : M A := fun st => (Ok a, st).
Definition raise {A} (e : exn) : M A := fun st => (Raise e, st).
Definition out_of_fuel {A} : M A := fun st => (NoFuel, st).

Definition bind {A B} (m : M A) (k : A -> M B) : M B :=
  fun st =>
    match m st with
    | (Ok a, st') => k a st'
    | (Raise e, st') => (Raise e, st')
    | (NoFuel, st') => (NoFuel, st')
    end.

Declare Scope py_scope.
Delimit Scope py_scope with py.
Notation "x <- m ;; k" := (bind m (fun x => k))
  (at level 100, m at next level, right associativity) : py_scope.
Notation "m ;;; k" := (bind m (fun _ => k))
  (at level 100, right associativity) : py_scope.
Local Open Scope py_scope.

(** A computation that cannot change the state. *)
Definition lift {A} (r : res A) : M A := fun st => (r, st).

Definition get_heap : M heap := fun st => (Ok (objs st), st).

Definition set_heap (h : heap) : M unit :=
  fun st => (Ok tt, {| objs := h; logged := logged st; validated := validated st |}).

(** A new object gets the next free location. *)
Definition alloc (o : obj) : M loc :=
  fun st => (Ok (length (objs st)),
             {| objs := objs st ++ [o]; logged := logged st; validated := validated st |}).

Definition store (l : loc) (o : obj) : M unit :=
  fun st => (Ok tt, {| objs := <[l := o]> (objs st); logged := logged st;
                       validated := validated st |}).

Definition log_info (msg : string) : M unit :=
  fun st => (Ok tt, {| objs := objs st; logged := logged st ++ [msg];
                       validated := validated st |}).

Definition note_validate (l : loc) : M unit :=
  fun st => (Ok tt, {| objs := objs st; logged := logged st;
                       validated := validated st ++ [l] |}).

(** ** Builtins *)

(** [type(v)] *)
Definition type_of (h : heap) (v : val) : pytype :=
  match v with
  | VNone => TNoneType
  | VBool _ => TBool
  | VInt _ => TInt
  | VStr _ => TStr
  | VTuple _ => TTuple
  | VList _ => TList
  | VType _ => TType
  | VFun _ => TFunction
  | VRef l =>
      match h !! l with
      | Some (OLeaf c _ _) => leaf_type c
      | Some (ONamespace _) => TPortNamespace
      | Some (ODict _) => TDict
      | None => TObject
      end
  end.

(** [bool(v)]: empty containers, [None], [False], zero and the empty string
    are false.  A namespace is a [MutableMapping] and therefore has a length;
    other ports are always true. *)
Definition truthy (h : heap) (v : val) : bool :=
  match v with
  | VNone => false
  | VBool b => b
  | VInt z => negb (Z.eqb z 0)
  | VStr s => negb (String.eqb s "")
  | VTuple l | VList l => match l with [] => false | _ => true end
  | VType _ | VFun _ => true
  | VRef l =>
      match h !! l with
      | Some (ONamespace n) => match _ports n with [] => false | _ => true end
      | Some (ODict d) => match d with [] => false | _ => true end
      | _ => true
      end
  end.

(** [isinstance(v, T)], for [T] a class or a (nested) tuple of classes;
    anything else is a [TypeError].  A tuple is searched left to right. *)
Fixpoint isinstance (h : heap) (v : val) (T : val) : res bool :=
  match T with
  | VType t => Ok (issubclass (type_of h v) t)
  | VTuple ts =>
      (fix any (ts : list val) : res bool :=
         match ts with
         | [] => Ok false
         | T' :: ts' =>
             match isinstance h v T' with
             | Ok false => any ts'
             | r => r
             end
         end) ts
  | _ => Raise (TypeError "isinstance() arg 2 must be a type or tuple of types")
  end.

(** [isinstance(v, collections.Sequence)] *)
Definition is_Sequence (v : val) : bool :=
  match v with
  | VTuple _ | VList _ | VStr _ => true
  | _ => false
  end.

(** [len(v)] of a sequence *)
Definition len (v : val) : nat :=
  match v with
  | VTuple l | VList l => length l
  | VStr s => String.length s
  | _ => 0
  end.

(** [a, b = v]: unpacking into exactly two targets.  A mapping unpacks into
    its keys. *)
Definition unpack2 (h : heap) (v : val) : res (val * val) :=
  match v with
  | VTuple [a; b] | VList [a; b] => Ok (a, b)
  | VStr (String a (String b EmptyString)) =>
      Ok (VStr (String a EmptyString), VStr (String b EmptyString))
  | VTuple _ | VList _ | VStr _ => Raise (ValueError "wrong number of values to unpack")
  | VRef l =>
      match h !! l with
      | Some (ODict [(a, _); (b, _)]) => Ok (VStr a, VStr b)
      | Some (ONamespace n) =>
          match _ports n with
          | [(a, _); (b, _)] => Ok (VStr a, VStr b)
          | _ => Raise (ValueError "wrong number of values to unpack")
          end
      | Some (ODict _) => Raise (ValueError "wrong number of values to unpack")
      | _ => Raise (TypeError "cannot unpack non-iterable object")
      end
  | _ => Raise (TypeError "cannot unpack non-iterable object")
  end.

(** The pairs [(False, msg)] and [(True, None)] that [validate] builds *)
Definition invalid (msg : string) : val := VTuple [VBool false; VStr msg].
Definition valid : val := VTuple [VBool true; VNone].

(** A result of [validate] is a success when it unpacks into a pair whose
    first component is true. *)
Definition succeeds (h : heap) (r : res val) : Prop :=
  exists v p, r = Ok v /\ unpack2 h v = Ok p /\ truthy h (fst p) = true.

(** ** Example data

    Callables, a formatter and heaps on which the properties below are
    tried. *)
Module Example.

(** The user functions of the examples, by identity:
    0 rejects with [False]; 1 accepts with [(True, None)];
    2 accepts with a message; every other one returns [None]. *)
Definition call (f : callable) (h : heap) (args : list val) : res val :=
  match f with
  | 0 => Ok (VBool false)
  | 1 => Ok (VTuple [VBool true; VNone])
  | 2 => Ok (VTuple [VBool true; VStr "checked"])
  | _ => Ok VNone
  end.

(** A formatter that leaves the template as it is *)
Definition format (h : heap) (template : string) (args : list val) : string :=
  template.

Definition spec (name : string) (valid_type required validator : val) : ValueSpec :=
  {| _name := VStr name; _valid_type := valid_type; _help := VNone;
     _required := required; _validator := validator |}.

Definition input (name : string) (valid_type required validator : val) : obj :=
  OLeaf CInputPort (spec name valid_type required validator) (Some UNSPECIFIED).

Definition namespace (name : string) (required : val) (ports : dict loc) : obj :=
  ONamespace {| ns_spec := spec name VNone required VNone; _ports := ports;
                ns_default := UNSPECIFIED; _dynamic := VBool false |}.

Definition state_of (h : heap) : state :=
  {| objs := h; logged := []; validated := [] |}.

(** An optional input port whose validator rejects every value *)
Definition optional_checked : state :=
  state_of [input "n" (VType TInt) (VBool false) (VFun 0)].

(** A required input port without type or validator *)
Definition required_plain : state :=
  state_of [input "n" VNone (VBool true) VNone].

(** A tree in which [a], [a.b] and [a.b.c] exist; [c] is an input port and
    [a] has a second child, the leaf [n]. *)
Definition tree : state :=
  state_of [namespace "root" (VBool true) [("a", 1)];
            namespace "a" (VBool true) [("b", 2); ("n", 4)];
            namespace "b" (VBool true) [("c", 3)];
            input "c" (VType TInt) (VBool true) VNone;
            input "n" (VType TInt) (VBool true) VNone].

(** Two namespaces: [self], required, at location 0 and [other], optional,
    at location 1, with leaf ports as children *)
Definition two_namespaces : state :=
  state_of [namespace "self" (VBool true) [("keep", 2)];
            namespace "other" (VBool false) [("a", 3); ("b", 4)];
            input "keep" VNone (VBool false) VNone;
            input "a" (VType TInt) (VBool true) VNone;
            input "b" (VType TStr) (VBool false) VNone].


(** A required namespace with one required integer port, and the values
    [{"n": 5}] at location 2 *)
Definition one_port : state :=
  state_of [namespace "inputs" (VBool true) [("n", 1)];
            input "n" (VType TInt) (VBool true) VNone;
            ODict [("n", VInt 5)]].

(** A namespace with the child namespace [sub], which declares the port
    [x]; the values [{"sub": {"x": 1, "y": 2}, "unknown": 3}] at location
    3, with the nested dictionary at location 4 *)
Definition nested : state :=
  state_of [namespace "inputs" (VBool true) [("sub", 1)];
            namespace "sub" (VBool true) [("x", 2)];
            input "x" VNone (VBool true) VNone;
            ODict [("sub", VRef 4); ("unknown", VInt 3)];
            ODict [("x", VInt 1); ("y", VInt 2)]].

(** A dynamic namespace of integers with the declared port [n], and the
    values [{"n": 5, "extra": 7}] at location 2 *)
Definition dynamic_namespace : state :=
  state_of [ONamespace {| ns_spec := spec "inputs" (VType TInt) (VBool true) VNone;
                          _ports := [("n", 1)];
                          ns_default := UNSPECIFIED; _dynamic := VBool true |};
            input "n" (VType TInt) (VBool true) VNone;
            ODict [("n", VInt 5); ("extra", VInt 7)]].

End Example.

Section Ports.

(** What a function object does when called with a heap and arguments.
    User callables (the validators) are taken to be free of side effects;
    they may raise. *)
Variable call : callable -> heap -> list val -> res val.

(** [template.format], applied to the list of its arguments *)
Variable format : heap -> string -> list val -> string.

(** Calling the value [f] on the arguments [args] *)
Definition call_value (f : val) (args : list val) : M val :=
  fun st =>
    match f with
    | VFun c => (call c (objs st) args, st)
    | _ => (Raise (TypeError "object is not callable"), st)
    end.

(** ** ValueSpec *)

(** The [ValueSpec] attributes of the port at [self] *)
Definition spec_of (self : loc) : M ValueSpec :=
  fun st =>
    match objs st !! self with
    | Some (OLeaf _ s _) => (Ok s, st)
    | Some (ONamespace n) => (Ok (ns_spec n), st)
    | _ => (Raise (AttributeError "not a port"), st)
    end.

(** The body of [ValueSpec.validate] (lines 89-108), given the attributes
    [s] of [self] *)
Definition validate_value (s : ValueSpec) (value : val) : M val :=
  h <- get_heap ;;
  early <-
    (if is_UNSPECIFIED value then
       if truthy h (_required s) then
         ret (Some (invalid (format h "required value was not provided for '{}'" [_name s])))
       else ret None
     else
       if negb (is_None (_valid_type s)) then
         ok <- lift (isinstance h value (_valid_type s)) ;;
         if negb ok then
           ret (Some (invalid (format h
             "value '{}' is not of the right type. Got '{}', expected '{}'"
             [_name s; VType (type_of h value); _valid_type s])))
         else ret None
       else ret None) ;;
  match early with
  | Some r => ret r
  | None =>
      if negb (is_None (_validator s)) then
        result <- call_value (_validator s) [value] ;;
        if is_Sequence result then
          if Nat.eqb (len result) 2 then ret result
          else raise (AssertionError "Invalid validator return type")
        else if is_False result then ret (invalid "Value failed validation")
        else ret valid
      else ret valid
  end.

(** [ValueSpec.validate], called on the port at [self] *)
Definition ValueSpec_validate (self : loc) (value : val) : M val :=
  note_validate self ;;;
  s <- spec_of self ;;
  validate_value s value.

(** ** InputPort *)

(** [InputPort.required_override] (lines 120-130) *)
Definition required_override (required default : val) : val :=
  if is_UNSPECIFIED default then required else VBool false.

(** [required is not InputPort.required_override(required, default)]: the
    override hands back either the very object it was given or [False]. *)
Definition required_was_overridden (required default : val) : bool :=
  if is_UNSPECIFIED default then false else negb (is_False required).

(** [InputPort.__init__] (lines 132-149).  The object exists from the start
    of the constructor; [_default] is its last assignment. *)
Definition InputPort_init (name valid_type help default required validator : val)
  : M loc :=
  let s := {| _name := name; _valid_type := valid_type; _help := help;
              _required := required_override required default;
              _validator := validator |} in
  self <- alloc (OLeaf CInputPort s None) ;;
  (if required_was_overridden required default then
     h <- get_heap ;;
     log_info (format h
       "the required attribute for the input port '{}' was overridden because a default was specified"
       [name])
   else ret tt) ;;;
  (if negb (is_UNSPECIFIED default) then
     r <- ValueSpec_validate self default ;;
     h <- get_heap ;;
     p <- lift (unpack2 h r) ;;
     let '(default_valid, msg) := p in
     if negb (truthy h default_valid) then
       raise (ValueError (format h "Invalid default value: {}" [msg]))
     else ret tt
   else ret tt) ;;;
  store self (OLeaf CInputPort s (Some default)) ;;;
  ret self.

(** [OutputPort.__init__] (lines 180-182) *)
Definition OutputPort_init (name valid_type required help : val) : M loc :=
  let s := {| _name := name; _valid_type := valid_type; _help := help;
              _required := required; _validator := VNone |} in
  alloc (OLeaf COutputPort s None).

(** ** PortNamespace *)

(** [NAMESPACE_SEPARATOR = '.'] (line 190) *)
Definition NAMESPACE_SEPARATOR : ascii := ".".

(** The namespace at [self]; another object has none of the methods of
    [PortNamespace], and looking one up on it is an [AttributeError]. *)
Definition namespace_at (h : heap) (self : loc) : option PortNamespace :=
  match h !! self with
  | Some (ONamespace n) => Some n
  | _ => None
  end.

Definition namespace_of (self : loc) : M PortNamespace :=
  fun st =>
    match namespace_at (objs st) self with
    | Some n => (Ok n, st)
    | None => (Raise (AttributeError "object is not a PortNamespace"), st)
    end.

(** [PortNamespace.__init__] (lines 192-204) *)
Definition PortNamespace_init
  (name help required validator valid_type default dynamic : val) : M loc :=
  alloc (ONamespace
    {| ns_spec := {| _name := name; _valid_type := valid_type; _help := help;
                     _required := required; _validator := validator |};
       _ports := [];
       ns_default := default;
       _dynamic := dynamic |}).

Definition kwarg (k : string) (kwargs : dict val) (default : val) : val :=
  match dict_get k kwargs with
  | Some v => v
  | None => default
  end.

Definition init_keywords : list string :=
  ["help"; "required"; "validator"; "valid_type"; "default"; "dynamic"].

(** [self.__class__(port_name, **kwargs)] for a [PortNamespace]: the first
    positional argument is the name, so the keywords can be any other
    parameter of [__init__]. *)
Definition PortNamespace_new (port_name : val) (kwargs : dict val) : M loc :=
  if forallb (fun kv => existsb (String.eqb (fst kv)) init_keywords) kwargs then
    PortNamespace_init port_name
      (kwarg "help" kwargs VNone) (kwarg "required" kwargs (VBool true))
      (kwarg "validator" kwargs VNone) (kwarg "valid_type" kwargs VNone)
      (kwarg "default" kwargs UNSPECIFIED) (kwarg "dynamic" kwargs (VBool false))
  else raise (TypeError "__init__() got an unexpected keyword argument").

Definition with_ports (n : PortNamespace) (ports : dict loc) : PortNamespace :=
  {| ns_spec := ns_spec n; _ports := ports; ns_default := ns_default n;
     _dynamic := _dynamic n |}.

(** [PortNamespace.__setitem__] (lines 221-224) *)
Definition PortNamespace_setitem (self : loc) (key : string) (port : val) : M unit :=
  h <- get_heap ;;
  match port with
  | VRef p =>
      if issubclass (type_of h port) TPort then
        n <- namespace_of self ;;
        store self (ONamespace (with_ports n (dict_set key p (_ports n))))
      else raise (TypeError "port needs to be an instance of Port")
  | _ => raise (TypeError "port needs to be an instance of Port")
  end.

(** [PortNamespace.__getitem__] (lines 218-219) *)
Definition PortNamespace_getitem (self : loc) (key : string) : M loc :=
  n <- namespace_of self ;;
  match dict_get key (_ports n) with
  | Some p => ret p
  | None => raise (KeyError key)
  end.

(** The length of a name, the measure of the recursion along a path *)
Definition name_len (name : val) : nat :=
  match name with
  | VStr s => String.length s
  | _ => 0
  end.

(** The recursion along a dotted path continues on
    [join (tl (split name))], which is shorter than a non-empty [name]:
    joining the segments of a string gives the string back. *)
Ltac rest_is_shorter c name :=
  let Hnil := fresh "Hnil" in
  let Happ := fresh "Happ" in
  let Hjoin := fresh "Hjoin" in
  let t := fresh "t" in
  let u := fresh "u" in
  let b := fresh "b" in
  let x := fresh "x" in
  let y := fresh "y" in
  let xs := fresh "xs" in
  let IHt := fresh "IHt" in
  let E := fresh "E" in
  assert (Hnil : forall t, split c t <> []) by
    (intros [|b t]; cbn [split]; [discriminate|];
     destruct (Ascii.eqb b c); [discriminate|];
     destruct (split c t); discriminate);
  assert (Happ : forall t u : string,
             String.length (t ++ u)%string = String.length t + String.length u) by
    (intros t u; induction t as [|b t IHt]; cbn; [reflexivity | now rewrite IHt]);
  assert (Hjoin : forall t, join c (split c t) = t) by
    (intros t; induction t as [|b t IHt]; [reflexivity|];
     cbn [split]; pose proof (Hnil t);
     destruct (Ascii.eqb b c) eqn:E;
     [ apply Ascii.eqb_eq in E; subst b;
       destruct (split c t) as [|x xs]; [congruence|];
       change (join c (EmptyString :: x :: xs)) with (String c (join c (x :: xs)));
       now rewrite IHt
     | destruct (split c t) as [|x [|y xs]]; [congruence| |];
       [ cbn [join] in *; now rewrite IHt
       | change (join c (String b x :: y :: xs))
           with (String b (join c (x :: y :: xs))); now rewrite IHt ] ]);
  pose proof (Hjoin name) as Hjoin; pose proof (Hnil name) as Hnil;
  destruct (split c name) as [|x [|y xs]]; [congruence | cbn; lia |];
  cbn [tl]; rewrite <- Hjoin;
  change (join c (x :: y :: xs)) with (x ++ String c (join c (y :: xs)))%string;
  rewrite Happ; cbn; lia.

(** [PortNamespace.get_port] (lines 290-314).  It only reads the heap. *)
Equations get_port (h : heap) (self : loc) (name : val) : res loc
  by wf (name_len name) lt :=
get_port h self name with namespace_at h self := {
  | None := Raise (AttributeError "object has no attribute 'get_port'");
  | Some n with name := {
    | VStr EmptyString := Raise (ValueError "name cannot be an empty string");
    | VStr (String a s) :=
        let namespace := split NAMESPACE_SEPARATOR (String a s) in
        let port_name := hd EmptyString namespace in
        let namespace := tl namespace in
        match dict_get port_name (_ports n) with
        | None =>
            Raise (ValueError (format h "port '{}' does not exist in port namespace '{}'"
                                 [VStr port_name; _name (ns_spec n)]))
        | Some port =>
            match namespace with
            | [] => Ok port
            | _ :: _ => get_port h port (VStr (join NAMESPACE_SEPARATOR namespace))
            end
        end;
    | _ := Raise (ValueError (format h "name has to be a string type, not {}"
                                [VType (type_of h name)])) } }.
Next Obligation.
  change (String.length (join NAMESPACE_SEPARATOR
            (tl (split NAMESPACE_SEPARATOR (String a s)))) < String.length (String a s)).
  rest_is_shorter NAMESPACE_SEPARATOR (String a s).
Qed.

(** [PortNamespace.create_port_namespace] (lines 316-353) *)
Equations create_port_namespace (self : loc) (name : val) (kwargs : dict val)
  (st : state) : res loc * state by wf (name_len name) lt :=
create_port_namespace self name kwargs st with namespace_at (objs st) self := {
  | None := (Raise (AttributeError "object has no attribute 'create_port_namespace'"), st);
  | Some n with name := {
    | VStr EmptyString := (Raise (ValueError "name cannot be an empty string"), st);
    | VStr (String a s) :=
        let namespace := split NAMESPACE_SEPARATOR (String a s) in
        let port_name := hd EmptyString namespace in
        let namespace := tl namespace in
        let h := objs st in
        let occupied :=
          match dict_get port_name (_ports n) with
          | Some port => negb (issubclass (type_of h (VRef port)) TPortNamespace)
          | None => false
          end in
        if occupied then
          (Raise (ValueError (format h "the name '{}' in '{}' already contains a Port"
                                [VStr port_name; _name (ns_spec n)])), st)
        else
          ((if negb (dict_mem port_name (_ports n)) then
              match namespace with
              | _ :: _ =>
                  child <- PortNamespace_new (VStr port_name) [] ;;
                  PortNamespace_setitem self port_name (VRef child)
              | [] =>
                  child <- PortNamespace_new (VStr port_name) kwargs ;;
                  PortNamespace_setitem self port_name (VRef child)
              end
            else ret tt) ;;;
           port <- PortNamespace_getitem self port_name ;;
           match namespace with
           | _ :: _ =>
               fun st' => create_port_namespace port
                            (VStr (join NAMESPACE_SEPARATOR namespace)) kwargs st'
           | [] => ret port
           end) st;
    | _ := (Raise (ValueError (format (objs st) "name has to be a string type, not {}"
                                 [VType (type_of (objs st) name)])), st) } }.
Next Obligation.
  change (String.length (join NAMESPACE_SEPARATOR
            (tl (split NAMESPACE_SEPARATOR (String a s)))) < String.length (String a s)).
  rest_is_shorter NAMESPACE_SEPARATOR (String a s).
Qed.

(** *** absorb *)

(** Modelled from the spec: [plumpy.utils.is_mutable_property] is imported
    (line 11) but is not among the sources.  The specification lists the
    mutable schema properties of [PortNamespace] as default, dynamic,
    valid_type, required, help and validator (not name); these are the
    properties that have a setter in ports.py.  [dir] lists attribute names
    in alphabetical order, so this is the order in which the loop of
    [absorb] (lines 374-379) meets them. *)
Definition mutable_properties : list string :=
  ["default"; "dynamic"; "help"; "required"; "valid_type"; "validator"].

Definition with_spec (n : PortNamespace) (s : ValueSpec) : PortNamespace :=
  {| ns_spec := s; _ports := _ports n; ns_default := ns_default n;
     _dynamic := _dynamic n |}.

(** The property setters (lines 69-87, 237-247) *)
Definition set_help (n : PortNamespace) (help : val) : PortNamespace :=
  let s := ns_spec n in
  with_spec n {| _name := _name s; _valid_type := _valid_type s; _help := help;
                 _required := _required s; _validator := _validator s |}.

Definition set_required (n : PortNamespace) (required : val) : PortNamespace :=
  let s := ns_spec n in
  with_spec n {| _name := _name s; _valid_type := _valid_type s; _help := _help s;
                 _required := required; _validator := _validator s |}.

Definition set_validator (n : PortNamespace) (validator : val) : PortNamespace :=
  let s := ns_spec n in
  with_spec n {| _name := _name s; _valid_type := _valid_type s; _help := _help s;
                 _required := _required s; _validator := validator |}.

Definition set_default (n : PortNamespace) (default : val) : PortNamespace :=
  {| ns_spec := ns_spec n; _ports := _ports n; ns_default := default;
     _dynamic := _dynamic n |}.

Definition set_dynamic (n : PortNamespace) (dynamic : val) : PortNamespace :=
  {| ns_spec := ns_spec n; _ports := _ports n; ns_default := ns_default n;
     _dynamic := dynamic |}.

(** The setter of [PortNamespace.valid_type] (lines 253-266) *)
Definition set_valid_type (n : PortNamespace) (valid_type : val) : PortNamespace :=
  let n := if is_None valid_type then set_dynamic n (VBool false)
           else set_dynamic n (VBool true) in
  let s := ns_spec n in
  with_spec n {| _name := _name s; _valid_type := valid_type; _help := _help s;
                 _required := _required s; _validator := _validator s |}.

(** [getattr(port_namespace, attr)] for a mutable property *)
Definition getattr (n : PortNamespace) (attr : string) : val :=
  if String.eqb attr "default" then ns_default n
  else if String.eqb attr "dynamic" then _dynamic n
  else if String.eqb attr "help" then _help (ns_spec n)
  else if String.eqb attr "required" then _required (ns_spec n)
  else if String.eqb attr "valid_type" then _valid_type (ns_spec n)
  else _validator (ns_spec n).

(** What the setter of the property [attr] makes of the attributes [n] *)
Definition set_property (n : PortNamespace) (attr : string) (v : val) : PortNamespace :=
  if String.eqb attr "default" then set_default n v
  else if String.eqb attr "dynamic" then set_dynamic n v
  else if String.eqb attr "help" then set_help n v
  else if String.eqb attr "required" then set_required n v
  else if String.eqb attr "valid_type" then set_valid_type n v
  else set_validator n v.

(** [setattr(self, attr, v)] for a mutable property: it runs the setter. *)
Definition setattr (self : loc) (attr : string) (v : val) : M unit :=
  n <- namespace_of self ;;
  store self (ONamespace (set_property n attr v)).

(** The loop of lines 374-379 over the mutable properties [attrs]; it
    returns what is left of [namespace_options]. *)
Fixpoint absorb_properties (self other : loc) (attrs : list string)
  (namespace_options : dict val) : M (dict val) :=
  match attrs with
  | [] => ret namespace_options
  | attr :: attrs' =>
      match dict_get attr namespace_options with
      | Some v =>
          setattr self attr v ;;;
          absorb_properties self other attrs' (dict_remove attr namespace_options)
      | None =>
          o <- namespace_of other ;;
          setattr self attr (getattr o attr) ;;;
          absorb_properties self other attrs' namespace_options
      end
  end.

(** [name in names] *)
Definition name_in (name : string) (names : list string) : bool :=
  existsb (String.eqb name) names.

(** [PortNamespace._filter_ports] (lines 493-516).  It is a generator: its
    body starts to run when the loop of [absorb] asks for the first item,
    and the loop body has no effect on what it yields, so the items are
    given here all at once. *)
Definition _filter_ports (items : dict loc) (exclude : list string)
  (include : option (list string)) : res (dict loc) :=
  match exclude, include with
  | _ :: _, Some _ => Raise (ValueError "exclude and include are mutually exclusive")
  | _, _ =>
      Ok (List.filter (fun item =>
                    match include with
                    | Some names => name_in (fst item) names
                    | None => negb (name_in (fst item) exclude)
                    end) items)
  end.

(** *** copy.deepcopy *)

Definition memo := list (loc * loc).

Fixpoint memo_get (l : loc) (m : memo) : option loc :=
  match m with
  | [] => None
  | (k, l') :: m' => if Nat.eqb l k then Some l' else memo_get l m'
  end.

(** Copying the items of a tuple or list, the values of a dictionary, the
    children of a namespace and the attributes of a port, one after the
    other, with the function [copy] and a memo that is handed on *)
Fixpoint copy_values (copy : val -> memo -> M (val * memo)) (vs : list val) (m : memo)
  : M (list val * memo) :=
  match vs with
  | [] => ret ([], m)
  | x :: vs' =>
      p <- copy x m ;;
      q <- copy_values copy vs' (snd p) ;;
      ret (fst p :: fst q, snd q)
  end.

Fixpoint copy_items (copy : val -> memo -> M (val * memo)) (d : dict val) (m : memo)
  : M (dict val * memo) :=
  match d with
  | [] => ret ([], m)
  | (k, x) :: d' =>
      p <- copy x m ;;
      q <- copy_items copy d' (snd p) ;;
      ret ((k, fst p) :: fst q, snd q)
  end.

Fixpoint copy_ports (copy : val -> memo -> M (val * memo)) (d : dict loc) (m : memo)
  : M (dict loc * memo) :=
  match d with
  | [] => ret ([], m)
  | (k, c) :: d' =>
      p <- copy (VRef c) m ;;
      match fst p with
      | VRef c' =>
          q <- copy_ports copy d' (snd p) ;;
          ret ((k, c') :: fst q, snd q)
      | _ => raise (TypeError "port needs to be an instance of Port")
      end
  end.

Definition copy_spec (copy : val -> memo -> M (val * memo)) (s : ValueSpec) (m : memo)
  : M (ValueSpec * memo) :=
  p1 <- copy (_name s) m ;;
  p2 <- copy (_valid_type s) (snd p1) ;;
  p3 <- copy (_help s) (snd p2) ;;
  p4 <- copy (_required s) (snd p3) ;;
  p5 <- copy (_validator s) (snd p4) ;;
  ret ({| _name := fst p1; _valid_type := fst p2; _help := fst p3;
          _required := fst p4; _validator := fst p5 |}, snd p5).

(** [copy.deepcopy(v, memo)].  Numbers, strings, [None], classes and
    functions are returned as they are.  For an object the copy is created
    and entered in the memo first, then the attributes are copied in the
    order in which [__init__] assigned them, then the copy is filled in.
    [fuel] bounds the depth of the recursion. *)
Fixpoint deepcopy (fuel : nat) (v : val) (m : memo) {struct fuel} : M (val * memo) :=
  match fuel with
  | 0 => out_of_fuel
  | S fuel' =>
      match v with
      | VNone | VBool _ | VInt _ | VStr _ | VType _ | VFun _ => ret (v, m)
      | VTuple l => p <- copy_values (deepcopy fuel') l m ;; ret (VTuple (fst p), snd p)
      | VList l => p <- copy_values (deepcopy fuel') l m ;; ret (VList (fst p), snd p)
      | VRef l =>
          match memo_get l m with
          | Some l' => ret (VRef l', m)
          | None =>
              h <- get_heap ;;
              match h !! l with
              | None => raise (TypeError "no such object")
              | Some o =>
                  l' <- alloc o ;;
                  let m := (l, l') :: m in
                  match o with
                  | ODict d =>
                      p <- copy_items (deepcopy fuel') d m ;;
                      store l' (ODict (fst p)) ;;;
                      ret (VRef l', snd p)
                  | OLeaf c s None =>
                      ps <- copy_spec (deepcopy fuel') s m ;;
                      store l' (OLeaf c (fst ps) None) ;;;
                      ret (VRef l', snd ps)
                  | OLeaf c s (Some default) =>
                      ps <- copy_spec (deepcopy fuel') s m ;;
                      pd <- deepcopy fuel' default (snd ps) ;;
                      store l' (OLeaf c (fst ps) (Some (fst pd))) ;;;
                      ret (VRef l', snd pd)
                  | ONamespace n =>
                      ps <- copy_spec (deepcopy fuel') (ns_spec n) m ;;
                      pp <- copy_ports (deepcopy fuel') (_ports n) (snd ps) ;;
                      pd <- deepcopy fuel' (ns_default n) (snd pp) ;;
                      py <- deepcopy fuel' (_dynamic n) (snd pd) ;;
                      store l' (ONamespace {| ns_spec := fst ps; _ports := fst pp;
                                              ns_default := fst pd; _dynamic := fst py |}) ;;;
                      ret (VRef l', snd py)
                  end
              end
          end
      end
  end.

(** The second loop of [absorb] (lines 387-389) over the filtered items *)
Fixpoint absorb_ports (fuel : nat) (self : loc) (items : dict loc) : M (list string) :=
  match items with
  | [] => ret []
  | (port_name, port) :: items' =>
      c <- deepcopy fuel (VRef port) [] ;;
      PortNamespace_setitem self port_name (fst c) ;;;
      absorbed_ports <- absorb_ports fuel self items' ;;
      ret (port_name :: absorbed_ports)
  end.

(** [PortNamespace.absorb] (lines 355-391); [fuel] bounds the depth of the
    deep copies. *)
Definition absorb (fuel : nat) (self : loc) (port_namespace : val)
  (exclude : list string) (include : option (list string))
  (namespace_options : dict val) : M (list string) :=
  namespace_of self ;;;
  h <- get_heap ;;
  match port_namespace with
  | VRef other =>
      if issubclass (type_of h port_namespace) TPortNamespace then
        namespace_options <- absorb_properties self other mutable_properties
                               namespace_options ;;
        match namespace_options with
        | _ :: _ =>
            raise (ValueError (format h
              "the namespace_options {}, is not a supported PortNamespace property"
              [VStr (String.concat ", " (map fst namespace_options))]))
        | [] =>
            o <- namespace_of other ;;
            items <- lift (_filter_ports (_ports o) exclude include) ;;
            absorb_ports fuel self items
        end
      else raise (ValueError "port_namespace has to be an instance of PortNamespace")
  | _ => raise (ValueError "port_namespace has to be an instance of PortNamespace")
  end.

(** *** project *)

(** [port_values.items()], of a dictionary or of a namespace (which is a
    mapping from names to ports) *)
Definition items_of (port_values : val) : M (dict val) :=
  h <- get_heap ;;
  match port_values with
  | VRef l =>
      match h !! l with
      | Some (ODict d) => ret d
      | Some (ONamespace n) => ret (map (fun item => (fst item, VRef (snd item))) (_ports n))
      | _ => raise (AttributeError "object has no attribute 'items'")
      end
  | _ => raise (AttributeError "object has no attribute 'items'")
  end.

(** [d[k] = v] on the dictionary at [d] *)
Definition dict_setitem (d : loc) (k : string) (v : val) : M unit :=
  h <- get_heap ;;
  match h !! d with
  | Some (ODict e) => store d (ODict (dict_set k v e))
  | _ => raise (TypeError "object does not support item assignment")
  end.

(** [PortNamespace.project] (lines 393-411); the result is a new dictionary. *)
Fixpoint project (fuel : nat) (self : loc) (port_values : val) : M val :=
  match fuel with
  | 0 => out_of_fuel
  | S fuel' =>
      namespace_of self ;;;
      result <- alloc (ODict []) ;;
      items <- items_of port_values ;;
      (fix loop (items : dict val) : M unit :=
         match items with
         | [] => ret tt
         | (name, value) :: items' =>
             n <- namespace_of self ;;
             (if dict_mem name (_ports n) then
                h <- get_heap ;;
                if issubclass (type_of h value) TPortNamespace then
                  child <- PortNamespace_getitem self name ;;
                  r <- project fuel' child value ;;
                  dict_setitem result name r
                else dict_setitem result name value
              else ret tt) ;;;
             loop items'
         end) items ;;;
      ret (VRef result)
  end.

(** *** validate *)

Definition pair_of (v : val) : res (string * val) :=
  match v with
  | VTuple [VStr k; x] | VList [VStr k; x] => Ok (k, x)
  | _ => Raise (TypeError "cannot convert dictionary update sequence element")
  end.

Fixpoint dict_of_pairs (l : list val) (d : dict val) : res (dict val) :=
  match l with
  | [] => Ok d
  | p :: l' =>
      match pair_of p with
      | Ok (k, x) => dict_of_pairs l' (dict_set k x d)
      | Raise e => Raise e
      | NoFuel => NoFuel
      end
  end.

(** The entries of [dict(port_values)]: of a mapping, or of a sequence of
    key-value pairs.  The empty tuple, [UNSPECIFIED], gives no entries. *)
Definition to_dict (port_values : val) : M (dict val) :=
  h <- get_heap ;;
  match port_values with
  | VRef l =>
      match h !! l with
      | Some (ODict d) => ret d
      | Some (ONamespace n) => ret (map (fun item => (fst item, VRef (snd item))) (_ports n))
      | _ => raise (TypeError "object is not iterable")
      end
  | VTuple l | VList l => lift (dict_of_pairs l [])
  | VStr EmptyString => ret []
  | _ => raise (TypeError "object is not iterable")
  end.

(** [d.pop(k, default)] on the dictionary at [d] *)
Definition dict_pop (d : loc) (k : string) (default : val) : M val :=
  h <- get_heap ;;
  match h !! d with
  | Some (ODict e) =>
      match dict_get k e with
      | Some v => store d (ODict (dict_remove k e)) ;;; ret v
      | None => ret default
      end
  | _ => raise (AttributeError "object has no attribute 'pop'")
  end.

(** [PortNamespace.validate_ports] (lines 451-467).  [validate] is the
    method the child ports are validated with; [port_values] is the
    dictionary the caller hands over, which the loop pops from. *)
Definition validate_ports (validate : loc -> val -> M val) (self port_values : loc)
  : M val :=
  n <- namespace_of self ;;
  (fix loop (ports : dict loc) (is_valid message : val) : M val :=
     match ports with
     | [] => ret (VTuple [is_valid; message])
     | (name, port) :: ports' =>
         v <- dict_pop port_values name UNSPECIFIED ;;
         r <- validate port v ;;
         h <- get_heap ;;
         p <- lift (unpack2 h r) ;;
         if negb (truthy h (fst p)) then ret (VTuple [fst p; snd p])
         else loop ports' (fst p) (snd p)
     end) (_ports n) (VBool true) VNone.

(** [PortNamespace.validate_dynamic_ports] (lines 469-491) *)
Definition validate_dynamic_ports (self port_values : loc) : M val :=
  n <- namespace_of self ;;
  h <- get_heap ;;
  if truthy h (VRef port_values) && negb (truthy h (_dynamic n)) then
    ret (invalid (format h "Unexpected ports {}, for a non dynamic namespace"
                    [VRef port_values]))
  else if negb (is_None (_valid_type (ns_spec n))) then
    let valid_type := _valid_type (ns_spec n) in
    items <- items_of (VRef port_values) ;;
    (fix loop (items : dict val) : M val :=
       match items with
       | [] => ret valid
       | (port_name, port_value) :: items' =>
           ok <- lift (isinstance h port_value valid_type) ;;
           if negb ok then
             ret (invalid (format h "Invalid type {} for dynamic port value: expected {}"
                             [VType (type_of h port_value); valid_type]))
           else loop items'
       end) items
  else ret valid.

(** [PortNamespace.validate] (lines 413-449) *)
Definition PortNamespace_validate (validate : loc -> val -> M val) (self : loc)
  (port_values : val) : M val :=
  note_validate self ;;;
  n <- namespace_of self ;;
  d <- (if is_None port_values then ret [] else to_dict port_values) ;;
  port_values <- alloc (ODict d) ;;
  checked <-
    (if negb (is_None (_validator (ns_spec n))) then
       r <- call_value (_validator (ns_spec n)) [VRef self; VRef port_values] ;;
       h <- get_heap ;;
       p <- lift (unpack2 h r) ;;
       if negb (truthy h (fst p)) then ret (inl (VTuple [fst p; snd p]))
       else ret (inr p)
     else ret (inr (VBool true, VNone))) ;;
  match checked with
  | inl r => ret r
  | inr (is_valid, message) =>
      h <- get_heap ;;
      if negb (truthy h (VRef port_values)) && negb (truthy h (_required (ns_spec n))) then
        ret (VTuple [is_valid; message])
      else
        r <- validate_ports validate self port_values ;;
        h <- get_heap ;;
        p <- lift (unpack2 h r) ;;
        if negb (truthy h (fst p)) then ret (VTuple [fst p; snd p])
        else
          r <- validate_dynamic_ports self port_values ;;
          h <- get_heap ;;
          p <- lift (unpack2 h r) ;;
          ret (VTuple [fst p; snd p])
  end.

(** [port.validate(value)]: the method of the class of the object at
    [port].  [fuel] bounds the nesting depth. *)
Fixpoint validate (fuel : nat) (port : loc) (value : val) : M val :=
  match fuel with
  | 0 => out_of_fuel
  | S fuel' =>
      h <- get_heap ;;
      match h !! port with
      | Some (OLeaf _ _ _) => ValueSpec_validate port value
      | Some (ONamespace _) => PortNamespace_validate (validate fuel') port value
      | _ => raise (AttributeError "object has no attribute 'validate'")
      end
  end.

(** What a validator says about a value: it returns a sequence of two
    items of which the first is true, or something that is neither a
    sequence nor [False]. *)
Definition accepts (validator : val) (h : heap) (value : val) : Prop :=
  exists c result,
    validator = VFun c /\ call c h [value] = Ok result /\
    if is_Sequence result
    then len result = 2 /\ exists p, unpack2 h result = Ok p /\ truthy h (fst p) = true
    else is_False result = false.

(** The attributes [s] with another [required] flag *)
Definition spec_with_required (s : ValueSpec) (required : val) : ValueSpec :=
  {| _name := _name s; _valid_type := _valid_type s; _help := _help s;
     _required := required; _validator := _validator s |}.

(** ** Computations that only read the heap

    Such a computation leaves the heap and the log as they are, and its
    result is determined by the heap. *)
Definition heap_reader {A} (m : M A) : Prop :=
  forall st,
    objs (snd (m st)) = objs st /\
    logged (snd (m st)) = logged st /\
    forall st2, objs st2 = objs st -> fst (m st2) = fst (m st).

(** Following the segments of a path through the children of namespaces,
    one dictionary lookup at a time *)
Fixpoint walk (h : heap) (self : loc) (segments : list string) : option loc :=
  match segments with
  | [] => Some self
  | x :: rest =>
      match namespace_at h self with
      | Some n =>
          match dict_get x (_ports n) with
          | Some port => walk h port rest
          | None => None
          end
      | None => None
      end
  end.

(** How a heap grows under [create_port_namespace]: objects are added, and
    a namespace may gain children; nothing else changes. *)
Definition obj_extends (o o' : obj) : Prop :=
  match o with
  | ONamespace n =>
      exists n', o' = ONamespace n' /\
        forall k c, dict_get k (_ports n) = Some c -> dict_get k (_ports n') = Some c
  | _ => o' = o
  end.

Definition extends (h h' : heap) : Prop :=
  forall (l : loc) o, h !! l = Some o -> exists o', h' !! l = Some o' /\ obj_extends o o'.

(** [port] is the child of the namespace [self] under the name [x], and is
    itself a namespace. *)
Definition linked (h : heap) (self : loc) (x : string) (port : loc) : Prop :=
  exists n n',
    namespace_at h self = Some n /\ dict_get x (_ports n) = Some port /\
    namespace_at h port = Some n'.

(** [h'] keeps the first [k] objects of [h] as they are, and has not lost
    any object. *)
Definition keeps (k : nat) (h h' : heap) : Prop :=
  length h <= length h' /\ forall l : loc, l < k -> h' !! l = h !! l.

(** A computation that leaves the first [k] objects of the heap alone,
    whatever its outcome *)
Definition frame {A} (k : nat) (m : M A) : Prop :=
  forall st, k <= length (objs st) -> keeps k (objs st) (objs (snd (m st))).

(** The value that [absorb] gives the property [attr]: the override in
    [namespace_options] if there is one, the value of the other namespace
    otherwise *)
Definition absorbed_value (namespace_options : dict val) (o : PortNamespace)
  (attr : string) : val :=
  match dict_get attr namespace_options with
  | Some v => v
  | None => getattr o attr
  end.

(** The loop of [absorb] over the mutable properties as a function of the
    attributes [n] of [self] and [o] of the other namespace; [alias] says
    that the two are one object.  Each property is set to its
    [absorbed_value], and its override, if any, is removed. *)
Fixpoint absorbed (alias : bool) (n o : PortNamespace) (attrs : list string)
  (namespace_options : dict val) : PortNamespace * dict val :=
  match attrs with
  | [] => (n, namespace_options)
  | attr :: attrs' =>
      let n' := set_property n attr (absorbed_value namespace_options o attr) in
      absorbed alias n' (if alias then n' else o) attrs'
        (dict_remove attr namespace_options)
  end.

(** The state in which the object at [l] has become [o] *)
Definition with_object (st : state) (l : loc) (o : obj) : state :=
  {| objs := <[l := o]> (objs st); logged := logged st; validated := validated st |}.


(** *** The container methods *)

(** [PortNamespace.__len__] (lines 212-213) *)
Definition PortNamespace_len (self : loc) : M nat :=
  n <- namespace_of self ;;
  ret (length (_ports n)).

(** [key in self]: [MutableMapping.__contains__] tries [self[key]] *)
Definition PortNamespace_contains (self : loc) (key : string) : M bool :=
  n <- namespace_of self ;;
  ret (dict_mem key (_ports n)).

(** [PortNamespace.__delitem__] (lines 215-216): deleting a key that the
    dictionary does not have is a [KeyError]. *)
Definition PortNamespace_delitem (self : loc) (key : string) : M unit :=
  n <- namespace_of self ;;
  if dict_mem key (_ports n) then
    store self (ONamespace (with_ports n (dict_remove key (_ports n))))
  else raise (KeyError key).

(** [InputPort.has_default] (lines 151-152) and [PortNamespace.has_default]
    (lines 230-231): the object has a [_default] other than the sentinel. *)
Definition has_default (self : loc) : M bool :=
  h <- get_heap ;;
  match h !! self with
  | Some (OLeaf CInputPort _ (Some default)) => ret (negb (is_UNSPECIFIED default))
  | Some (ONamespace n) => ret (negb (is_UNSPECIFIED (ns_default n)))
  | _ => raise (AttributeError "object has no attribute 'has_default'")
  end.

(** The entries that [validate] works on (lines 431-434): none for [None],
    those of [dict(port_values)] otherwise *)
Definition values_given (port_values : val) : M (dict val) :=
  if is_None port_values then ret [] else to_dict port_values.

(** What is left of a dictionary when the keys [names] have been popped *)
Definition popped (names : list string) (d : dict val) : dict val :=
  fold_left (fun d name => dict_remove name d) names d.

(** A value that holds no reference to an object, at any depth *)
Fixpoint plain (v : val) : bool :=
  match v with
  | VTuple l | VList l => forallb plain l
  | VRef _ => false
  | _ => true
  end.

(** A port all of whose attributes are such values *)
Definition plain_port (s : ValueSpec) (default : option val) : bool :=
  plain (_name s) && plain (_valid_type s) && plain (_help s) && plain (_required s)
  && plain (_validator s)
  && match default with Some d => plain d | None => true end.

(** * Properties *)

(** ** Running the monad *)

Ltac run :=
  unfold bind, ret, raise, lift, out_of_fuel, get_heap, set_heap, alloc, store,
    log_info, note_validate, call_value, spec_of, namespace_of in *;
  cbn [fst snd objs logged validated] in *.

Lemma succeeds_invalid h msg : ~ succeeds h (Ok (invalid msg)).
Proof.
  intros (v & p & E & U & T). injection E as <-. cbn in U. injection U as <-.
  discriminate.
Qed.

Lemma succeeds_valid h : succeeds h (Ok valid).
Proof. exists valid, (VBool true, VNone). repeat split. Qed.

Lemma succeeds_raise h e : ~ succeeds h (Raise e).
Proof. intros (v & p & E & _). discriminate. Qed.

Lemma is_None_eq v : is_None v = true <-> v = VNone.
Proof. destruct v; cbn; split; congruence. Qed.

Lemma is_UNSPECIFIED_eq v : is_UNSPECIFIED v = true <-> v = VTuple [].
Proof. destruct v as [| | | |[|x l]| | | |]; cbn; split; congruence. Qed.

(** ** Leaf ports *)

(** What [validate] does with [UNSPECIFIED], by cases on the attributes. *)
Lemma validate_value_unspecified (s : ValueSpec) (st : state) :
  validate_value s UNSPECIFIED st =
  if truthy (objs st) (_required s) then
    (Ok (invalid (format (objs st) "required value was not provided for '{}'" [_name s])), st)
  else if is_None (_validator s) then (Ok valid, st)
  else
    match call_value (_validator s) [UNSPECIFIED] st with
    | (Ok result, _) =>
        if is_Sequence result then
          if Nat.eqb (len result) 2 then (Ok result, st)
          else (Raise (AssertionError "Invalid validator return type"), st)
        else if is_False result then (Ok (invalid "Value failed validation"), st)
        else (Ok valid, st)
    | (Raise e, _) => (Raise e, st)
    | (NoFuel, _) => (NoFuel, st)
    end.
Proof.
  unfold validate_value. run. cbn [is_UNSPECIFIED UNSPECIFIED].
  destruct (truthy (objs st) (_required s)); [reflexivity|].
  destruct (is_None (_validator s)); cbn [negb]; [reflexivity|].
  destruct (_validator s); try reflexivity.
  destruct (call f (objs st) _) as [result| |]; try reflexivity.
  destruct (is_Sequence result); [destruct (len result =? 2)%nat|destruct (is_False result)];
    reflexivity.
Qed.

(** C1 (as amended): for a leaf port, [validate(UNSPECIFIED)] fails with
    the required-value message when the port is required.  When it is not
    required the type check is skipped, whatever [valid_type] is, but a
    custom validator is still called, with [UNSPECIFIED] as its argument:
    [validate] returns success at once only if there is no validator, and
    in general succeeds if and only if the port is not required and either
    has no validator or has one that accepts [UNSPECIFIED]. *)
Theorem validate_unspecified (st : state) (self : loc) c s d :
  objs st !! self = Some (OLeaf c s d) ->
  let r := fst (ValueSpec_validate self UNSPECIFIED st) in
  (truthy (objs st) (_required s) = true ->
   r = Ok (invalid (format (objs st) "required value was not provided for '{}'" [_name s])))
  /\ (truthy (objs st) (_required s) = false -> _validator s = VNone -> r = Ok valid)
  /\ (succeeds (objs st) r <->
      truthy (objs st) (_required s) = false /\
      (_validator s = VNone \/ accepts (_validator s) (objs st) UNSPECIFIED)).
Proof.
  intros Hself r.
  assert (Er : r = fst (validate_value s UNSPECIFIED st)).
  { subst r. unfold ValueSpec_validate. run. rewrite Hself.
    set (st' := {| objs := objs st; logged := logged st; validated := validated st ++ [self] |}).
    rewrite !validate_value_unspecified. subst st'. cbn [objs].
    destruct (truthy (objs st) (_required s)); [reflexivity|].
    destruct (is_None (_validator s)); [reflexivity|].
    unfold call_value. cbn [objs].
    destruct (_validator s); try reflexivity.
    destruct (call f (objs st) [UNSPECIFIED]) as [result| |]; try reflexivity.
    destruct (is_Sequence result); [destruct (len result =? 2)%nat|destruct (is_False result)];
      reflexivity. }
  clearbody r. subst r. rewrite validate_value_unspecified.
  destruct (truthy (objs st) (_required s)) eqn:Hreq.
  { cbn [fst]. split; [reflexivity|]. split; [discriminate|]. split.
    - intros H. now apply succeeds_invalid in H.
    - intros [? _]. discriminate. }
  split; [discriminate|].
  destruct (is_None (_validator s)) eqn:Hv.
  { apply is_None_eq in Hv. cbn [fst]. split; [reflexivity|]. split.
    - intros _. auto.
    - intros _. apply succeeds_valid. }
  assert (Hne : _validator s <> VNone) by (intros E; rewrite E in Hv; discriminate).
  split; [congruence|].
  unfold call_value, accepts. cbn [objs].
  destruct (_validator s) as [| | | | | | |f|] eqn:Ef;
    try (cbn [fst]; split;
         [ intros H; now apply succeeds_raise in H
         | intros [_ [?|(c0 & result & E & _)]]; congruence ]).
  destruct (call f (objs st) [UNSPECIFIED]) as [result|e|] eqn:Ecall; cbn [fst].
  - destruct (is_Sequence result) eqn:Hseq.
    + destruct (len result =? 2)%nat eqn:Hlen.
      * apply Nat.eqb_eq in Hlen. split.
        -- intros (v & p & E & U & T). injection E as <-.
           split; [reflexivity|]. right. exists f, result.
           rewrite Hseq. eauto 10.
        -- intros [_ [?|(c0 & result' & E & Ec & Hacc)]]; [congruence|].
           injection E as <-. rewrite Ecall in Ec. injection Ec as <-.
           rewrite Hseq in Hacc. destruct Hacc as (_ & p & U & T).
           exists result, p. auto.
      * apply Nat.eqb_neq in Hlen. split.
        -- intros H. now apply succeeds_raise in H.
        -- intros [_ [?|(c0 & result' & E & Ec & Hacc)]]; [congruence|].
           injection E as <-. rewrite Ecall in Ec. injection Ec as <-.
           rewrite Hseq in Hacc. destruct Hacc as (? & _). congruence.
    + destruct (is_False result) eqn:Hfalse; split.
      * intros H. now apply succeeds_invalid in H.
      * intros [_ [?|(c0 & result' & E & Ec & Hacc)]]; [congruence|].
        injection E as <-. rewrite Ecall in Ec. injection Ec as <-.
        rewrite Hseq in Hacc. congruence.
      * intros _. split; [reflexivity|]. right. exists f, result.
        rewrite Hseq. auto.
      * intros _. apply succeeds_valid.
  - split.
    + intros H. now apply succeeds_raise in H.
    + intros [_ [?|(c0 & result' & E & Ec & _)]]; [congruence|].
      injection E as <-. congruence.
  - split.
    + intros (v & p & E & _). discriminate.
    + intros [_ [?|(c0 & result' & E & Ec & _)]]; [congruence|].
      injection E as <-. congruence.
Qed.

Lemma reader_ret {A} (a : A) : heap_reader (ret a).
Proof. intros st. cbn. auto. Qed.

Lemma reader_raise {A} e : heap_reader (@raise A e).
Proof. intros st. cbn. auto. Qed.

Lemma reader_lift {A} (r : res A) : heap_reader (lift r).
Proof. intros st. cbn. auto. Qed.

Lemma reader_note l : heap_reader (note_validate l).
Proof. intros st. cbn. auto. Qed.

Lemma reader_bind {A B} (m : M A) (k : A -> M B) :
  heap_reader m -> (forall a, heap_reader (k a)) -> heap_reader (bind m k).
Proof.
  intros Hm Hk st. unfold bind.
  destruct (Hm st) as (Ho & Hl & Hr).
  destruct (m st) as [r st1] eqn:E1. cbn [fst snd] in *.
  assert (Hall : forall st2, objs st2 = objs st ->
            fst (match m st2 with
                 | (Ok a, st') => k a st'
                 | (Raise e, st') => (Raise e, st')
                 | (NoFuel, st') => (NoFuel, st')
                 end) =
            fst (match r with
                 | Ok a => k a st1
                 | Raise e => (Raise e, st1)
                 | NoFuel => (NoFuel, st1)
                 end)).
  { intros st2 E2. specialize (Hr st2 E2).
    destruct (Hm st2) as (Ho2 & _ & _).
    destruct (m st2) as [r2 st3]. cbn [fst snd] in *. subst r2.
    destruct r as [a| |]; try reflexivity.
    apply (Hk a st1). congruence. }
  destruct r as [a| |]; cbn [fst snd].
  - destruct (Hk a st1) as (Ho' & Hl' & _).
    split; [congruence|]. split; [congruence|]. exact Hall.
  - auto.
  - auto.
Qed.

Lemma reader_get_heap_bind {B} (k : heap -> M B) :
  (forall h, heap_reader (k h)) -> heap_reader (bind get_heap k).
Proof.
  intros Hk st. unfold bind, get_heap.
  destruct (Hk (objs st) st) as (Ho & Hl & Hr).
  split; [exact Ho|]. split; [exact Hl|].
  intros st2 E. rewrite E. apply Hr, E.
Qed.

Lemma reader_call f args : heap_reader (call_value f args).
Proof.
  intros st. unfold call_value. destruct f; cbn; repeat split; auto.
  intros st2 ->. reflexivity.
Qed.

Lemma reader_spec_of self : heap_reader (spec_of self).
Proof.
  intros st. unfold spec_of.
  split; [repeat case_match; reflexivity|].
  split; [repeat case_match; reflexivity|].
  intros st2 ->. repeat case_match; reflexivity.
Qed.

Lemma reader_namespace_of self : heap_reader (namespace_of self).
Proof.
  intros st. unfold namespace_of.
  split; [repeat case_match; reflexivity|].
  split; [repeat case_match; reflexivity|].
  intros st2 ->. repeat case_match; reflexivity.
Qed.

(** One step of a proof that a computation only reads the heap *)
Ltac reader_step :=
  lazymatch goal with
  | |- heap_reader (bind get_heap _) => apply reader_get_heap_bind; intros ?
  | |- heap_reader (bind _ _) => apply reader_bind; [|intros ?]
  | |- heap_reader (ret _) => apply reader_ret
  | |- heap_reader (raise _) => apply reader_raise
  | |- heap_reader (lift _) => apply reader_lift
  | |- heap_reader (note_validate _) => apply reader_note
  | |- heap_reader (call_value _ _) => apply reader_call
  | |- heap_reader (spec_of _) => apply reader_spec_of
  | |- heap_reader (namespace_of _) => apply reader_namespace_of
  | |- heap_reader (if ?b then _ else _) => destruct b
  | |- heap_reader (match ?x with _ => _ end) => destruct x
  | |- heap_reader (let '(_, _) := ?x in _) => destruct x
  end.

Lemma reader_validate_value s v : heap_reader (validate_value s v).
Proof. unfold validate_value. repeat reader_step. Qed.

Lemma reader_ValueSpec_validate self v : heap_reader (ValueSpec_validate self v).
Proof.
  unfold ValueSpec_validate. repeat reader_step. apply reader_validate_value.
Qed.

(** C4 (as amended): [UNSPECIFIED] is the empty tuple.  It is distinct from
    [None] and from every value other than the empty tuple, and for such a
    value [validate] does not look at [required] at all.  An empty tuple that
    the caller supplies is the sentinel itself, and a required port reports
    it as missing. *)
Theorem unspecified_is_the_empty_tuple :
  (forall v, is_UNSPECIFIED v = true <-> v = VTuple [])
  /\ is_UNSPECIFIED VNone = false
  /\ (forall s required st v,
        v <> VTuple [] ->
        validate_value (spec_with_required s required) v st = validate_value s v st)
  /\ (forall s st,
        truthy (objs st) (_required s) = true ->
        validate_value s (VTuple []) st =
        (Ok (invalid (format (objs st) "required value was not provided for '{}'"
                        [_name s])), st)).
Proof.
  split; [apply is_UNSPECIFIED_eq|]. split; [reflexivity|]. split.
  - intros s required st v Hv.
    assert (E : is_UNSPECIFIED v = false).
    { destruct (is_UNSPECIFIED v) eqn:E; [|reflexivity].
      apply is_UNSPECIFIED_eq in E. contradiction. }
    unfold validate_value. run. rewrite E. reflexivity.
  - intros s st Hreq. change (VTuple []) with UNSPECIFIED.
    rewrite validate_value_unspecified, Hreq. reflexivity.
Qed.

(** ** InputPort *)

Lemma lookup_alloc (h : heap) (o : obj) : (h ++ [o]) !! length h = Some o.
Proof. now apply list_lookup_middle. Qed.

Lemma lookup_store (h : heap) (l : loc) (o : obj) :
  l < length h -> <[l := o]> h !! l = Some o.
Proof. apply list_lookup_insert_eq. Qed.

Lemma lookup_store_alloc (h : heap) (o o' : obj) :
  <[length h := o']> (h ++ [o]) !! length h = Some o'.
Proof. apply lookup_store. rewrite length_app. cbn. lia. Qed.

Lemma bind_alloc {B} o (k : loc -> M B) st :
  bind (alloc o) k st =
  k (length (objs st))
    {| objs := objs st ++ [o]; logged := logged st; validated := validated st |}.
Proof. reflexivity. Qed.

(** The check of the default in [InputPort.__init__] only reads the heap. *)
Lemma reader_check_default self default :
  heap_reader
    (r <- ValueSpec_validate self default ;;
     h <- get_heap ;;
     p <- lift (unpack2 h r) ;;
     let '(default_valid, msg) := p in
     if negb (truthy h default_valid) then
       raise (ValueError (format h "Invalid default value: {}" [msg]))
     else ret tt).
Proof.
  apply reader_bind; [apply reader_ValueSpec_validate|]. intros r.
  repeat reader_step.
Qed.

(** C7: an [InputPort] that was constructed with a default has [required]
    false, whatever the caller passed for it; without a default it has the
    caller's value.  The caller's [required] has no part in whether the
    construction succeeds: with any other value for it the constructor
    returns the same object.  A disagreement shows in the log only, as one
    more line. *)
Theorem InputPort_required_override name valid_type help default required validator
  st self st' :
  InputPort_init name valid_type help default required validator st = (Ok self, st') ->
  (exists s, objs st' !! self = Some (OLeaf CInputPort s (Some default)) /\
     (is_UNSPECIFIED default = false -> _required s = VBool false) /\
     (is_UNSPECIFIED default = true -> _required s = required))
  /\ (forall required',
        fst (InputPort_init name valid_type help default required' validator st) = Ok self)
  /\ (if required_was_overridden required default
      then exists msg, logged st' = logged st ++ [msg]
      else logged st' = logged st).
Proof.
  unfold InputPort_init, required_override, required_was_overridden.
  destruct (is_UNSPECIFIED default) eqn:Hd; cbn [negb].
  - (* no default: nothing is validated *)
    run. intros H. injection H as <- <-. cbn [objs logged].
    split; [|split; [reflexivity|reflexivity]].
    eexists. split.
    { apply lookup_store_alloc. }
    split; [discriminate|intros _; reflexivity].
  - (* a default: the object that is validated has [required] false *)
    set (s := {| _name := name; _valid_type := valid_type; _help := help;
                 _required := VBool false; _validator := validator |}).
    rewrite bind_alloc.
    set (self0 := length (objs st)).
    set (check := (r <- ValueSpec_validate self0 default ;; _)).
    assert (Hcheck : heap_reader check) by apply reader_check_default.
    assert (Hrun : forall lg st2 r,
      logged st2 = lg -> objs st2 = objs st ++ [OLeaf CInputPort s None] ->
      (check ;;; store self0 (OLeaf CInputPort s (Some default)) ;;; ret self0) st2 = (r, st') ->
      r = Ok self ->
      fst (check st2) = Ok tt /\ self = self0 /\ logged st' = lg /\
      objs st' !! self0 = Some (OLeaf CInputPort s (Some default))).
    { intros lg st2 r Hlg Ho Hr ->. unfold bind at 1 in Hr.
      destruct (Hcheck st2) as (Ho2 & Hl2 & _).
      destruct (check st2) as [[[]| |] st3]; try discriminate.
      cbn [fst snd] in *. run. injection Hr as <- <-. cbn [objs logged].
      repeat split; try congruence.
      rewrite Ho2, Ho. apply lookup_store_alloc. }
    assert (Hany : forall st2 st3,
      objs st2 = objs st ++ [OLeaf CInputPort s None] ->
      objs st3 = objs st ++ [OLeaf CInputPort s None] ->
      fst (check st2) = Ok tt ->
      fst ((check ;;; store self0 (OLeaf CInputPort s (Some default)) ;;; ret self0) st3)
      = Ok self0).
    { intros st2 st3 Ho2 Ho3 Hc. unfold bind at 1.
      destruct (Hcheck st2) as (_ & _ & Hsame).
      specialize (Hsame st3 ltac:(congruence)). rewrite Hc in Hsame.
      destruct (check st3) as [r3 st4]. cbn [fst] in Hsame. subst r3. reflexivity. }
    intros H.
    assert (Hres : exists st2,
      objs st2 = objs st ++ [OLeaf CInputPort s None] /\
      fst (check st2) = Ok tt /\ self = self0 /\
      objs st' !! self0 = Some (OLeaf CInputPort s (Some default)) /\
      (if negb (is_False required)
       then exists msg, logged st' = logged st ++ [msg]
       else logged st' = logged st)).
    { destruct (negb (is_False required)).
      - unfold bind at 1 2 in H. unfold get_heap, log_info in H. cbn [objs logged] in H.
        eapply Hrun in H; [|reflexivity|reflexivity|reflexivity].
        destruct H as (Hc & Hs & Hl & Hobj). eexists. split; [|split; [exact Hc|]].
        + reflexivity.
        + cbn [logged] in Hl. eauto.
      - unfold bind at 1 in H. unfold ret at 1 in H.
        eapply Hrun in H; [|reflexivity|reflexivity|reflexivity].
        destruct H as (Hc & Hs & Hl & Hobj). eexists. split; [|split; [exact Hc|]].
        + reflexivity.
        + cbn [logged] in Hl. eauto. }
    destruct Hres as (st2 & Ho2 & Hc & -> & Hobj & Hlog).
    split; [|split; [|exact Hlog]].
    + exists s. split; [exact Hobj|]. split; [reflexivity|discriminate].
    + intros required'. rewrite bind_alloc. fold self0. fold s.
      destruct (negb (is_False required')).
      * unfold bind at 1 2. unfold get_heap, log_info. cbn [objs logged].
        eapply Hany; [exact Ho2|reflexivity|exact Hc].
      * unfold bind at 1. unfold ret at 1.
        eapply Hany; [exact Ho2|reflexivity|exact Hc].
Qed.

(** ** Paths: [split] and [join] *)

Lemma split_not_nil c s : split c s <> [].
Proof.
  destruct s as [|a s]; cbn [split]; [discriminate|].
  destruct (Ascii.eqb a c); [discriminate|].
  destruct (split c s); discriminate.
Qed.

Lemma join_cons c x y ys :
  join c (x :: y :: ys) = (x ++ String c (join c (y :: ys)))%string.
Proof. reflexivity. Qed.

(** Joining the segments of a string gives the string back. *)
Lemma join_split c s : join c (split c s) = s.
Proof.
  induction s as [|a s IH]; [reflexivity|].
  cbn [split]. pose proof (split_not_nil c s) as Hn.
  destruct (Ascii.eqb a c) eqn:E.
  - apply Ascii.eqb_eq in E as ->.
    destruct (split c s) as [|x xs]; [congruence|].
    rewrite join_cons, IH. reflexivity.
  - destruct (split c s) as [|x xs]; [congruence|].
    destruct xs as [|y ys].
    + cbn [join] in *. now rewrite IH.
    + rewrite join_cons in *. cbn [append]. now rewrite IH.
Qed.

Lemma split_no_sep c s : contains c s = false -> split c s = [s].
Proof.
  induction s as [|a s IH]; [reflexivity|].
  cbn [contains split]. intros H. apply orb_false_iff in H as [-> H].
  now rewrite (IH H).
Qed.

Lemma split_app_sep c x t :
  contains c x = false -> split c (x ++ String c t)%string = x :: split c t.
Proof.
  induction x as [|a x IH]; cbn [contains append split].
  - intros _. now rewrite Ascii.eqb_refl.
  - intros H. apply orb_false_iff in H as [-> H]. now rewrite (IH H).
Qed.

(** Splitting a path that was joined from segments without a separator
    gives the segments back. *)
Lemma split_join c segments :
  segments <> [] ->
  Forall (fun x => contains c x = false) segments ->
  split c (join c segments) = segments.
Proof.
  induction segments as [|x [|y ys] IH]; [congruence| |]; intros _ Hall.
  - apply split_no_sep. now inversion Hall.
  - rewrite join_cons. inversion Hall as [|? ? Hx Hrest]; subst.
    rewrite split_app_sep by assumption.
    now rewrite IH.
Qed.

(** ** get_port *)

(** The recursion of [get_port], one step at a time *)
Lemma get_port_step h self n name :
  namespace_at h self = Some n ->
  name <> EmptyString ->
  get_port h self (VStr name) =
  match dict_get (hd EmptyString (split NAMESPACE_SEPARATOR name)) (_ports n) with
  | None =>
      Raise (ValueError (format h "port '{}' does not exist in port namespace '{}'"
               [VStr (hd EmptyString (split NAMESPACE_SEPARATOR name)); _name (ns_spec n)]))
  | Some port =>
      match tl (split NAMESPACE_SEPARATOR name) with
      | [] => Ok port
      | _ :: _ =>
          get_port h port (VStr (join NAMESPACE_SEPARATOR (tl (split NAMESPACE_SEPARATOR name))))
      end
  end.
Proof.
  intros Hn Hne. destruct name as [|a s]; [congruence|].
  rewrite get_port_equation_1, Hn, get_port_clause_1_equation_1.
  rewrite get_port_clause_1_clause_2_equation_5. reflexivity.
Qed.

Lemma get_port_not_namespace h self name :
  namespace_at h self = None -> exists e, get_port h self name = Raise e.
Proof.
  intros Hn. rewrite get_port_equation_1, Hn, get_port_clause_1_equation_2.
  eexists. reflexivity.
Qed.

Lemma get_port_invalid_name h self name :
  name = VStr EmptyString \/ (forall s, name <> VStr s) ->
  exists e, get_port h self name = Raise e.
Proof.
  intros Hname. rewrite get_port_equation_1.
  destruct (namespace_at h self) as [n|];
    [rewrite get_port_clause_1_equation_1
    |rewrite get_port_clause_1_equation_2; eexists; reflexivity].
  destruct Hname as [->|Hname].
  { rewrite get_port_clause_1_clause_2_equation_4. eexists; reflexivity. }
  destruct name; simp get_port; try (eexists; reflexivity).
  now destruct (Hname s).
Qed.

(** [get_port] returns what the walk along all the segments of the name
    finds, and otherwise raises. *)
Lemma get_port_walk h name :
  forall self,
    (forall p, get_port h self (VStr name) = Ok p ->
               walk h self (split NAMESPACE_SEPARATOR name) = Some p)
    /\ get_port h self (VStr name) <> NoFuel.
Proof.
  remember (String.length name) as k eqn:Hk.
  revert name Hk. induction k as [k IH] using lt_wf_ind. intros name Hk self.
  destruct (namespace_at h self) as [n|] eqn:Hn.
  2:{ destruct (get_port_not_namespace h self (VStr name) Hn) as [e ->].
      split; [discriminate|discriminate]. }
  destruct (string_dec name EmptyString) as [->|Hne].
  { destruct (get_port_invalid_name h self (VStr EmptyString)) as [e ->]; [now left|].
    split; discriminate. }
  rewrite (get_port_step h self n name Hn Hne).
  pose proof (join_split NAMESPACE_SEPARATOR name) as Hjs.
  pose proof (split_not_nil NAMESPACE_SEPARATOR name) as Hnil.
  destruct (split NAMESPACE_SEPARATOR name) as [|x rest] eqn:Es; [congruence|].
  cbn [hd tl walk]. rewrite Hn.
  destruct (dict_get x (_ports n)) as [port|]; [|split; discriminate].
  destruct rest as [|y ys].
  - split; [|discriminate]. intros p [= <-]. reflexivity.
  - assert (Hlt : String.length (join NAMESPACE_SEPARATOR (y :: ys)) < k).
    { subst k. rewrite <- Hjs, join_cons.
      clear. induction x as [|a x IHx]; cbn in *; lia. }
    destruct (IH _ Hlt (join NAMESPACE_SEPARATOR (y :: ys)) eq_refl port) as [Hw Hf].
    split; [|exact Hf].
    intros p Hp. apply Hw in Hp.
    assert (Hsplit : split NAMESPACE_SEPARATOR (join NAMESPACE_SEPARATOR (y :: ys)) = y :: ys).
    { clear -Es. revert x y ys Es. induction name as [|a s IHs]; intros x y ys Es.
      - discriminate.
      - cbn [split] in Es. destruct (Ascii.eqb a NAMESPACE_SEPARATOR).
        + injection Es as <- Es. rewrite <- Es. now rewrite join_split.
        + destruct (split NAMESPACE_SEPARATOR s) as [|x' xs'] eqn:E'; [discriminate|].
          injection Es as <- ->. now apply (IHs x' y ys). }
    rewrite Hsplit in Hp. exact Hp.
Qed.

(** A name of one segment is one lookup among the children. *)
Lemma get_port_single h self a p :
  contains NAMESPACE_SEPARATOR a = false ->
  get_port h self (VStr a) = Ok p ->
  exists n, namespace_at h self = Some n /\ dict_get a (_ports n) = Some p.
Proof.
  intros Ha Hp.
  destruct (get_port_walk h a self) as [Hw _]. apply Hw in Hp.
  rewrite (split_no_sep _ _ Ha) in Hp. cbn [walk] in Hp.
  destruct (namespace_at h self) as [n|]; [|discriminate].
  exists n. split; [reflexivity|].
  destruct (dict_get a (_ports n)); [|discriminate]. assumption.
Qed.

Lemma join_not_empty c x y ys : join c (x :: y :: ys) <> EmptyString.
Proof. rewrite join_cons. destruct x; discriminate. Qed.

(** One step along a dotted name whose first segment is a child *)
Lemma get_port_descend h self n x y ys port :
  namespace_at h self = Some n ->
  Forall (fun s => contains NAMESPACE_SEPARATOR s = false) (x :: y :: ys) ->
  dict_get x (_ports n) = Some port ->
  get_port h self (VStr (join NAMESPACE_SEPARATOR (x :: y :: ys))) =
  get_port h port (VStr (join NAMESPACE_SEPARATOR (y :: ys))).
Proof.
  intros Hn Hall Hx.
  rewrite (get_port_step h self n _ Hn (join_not_empty _ _ _ _)).
  rewrite split_join by (assumption || discriminate).
  cbn [hd tl]. now rewrite Hx.
Qed.

(** C5: on a tree in which [a], [a.b] and [a.b.c] exist, [get_port] of the
    dotted name returns the very object that the three lookups of one
    segment each arrive at.  Whatever [get_port] returns is the object at
    the end of the walk along every segment of the name; when a segment is
    missing it raises.  It raises for the empty name and for a name that
    is not a string. *)
Theorem get_port_path (h : heap) (self : loc) :
  (forall a b c p1 p2 p3,
      contains NAMESPACE_SEPARATOR a = false ->
      contains NAMESPACE_SEPARATOR b = false ->
      contains NAMESPACE_SEPARATOR c = false ->
      get_port h self (VStr a) = Ok p1 ->
      get_port h p1 (VStr b) = Ok p2 ->
      get_port h p2 (VStr c) = Ok p3 ->
      get_port h self (VStr (join NAMESPACE_SEPARATOR [a; b; c])) = Ok p3)
  /\ (forall name p,
        get_port h self (VStr name) = Ok p ->
        walk h self (split NAMESPACE_SEPARATOR name) = Some p)
  /\ (forall name,
        walk h self (split NAMESPACE_SEPARATOR name) = None ->
        exists e, get_port h self (VStr name) = Raise e)
  /\ (forall name,
        name = VStr EmptyString \/ (forall s, name <> VStr s) ->
        exists e, get_port h self name = Raise e).
Proof.
  split; [|split; [|split]].
  - intros a b c p1 p2 p3 Ha Hb Hc H1 H2 H3.
    destruct (get_port_single h self a p1 Ha H1) as (n & Hn & Hx).
    destruct (get_port_single h p1 b p2 Hb H2) as (n1 & Hn1 & Hx1).
    rewrite (get_port_descend h self n a b [c] p1 Hn) by (repeat constructor; assumption).
    rewrite (get_port_descend h p1 n1 b c [] p2 Hn1) by (repeat constructor; assumption).
    exact H3.
  - intros name p. apply get_port_walk.
  - intros name Hw. destruct (get_port_walk h name self) as [Hok Hf].
    destruct (get_port h self (VStr name)) as [p|e|].
    + rewrite (Hok p eq_refl) in Hw. discriminate.
    + eauto.
    + congruence.
  - apply get_port_invalid_name.
Qed.

(** ** create_port_namespace *)

Lemma obj_extends_refl o : obj_extends o o.
Proof. destruct o; cbn; eauto. Qed.

Lemma obj_extends_trans o1 o2 o3 :
  obj_extends o1 o2 -> obj_extends o2 o3 -> obj_extends o1 o3.
Proof.
  destruct o1; cbn.
  - intros -> H. exact H.
  - intros (n2 & -> & H2) (n3 & -> & H3). exists n3. split; auto.
  - intros -> H. exact H.
Qed.

Lemma extends_refl h : extends h h.
Proof. intros l o H. exists o. split; [exact H|apply obj_extends_refl]. Qed.

Lemma extends_trans h1 h2 h3 : extends h1 h2 -> extends h2 h3 -> extends h1 h3.
Proof.
  intros H12 H23 l o H. destruct (H12 l o H) as (o2 & H2 & E2).
  destruct (H23 l o2 H2) as (o3 & H3 & E3).
  exists o3. split; [exact H3|]. eapply obj_extends_trans; eassumption.
Qed.

Lemma extends_namespace h h' l n :
  extends h h' -> namespace_at h l = Some n ->
  exists n', namespace_at h' l = Some n' /\
    forall k c, dict_get k (_ports n) = Some c -> dict_get k (_ports n') = Some c.
Proof.
  unfold namespace_at. intros He Hn.
  destruct (h !! l) as [[| n0 |]|] eqn:E; try discriminate. injection Hn as ->.
  destruct (He l _ E) as (o' & -> & n' & -> & Hk). eauto.
Qed.

Lemma extends_linked h h' self x port :
  extends h h' -> linked h self x port -> linked h' self x port.
Proof.
  intros He (n & n' & Hn & Hx & Hp).
  destruct (extends_namespace _ _ _ _ He Hn) as (m & Hm & Hk).
  destruct (extends_namespace _ _ _ _ He Hp) as (m' & Hm' & _).
  exists m, m'. auto.
Qed.

Lemma namespace_at_type h l n :
  namespace_at h l = Some n -> type_of h (VRef l) = TPortNamespace.
Proof.
  unfold namespace_at, type_of. destruct (h !! l) as [[| |]|]; congruence.
Qed.

Lemma dict_get_set_eq {A} k (v : A) d : dict_get k (dict_set k v d) = Some v.
Proof.
  induction d as [|[k' v'] d IH]; cbn.
  - now rewrite String.eqb_refl.
  - destruct (String.eqb k k') eqn:E; cbn; rewrite E; auto.
Qed.

Lemma dict_get_set_ne {A} k k' (v : A) d :
  k' <> k -> dict_get k' (dict_set k v d) = dict_get k' d.
Proof.
  intros Hne. induction d as [|[k0 v0] d IH]; cbn.
  - destruct (String.eqb k' k) eqn:E; [apply String.eqb_eq in E; congruence|reflexivity].
  - destruct (String.eqb k k0) eqn:E; cbn.
    + apply String.eqb_eq in E as <-.
      destruct (String.eqb k' k) eqn:E'; [apply String.eqb_eq in E'; congruence|reflexivity].
    + now rewrite IH.
Qed.

(** The recursion of [create_port_namespace], one step at a time *)
Lemma create_port_namespace_step self name kwargs st n :
  namespace_at (objs st) self = Some n ->
  name <> EmptyString ->
  create_port_namespace self (VStr name) kwargs st =
  (let namespace := split NAMESPACE_SEPARATOR name in
   let port_name := hd EmptyString namespace in
   let namespace := tl namespace in
   let h := objs st in
   let occupied :=
     match dict_get port_name (_ports n) with
     | Some port => negb (issubclass (type_of h (VRef port)) TPortNamespace)
     | None => false
     end in
   if occupied then
     (Raise (ValueError (format h "the name '{}' in '{}' already contains a Port"
                           [VStr port_name; _name (ns_spec n)])), st)
   else
     ((if negb (dict_mem port_name (_ports n)) then
         match namespace with
         | _ :: _ =>
             child <- PortNamespace_new (VStr port_name) [] ;;
             PortNamespace_setitem self port_name (VRef child)
         | [] =>
             child <- PortNamespace_new (VStr port_name) kwargs ;;
             PortNamespace_setitem self port_name (VRef child)
         end
       else ret tt) ;;;
      port <- PortNamespace_getitem self port_name ;;
      match namespace with
      | _ :: _ =>
          fun st' => create_port_namespace port
                       (VStr (join NAMESPACE_SEPARATOR namespace)) kwargs st'
      | [] => ret port
      end) st).
Proof.
  intros Hn Hne. destruct name as [|a s]; [congruence|].
  rewrite create_port_namespace_equation_1, Hn, create_port_namespace_clause_1_equation_1.
  rewrite create_port_namespace_clause_1_clause_2_equation_5. reflexivity.
Qed.

Lemma create_port_namespace_not_namespace self name kwargs st :
  namespace_at (objs st) self = None ->
  exists e, create_port_namespace self name kwargs st = (Raise e, st).
Proof.
  intros Hn.
  rewrite create_port_namespace_equation_1, Hn, create_port_namespace_clause_1_equation_2.
  eexists. reflexivity.
Qed.

Lemma create_port_namespace_invalid_name self name kwargs st :
  name = VStr EmptyString \/ (forall s, name <> VStr s) ->
  exists e, create_port_namespace self name kwargs st = (Raise e, st).
Proof.
  intros Hname. rewrite create_port_namespace_equation_1.
  destruct (namespace_at (objs st) self) as [n|];
    [rewrite create_port_namespace_clause_1_equation_1
    |rewrite create_port_namespace_clause_1_equation_2; eexists; reflexivity].
  destruct Hname as [->|Hname].
  { rewrite create_port_namespace_clause_1_clause_2_equation_4. eexists; reflexivity. }
  destruct name; simp create_port_namespace; try (eexists; reflexivity).
  now destruct (Hname s).
Qed.

(** The child is there and is a namespace: nothing is created. *)
Lemma create_port_namespace_present self name kwargs st port :
  name <> EmptyString ->
  linked (objs st) self (hd EmptyString (split NAMESPACE_SEPARATOR name)) port ->
  create_port_namespace self (VStr name) kwargs st =
  match tl (split NAMESPACE_SEPARATOR name) with
  | [] => (Ok port, st)
  | _ :: _ =>
      create_port_namespace port
        (VStr (join NAMESPACE_SEPARATOR (tl (split NAMESPACE_SEPARATOR name)))) kwargs st
  end.
Proof.
  intros Hne (n & n' & Hn & Hx & Hp).
  rewrite (create_port_namespace_step self name kwargs st n Hn Hne). cbv zeta.
  rewrite Hx, (namespace_at_type _ _ _ Hp). cbn [issubclass pytype_eqb orb negb].
  unfold dict_mem. rewrite Hx. cbn [negb].
  unfold PortNamespace_getitem. run. rewrite Hn, Hx.
  destruct (tl (split NAMESPACE_SEPARATOR name)); reflexivity.
Qed.

(** The child is there and is not a namespace: the call fails. *)
Lemma create_port_namespace_occupied self name kwargs st n port :
  name <> EmptyString ->
  namespace_at (objs st) self = Some n ->
  dict_get (hd EmptyString (split NAMESPACE_SEPARATOR name)) (_ports n) = Some port ->
  namespace_at (objs st) port = None ->
  exists e, create_port_namespace self (VStr name) kwargs st = (Raise e, st).
Proof.
  intros Hne Hn Hx Hp.
  rewrite (create_port_namespace_step self name kwargs st n Hn Hne). cbv zeta.
  rewrite Hx.
  assert (Ht : issubclass (type_of (objs st) (VRef port)) TPortNamespace = false).
  { unfold namespace_at in Hp. unfold type_of.
    destruct (objs st !! port) as [[c s d| |]|]; try discriminate; try reflexivity.
    destruct c; reflexivity. }
  rewrite Ht. cbn [negb]. eexists. reflexivity.
Qed.

Lemma namespace_at_lookup (h : heap) (l : loc) n :
  namespace_at h l = Some n -> h !! l = Some (ONamespace n).
Proof. unfold namespace_at. destruct (h !! l) as [[| |]|]; congruence. Qed.

Lemma lookup_namespace_at (h : heap) (l : loc) n :
  h !! l = Some (ONamespace n) -> namespace_at h l = Some n.
Proof. unfold namespace_at. now intros ->. Qed.

Lemma lookup_alloc_old (h : heap) (o : obj) (l : loc) x :
  h !! l = Some x -> (h ++ [o]) !! l = Some x.
Proof. intros H. now apply lookup_app_l_Some. Qed.

Lemma lookup_store_ne (h : heap) (l l' : loc) (o : obj) :
  l <> l' -> <[l := o]> h !! l' = h !! l'.
Proof. intros H. now apply list_lookup_insert_ne. Qed.

(** Creating the child [x] of [self], where there is none: the new
    namespace is the next object of the heap, and [self] gains it. *)
Lemma create_child self x kwargs st n :
  namespace_at (objs st) self = Some n ->
  dict_get x (_ports n) = None ->
  (exists e,
      (child <- PortNamespace_new (VStr x) kwargs ;;
       PortNamespace_setitem self x (VRef child)) st = (Raise e, st))
  \/ (exists st',
        (child <- PortNamespace_new (VStr x) kwargs ;;
         PortNamespace_setitem self x (VRef child)) st = (Ok tt, st') /\
        extends (objs st) (objs st') /\
        linked (objs st') self x (length (objs st))).
Proof.
  intros Hn Hx. unfold PortNamespace_new.
  destruct (forallb _ kwargs); [right|left; eexists; reflexivity].
  unfold PortNamespace_init. rewrite bind_alloc.
  set (new := ONamespace _).
  pose proof (namespace_at_lookup _ _ _ Hn) as Hself.
  assert (Hlt : self < length (objs st)) by (eapply lookup_lt_Some; exact Hself).
  unfold PortNamespace_setitem. run.
  unfold type_of. rewrite lookup_alloc. subst new.
  cbn [issubclass pytype_eqb orb].
  unfold namespace_at. cbn [objs]. rewrite (lookup_alloc_old _ _ _ _ Hself).
  eexists. split; [reflexivity|]. cbn [objs]. split.
  - intros l o Hl.
    destruct (Nat.eq_dec self l) as [<-|Hne].
    + rewrite Hself in Hl. injection Hl as <-.
      eexists. split.
      * apply lookup_store. rewrite length_app. cbn. lia.
      * cbn. eexists. split; [reflexivity|]. cbn [with_ports _ports].
        intros k c Hk. rewrite dict_get_set_ne; [exact Hk|]. congruence.
    + exists o. split; [|apply obj_extends_refl].
      rewrite lookup_store_ne by exact Hne. now apply lookup_alloc_old.
  - eexists _, _. split; [|split].
    + apply lookup_namespace_at. apply lookup_store. rewrite length_app. cbn. lia.
    + cbn [with_ports _ports]. apply dict_get_set_eq.
    + apply lookup_namespace_at. rewrite lookup_store_ne by lia. apply lookup_alloc.
Qed.

(** The child is missing: it is created, then the call goes on from it. *)
Lemma create_port_namespace_absent self name kwargs st n :
  name <> EmptyString ->
  namespace_at (objs st) self = Some n ->
  dict_get (hd EmptyString (split NAMESPACE_SEPARATOR name)) (_ports n) = None ->
  (exists e, create_port_namespace self (VStr name) kwargs st = (Raise e, st))
  \/ (exists st',
        extends (objs st) (objs st') /\
        linked (objs st') self (hd EmptyString (split NAMESPACE_SEPARATOR name))
          (length (objs st)) /\
        create_port_namespace self (VStr name) kwargs st =
        match tl (split NAMESPACE_SEPARATOR name) with
        | [] => (Ok (length (objs st)), st')
        | _ :: _ =>
            create_port_namespace (length (objs st))
              (VStr (join NAMESPACE_SEPARATOR (tl (split NAMESPACE_SEPARATOR name))))
              kwargs st'
        end).
Proof.
  intros Hne Hn Hx.
  rewrite (create_port_namespace_step self name kwargs st n Hn Hne). cbv zeta.
  rewrite Hx. unfold dict_mem. rewrite Hx. cbn [negb].
  set (x := hd EmptyString (split NAMESPACE_SEPARATOR name)) in *.
  set (rest := tl (split NAMESPACE_SEPARATOR name)).
  assert (Hcases : forall kw,
    (exists e, (child <- PortNamespace_new (VStr x) kw ;;
                PortNamespace_setitem self x (VRef child)) st = (Raise e, st))
    \/ (exists st',
          (child <- PortNamespace_new (VStr x) kw ;;
           PortNamespace_setitem self x (VRef child)) st = (Ok tt, st') /\
          extends (objs st) (objs st') /\ linked (objs st') self x (length (objs st))))
    by (intros kw; now apply (create_child self x kw st n)).
  destruct rest as [|y ys] eqn:Er.
  - destruct (Hcases kwargs) as [(e & He)|(st' & He & Hext & Hl)].
    + left. exists e. unfold bind at 1. now rewrite He.
    + right. exists st'. split; [exact Hext|]. split; [exact Hl|].
      unfold bind at 1. rewrite He. destruct Hl as (m & m' & Hm & Hmx & _).
      unfold PortNamespace_getitem. run. now rewrite Hm, Hmx.
  - destruct (Hcases []) as [(e & He)|(st' & He & Hext & Hl)].
    + left. exists e. unfold bind at 1. now rewrite He.
    + right. exists st'. split; [exact Hext|]. split; [exact Hl|].
      unfold bind at 1. rewrite He. destruct Hl as (m & m' & Hm & Hmx & _).
      unfold PortNamespace_getitem. run. now rewrite Hm, Hmx.
Qed.

(** The segments after the first are the segments of the rest of the name. *)
Lemma split_tl c name x y ys :
  split c name = x :: y :: ys -> split c (join c (y :: ys)) = y :: ys.
Proof.
  revert x y ys. induction name as [|a s IHs]; intros x y ys Es.
  - discriminate.
  - cbn [split] in Es. destruct (Ascii.eqb a c).
    + injection Es as <- Es. rewrite <- Es. now rewrite join_split.
    + destruct (split c s) as [|x' xs'] eqn:E'; [discriminate|].
      injection Es as <- ->. now apply (IHs x' y ys).
Qed.

Lemma string_length_app (s t : string) :
  String.length (s ++ t)%string = String.length s + String.length t.
Proof. induction s as [|a s IH]; cbn; [reflexivity|]. now rewrite IH. Qed.

Lemma rest_shorter c name x y ys :
  split c name = x :: y :: ys ->
  String.length (join c (y :: ys)) < String.length name.
Proof.
  intros Es. pose proof (join_split c name) as J. rewrite Es, join_cons in J.
  rewrite <- J, string_length_app. cbn. lia.
Qed.

Lemma split_cons_not_empty c name x y ys :
  split c name = x :: y :: ys -> name <> EmptyString.
Proof. intros Es ->. discriminate. Qed.

(** Whatever its outcome, [create_port_namespace] only adds objects and
    children. *)
Lemma create_port_namespace_extends name :
  forall self kwargs st r st',
    create_port_namespace self (VStr name) kwargs st = (r, st') ->
    extends (objs st) (objs st').
Proof.
  remember (String.length name) as k eqn:Hk.
  revert name Hk. induction k as [k IH] using lt_wf_ind.
  intros name Hk self kwargs st r st' Hrun.
  destruct (namespace_at (objs st) self) as [n|] eqn:Hn.
  2:{ destruct (create_port_namespace_not_namespace self (VStr name) kwargs st Hn) as [e He].
      rewrite He in Hrun. injection Hrun as _ <-. apply extends_refl. }
  destruct (string_dec name EmptyString) as [->|Hne].
  { destruct (create_port_namespace_invalid_name self (VStr EmptyString) kwargs st) as [e He];
      [now left|].
    rewrite He in Hrun. injection Hrun as _ <-. apply extends_refl. }
  destruct (split NAMESPACE_SEPARATOR name) as [|x rest] eqn:Es;
    [now apply split_not_nil in Es|].
  destruct (dict_get x (_ports n)) as [port|] eqn:Hx.
  - destruct (namespace_at (objs st) port) as [n'|] eqn:Hp.
    + assert (Hl : linked (objs st) self (hd EmptyString (split NAMESPACE_SEPARATOR name)) port).
      { rewrite Es. exists n, n'. auto. }
      rewrite (create_port_namespace_present self name kwargs st port Hne Hl) in Hrun.
      rewrite Es in Hrun. cbn [tl] in Hrun. destruct rest as [|y ys].
      * injection Hrun as _ <-. apply extends_refl.
      * eapply (IH _ (eq_ind _ (fun m => _ < m) (rest_shorter _ _ _ _ _ Es) _ (eq_sym Hk)));
          [reflexivity|exact Hrun].
    + destruct (create_port_namespace_occupied self name kwargs st n port Hne Hn) as [e He];
        [now rewrite Es|exact Hp|].
      rewrite He in Hrun. injection Hrun as _ <-. apply extends_refl.
  - destruct (create_port_namespace_absent self name kwargs st n Hne Hn) as
      [(e & He)|(st2 & Hext & Hl & He)]; [now rewrite Es| |].
    + rewrite He in Hrun. injection Hrun as _ <-. apply extends_refl.
    + rewrite He, Es in Hrun. cbn [tl] in Hrun. destruct rest as [|y ys].
      * injection Hrun as _ <-. exact Hext.
      * eapply extends_trans; [exact Hext|].
        eapply (IH _ (eq_ind _ (fun m => _ < m) (rest_shorter _ _ _ _ _ Es) _ (eq_sym Hk)));
          [reflexivity|exact Hrun].
Qed.

(** A second call finds every node of the path in place. *)
Lemma create_port_namespace_again name :
  forall self kwargs st node st1,
    create_port_namespace self (VStr name) kwargs st = (Ok node, st1) ->
    forall kwargs', create_port_namespace self (VStr name) kwargs' st1 = (Ok node, st1).
Proof.
  remember (String.length name) as k eqn:Hk.
  revert name Hk. induction k as [k IH] using lt_wf_ind.
  intros name Hk self kwargs st node st1 Hrun kwargs'.
  destruct (namespace_at (objs st) self) as [n|] eqn:Hn.
  2:{ destruct (create_port_namespace_not_namespace self (VStr name) kwargs st Hn) as [e He].
      rewrite He in Hrun. discriminate. }
  destruct (string_dec name EmptyString) as [->|Hne].
  { destruct (create_port_namespace_invalid_name self (VStr EmptyString) kwargs st) as [e He];
      [now left|].
    rewrite He in Hrun. discriminate. }
  destruct (split NAMESPACE_SEPARATOR name) as [|x rest] eqn:Es;
    [now apply split_not_nil in Es|].
  (* after the first step, at some state [st2], [x] is a child namespace *)
  assert (Hmid : exists st2 port,
    linked (objs st2) self x port /\
    match rest with
    | [] => (Ok port, st2) = (Ok node, st1)
    | _ :: _ =>
        create_port_namespace port (VStr (join NAMESPACE_SEPARATOR rest)) kwargs st2
        = (Ok node, st1)
    end).
  { destruct (dict_get x (_ports n)) as [port|] eqn:Hx.
    - destruct (namespace_at (objs st) port) as [n'|] eqn:Hp.
      + assert (Hl : linked (objs st) self
                       (hd EmptyString (split NAMESPACE_SEPARATOR name)) port).
        { rewrite Es. exists n, n'. auto. }
        rewrite (create_port_namespace_present self name kwargs st port Hne Hl) in Hrun.
        rewrite Es in Hrun, Hl. cbn [tl hd] in Hrun, Hl.
        exists st, port. split; [exact Hl|]. destruct rest; exact Hrun.
      + destruct (create_port_namespace_occupied self name kwargs st n port Hne Hn)
          as [e He]; [now rewrite Es|exact Hp|].
        rewrite He in Hrun. discriminate.
    - destruct (create_port_namespace_absent self name kwargs st n Hne Hn) as
        [(e & He)|(st2 & Hext & Hl & He)]; [now rewrite Es| |].
      + rewrite He in Hrun. discriminate.
      + rewrite He, Es in Hrun. rewrite Es in Hl. cbn [tl hd] in Hrun, Hl.
        exists st2, (length (objs st)). split; [exact Hl|]. destruct rest; exact Hrun. }
  destruct Hmid as (st2 & port & Hl & Hrest).
  assert (Hl1 : linked (objs st1) self (hd EmptyString (split NAMESPACE_SEPARATOR name)) port).
  { rewrite Es. cbn [hd]. destruct rest as [|y ys].
    - injection Hrest as _ <-. exact Hl.
    - eapply extends_linked; [|exact Hl].
      eapply create_port_namespace_extends. exact Hrest. }
  rewrite (create_port_namespace_present self name kwargs' st1 port Hne Hl1).
  rewrite Es. cbn [tl]. destruct rest as [|y ys].
  - injection Hrest as <- _. reflexivity.
  - eapply (IH _ (eq_ind _ (fun m => _ < m) (rest_shorter _ _ _ _ _ Es) _ (eq_sym Hk)));
      [reflexivity|exact Hrest].
Qed.

(** A path that runs into a leaf: the call fails, and has created nothing. *)
Lemma create_port_namespace_leaf_on_path kwargs st path :
  forall self name x rest q nq leaf,
    split NAMESPACE_SEPARATOR name = path ++ x :: rest ->
    walk (objs st) self path = Some q ->
    namespace_at (objs st) q = Some nq ->
    dict_get x (_ports nq) = Some leaf ->
    namespace_at (objs st) leaf = None ->
    exists e, create_port_namespace self (VStr name) kwargs st = (Raise e, st).
Proof.
  induction path as [|p0 path IH]; intros self name x rest q nq leaf Es Hw Hq Hx Hleaf.
  - cbn in Hw. injection Hw as <-. cbn [app] in Es.
    destruct (string_dec name EmptyString) as [->|Hne].
    { apply create_port_namespace_invalid_name. now left. }
    apply (create_port_namespace_occupied self name kwargs st nq leaf Hne Hq);
      [now rewrite Es|exact Hleaf].
  - cbn [walk] in Hw. cbn [app] in Es.
    destruct (namespace_at (objs st) self) as [n|] eqn:Hn; [|discriminate].
    destruct (dict_get p0 (_ports n)) as [c|] eqn:Hp0; [|discriminate].
    assert (Hc : exists nc, namespace_at (objs st) c = Some nc).
    { destruct path as [|p1 path'].
      - cbn in Hw. injection Hw as ->. eauto.
      - cbn [walk] in Hw. destruct (namespace_at (objs st) c); [eauto|discriminate]. }
    destruct Hc as [nc Hc].
    destruct (path ++ x :: rest) as [|y ys] eqn:Et; [now destruct path|].
    pose proof (split_cons_not_empty _ _ _ _ _ Es) as Hne.
    assert (Hl : linked (objs st) self (hd EmptyString (split NAMESPACE_SEPARATOR name)) c).
    { rewrite Es. exists n, nc. auto. }
    rewrite (create_port_namespace_present self name kwargs st c Hne Hl).
    rewrite Es. cbn [tl].
    apply (IH c _ x rest q nq leaf); try assumption.
    rewrite (split_tl _ _ _ _ _ Es). now rewrite Et.
Qed.

(** C6: when [create_port_namespace] has returned a node, calling it again
    with the same path returns the same node and changes nothing at all,
    whatever schema arguments the second call carries.  When a segment of
    the path is occupied by a port that is not a namespace, the call
    raises. *)
Theorem create_port_namespace_idempotent (self : loc) (name : string)
  (kwargs : dict val) (st : state) :
  (forall node st1,
      create_port_namespace self (VStr name) kwargs st = (Ok node, st1) ->
      forall kwargs',
        create_port_namespace self (VStr name) kwargs' st1 = (Ok node, st1))
  /\ (forall path x rest q nq leaf c s d,
        split NAMESPACE_SEPARATOR name = path ++ x :: rest ->
        walk (objs st) self path = Some q ->
        namespace_at (objs st) q = Some nq ->
        dict_get x (_ports nq) = Some leaf ->
        objs st !! leaf = Some (OLeaf c s d) ->
        exists e, create_port_namespace self (VStr name) kwargs st = (Raise e, st)).
Proof.
  split.
  - apply create_port_namespace_again.
  - intros path x rest q nq leaf c s d Es Hw Hq Hx Hleaf.
    apply (create_port_namespace_leaf_on_path kwargs st path self name x rest q nq leaf);
      try assumption.
    unfold namespace_at. now rewrite Hleaf.
Qed.

(** ** Frames: what a computation leaves alone *)

Lemma keeps_refl k h : keeps k h h.
Proof. split; auto. Qed.

Lemma keeps_trans k h1 h2 h3 : keeps k h1 h2 -> keeps k h2 h3 -> keeps k h1 h3.
Proof.
  intros [L12 H12] [L23 H23]. split; [lia|].
  intros l Hl. rewrite H23, H12; auto.
Qed.

Lemma frame_ret {A} k (a : A) : frame k (ret a).
Proof. intros st _. apply keeps_refl. Qed.

Lemma frame_raise {A} k e : frame k (@raise A e).
Proof. intros st _. apply keeps_refl. Qed.

Lemma frame_out_of_fuel {A} k : frame k (@out_of_fuel A).
Proof. intros st _. apply keeps_refl. Qed.

Lemma frame_lift {A} k (r : res A) : frame k (lift r).
Proof. intros st _. apply keeps_refl. Qed.

Lemma frame_reader {A} k (m : M A) : heap_reader m -> frame k m.
Proof. intros Hm st _. destruct (Hm st) as (-> & _). apply keeps_refl. Qed.

Lemma frame_bind {A B} k (m : M A) (f : A -> M B) :
  frame k m -> (forall a, frame k (f a)) -> frame k (bind m f).
Proof.
  intros Hm Hf st Hk. unfold bind. specialize (Hm st Hk).
  destruct (m st) as [[a| |] st1]; cbn [snd] in *; try exact Hm.
  eapply keeps_trans; [exact Hm|]. apply Hf. destruct Hm. lia.
Qed.

Lemma frame_get_heap_bind {B} k (f : heap -> M B) :
  (forall h, frame k (f h)) -> frame k (bind get_heap f).
Proof. intros Hf st Hk. unfold bind, get_heap. now apply Hf. Qed.

(** A new object lies beyond the first [k]. *)
Lemma frame_alloc_bind {B} k o (f : loc -> M B) :
  (forall l, k <= l -> frame k (f l)) -> frame k (bind (alloc o) f).
Proof.
  intros Hf st Hk. rewrite bind_alloc.
  eapply keeps_trans; [|apply Hf; [exact Hk|cbn; rewrite length_app; lia]].
  cbn [objs]. split; [rewrite length_app; lia|].
  intros l Hl. apply lookup_app_l. lia.
Qed.

Lemma frame_store k (l : loc) o : k <= l -> frame k (store l o).
Proof.
  intros Hl st Hk. unfold store. cbn [snd objs]. split.
  - apply Nat.eq_le_incl. symmetry. apply length_insert.
  - intros l' Hl'. apply lookup_store_ne. lia.
Qed.

(** One step of a proof that a computation leaves the first objects alone *)
Ltac frame_step :=
  lazymatch goal with
  | |- frame _ (bind get_heap _) => apply frame_get_heap_bind; intros ?
  | |- frame _ (bind (alloc _) _) => apply frame_alloc_bind; intros ? ?
  | |- frame _ (bind _ _) => apply frame_bind; [|intros ?]
  | |- frame _ (ret _) => apply frame_ret
  | |- frame _ (raise _) => apply frame_raise
  | |- frame _ out_of_fuel => apply frame_out_of_fuel
  | |- frame _ (lift _) => apply frame_lift
  | |- frame _ (store _ _) => apply frame_store; try assumption
  | |- frame _ (note_validate _) => apply frame_reader, reader_note
  | |- frame _ (call_value _ _) => apply frame_reader, reader_call
  | |- frame _ (spec_of _) => apply frame_reader, reader_spec_of
  | |- frame _ (namespace_of _) => apply frame_reader, reader_namespace_of
  | |- frame _ (if ?b then _ else _) => destruct b
  | |- frame _ (match ?x with _ => _ end) => destruct x
  | |- frame _ (let '(_, _) := ?x in _) => destruct x
  end.

(** ** deepcopy *)

Lemma frame_copy_values k copy :
  (forall v m, frame k (copy v m)) -> forall vs m, frame k (copy_values copy vs m).
Proof.
  intros Hc vs. induction vs as [|x vs IH]; intros m; cbn [copy_values].
  - frame_step.
  - frame_step; [apply Hc|]. frame_step; [apply IH|]. frame_step.
Qed.

Lemma frame_copy_items k copy :
  (forall v m, frame k (copy v m)) -> forall d m, frame k (copy_items copy d m).
Proof.
  intros Hc d. induction d as [|[key x] d IH]; intros m; cbn [copy_items].
  - frame_step.
  - frame_step; [apply Hc|]. frame_step; [apply IH|]. frame_step.
Qed.

Lemma frame_copy_ports k copy :
  (forall v m, frame k (copy v m)) -> forall d m, frame k (copy_ports copy d m).
Proof.
  intros Hc d. induction d as [|[key c] d IH]; intros m; cbn [copy_ports].
  - frame_step.
  - frame_step; [apply Hc|]. destruct (fst a); try apply frame_raise.
    frame_step; [apply IH|]. frame_step.
Qed.

Lemma frame_copy_spec k copy :
  (forall v m, frame k (copy v m)) -> forall s m, frame k (copy_spec copy s m).
Proof.
  intros Hc s m. unfold copy_spec.
  repeat (frame_step; [apply Hc|]). frame_step.
Qed.

(** A deep copy leaves every object that was there as it is. *)
Lemma frame_deepcopy k fuel : forall v m, frame k (deepcopy fuel v m).
Proof.
  induction fuel as [|fuel IH]; intros v m; cbn [deepcopy]; [frame_step|].
  pose proof (frame_copy_values k _ IH) as Hvalues.
  pose proof (frame_copy_items k _ IH) as Hitems.
  pose proof (frame_copy_ports k _ IH) as Hports.
  pose proof (frame_copy_spec k _ IH) as Hspec.
  destruct v; try apply frame_ret.
  - frame_step; [apply Hvalues|]. frame_step.
  - frame_step; [apply Hvalues|]. frame_step.
  - destruct (memo_get l m); [apply frame_ret|].
    frame_step. destruct (h !! l) as [o|]; [|apply frame_raise].
    frame_step. cbv zeta. destruct o as [c s [d|]|n|d].
    + frame_step; [apply Hspec|]. frame_step; [apply IH|].
      frame_step; frame_step.
    + frame_step; [apply Hspec|]. frame_step; frame_step.
    + frame_step; [apply Hspec|]. frame_step; [apply Hports|].
      frame_step; [apply IH|]. frame_step; [apply IH|].
      frame_step; frame_step.
    + frame_step; [apply Hitems|]. frame_step; frame_step.
Qed.

(** ** absorb *)

Lemma dict_get_remove_ne {A} k k' (d : dict A) :
  k' <> k -> dict_get k' (dict_remove k d) = dict_get k' d.
Proof.
  intros Hne. induction d as [|[k0 v0] d IH]; cbn; [reflexivity|].
  destruct (String.eqb k k0) eqn:E; cbn.
  - apply String.eqb_eq in E as <-.
    destruct (String.eqb k' k) eqn:E'; [apply String.eqb_eq in E'; congruence|reflexivity].
  - now rewrite IH.
Qed.

Lemma state_eta st : {| objs := objs st; logged := logged st; validated := validated st |} = st.
Proof. now destruct st. Qed.

Lemma with_object_same st (l : loc) o : objs st !! l = Some o -> with_object st l o = st.
Proof.
  intros H. unfold with_object.
  replace (<[l := o]> (objs st)) with (objs st); [apply state_eta|].
  symmetry. apply list_insert_id. exact H.
Qed.

Lemma with_object_twice st (l : loc) o o' :
  with_object (with_object st l o) l o' = with_object st l o'.
Proof.
  unfold with_object. cbn [objs logged validated]. f_equal.
  apply list_insert_insert_eq.
Qed.

Lemma namespace_at_with_object st (l : loc) n :
  l < length (objs st) -> namespace_at (objs (with_object st l (ONamespace n))) l = Some n.
Proof. intros H. apply lookup_namespace_at. now apply lookup_store. Qed.

Lemma namespace_at_with_object_ne st (l l' : loc) o :
  l <> l' -> namespace_at (objs (with_object st l o)) l' = namespace_at (objs st) l'.
Proof.
  intros H. unfold namespace_at, with_object. cbn [objs].
  now rewrite lookup_store_ne.
Qed.

Lemma namespace_at_lt (h : heap) (l : loc) n : namespace_at h l = Some n -> l < length h.
Proof. intros H. exact (lookup_lt_Some _ _ _ (namespace_at_lookup _ _ _ H)). Qed.

Lemma setattr_run self attr v st n :
  namespace_at (objs st) self = Some n ->
  setattr self attr v st = (Ok tt, with_object st self (ONamespace (set_property n attr v))).
Proof. intros Hn. unfold setattr. run. now rewrite Hn. Qed.

Lemma dict_remove_absent {A} k (d : dict A) : dict_get k d = None -> dict_remove k d = d.
Proof.
  induction d as [|[k0 v0] d IH]; cbn; [reflexivity|].
  destruct (String.eqb k k0); [discriminate|]. intros H. now rewrite IH.
Qed.

(** The loop over the properties writes to [self] what [absorbed] says. *)
Lemma absorb_properties_run self other attrs :
  forall st n o namespace_options,
    namespace_at (objs st) self = Some n ->
    namespace_at (objs st) other = Some o ->
    absorb_properties self other attrs namespace_options st =
    (Ok (snd (absorbed (Nat.eqb self other) n o attrs namespace_options)),
     with_object st self
       (ONamespace (fst (absorbed (Nat.eqb self other) n o attrs namespace_options)))).
Proof.
  induction attrs as [|attr attrs IH]; intros st n o opts Hn Ho.
  - cbn. rewrite with_object_same; [reflexivity|]. now apply namespace_at_lookup.
  - cbn [absorb_properties absorbed].
    pose proof (namespace_at_lt _ _ _ Hn) as Hlt.
    assert (Hstep : forall v opts',
      (setattr self attr v ;;; absorb_properties self other attrs opts') st =
      (Ok (snd (absorbed (Nat.eqb self other) (set_property n attr v)
                  (if Nat.eqb self other then set_property n attr v else o) attrs opts')),
       with_object st self
         (ONamespace (fst (absorbed (Nat.eqb self other) (set_property n attr v)
                  (if Nat.eqb self other then set_property n attr v else o) attrs opts'))))).
    { intros v opts'. unfold bind at 1. rewrite (setattr_run self attr v st n Hn).
      rewrite (IH _ (set_property n attr v)
                 (if Nat.eqb self other then set_property n attr v else o)).
      - now rewrite with_object_twice.
      - now apply namespace_at_with_object.
      - destruct (Nat.eqb self other) eqn:E.
        + apply Nat.eqb_eq in E as <-. now apply namespace_at_with_object.
        + apply Nat.eqb_neq in E. now rewrite namespace_at_with_object_ne. }
    unfold absorbed_value.
    destruct (dict_get attr opts) as [v|] eqn:Hv.
    + apply Hstep.
    + unfold bind at 1. unfold namespace_of. rewrite Ho.
      rewrite (dict_remove_absent _ _ Hv). apply Hstep.
Qed.

(** What the loop makes of the attributes of [self] *)
Lemma absorbed_mutable_properties alias n o namespace_options :
  (alias = true -> o = n) ->
  let n' := fst (absorbed alias n o mutable_properties namespace_options) in
  _ports n' = _ports n
  /\ _name (ns_spec n') = _name (ns_spec n)
  /\ ns_default n' = absorbed_value namespace_options o "default"
  /\ _help (ns_spec n') = absorbed_value namespace_options o "help"
  /\ _required (ns_spec n') = absorbed_value namespace_options o "required"
  /\ _valid_type (ns_spec n') = absorbed_value namespace_options o "valid_type"
  /\ _validator (ns_spec n') = absorbed_value namespace_options o "validator"
  /\ _dynamic n' = VBool (negb (is_None (_valid_type (ns_spec n')))).
Proof.
  intros Halias. unfold mutable_properties. cbn [absorbed]. unfold absorbed_value.
  repeat match goal with
  | |- context [dict_get ?a (dict_remove ?b ?d)] =>
      rewrite (dict_get_remove_ne b a d) by discriminate
  end.
  destruct alias; [rewrite (Halias eq_refl)|]; cbn;
    (repeat split; try reflexivity);
    (destruct (dict_get "valid_type" namespace_options) as [v|];
     [destruct v | match goal with |- context [is_None ?x] => destruct x end];
     reflexivity).
Qed.

Lemma type_namespace (h : heap) (l : loc) :
  issubclass (type_of h (VRef l)) TPortNamespace = true ->
  exists n, namespace_at h l = Some n.
Proof.
  unfold type_of, namespace_at.
  destruct (h !! l) as [[c s d|n|d]|]; try discriminate; eauto.
  destruct c; discriminate.
Qed.

Lemma type_not_namespace (h : heap) (l : loc) :
  issubclass (type_of h (VRef l)) TPortNamespace = false -> namespace_at h l = None.
Proof.
  unfold type_of, namespace_at.
  destruct (h !! l) as [[c s d|n|d]|]; try reflexivity. discriminate.
Qed.

(** [absorb], up to its second loop *)
Lemma absorb_run fuel self other exclude include namespace_options st n o :
  namespace_at (objs st) self = Some n ->
  namespace_at (objs st) other = Some o ->
  let n' := fst (absorbed (Nat.eqb self other) n o mutable_properties namespace_options) in
  let st1 := with_object st self (ONamespace n') in
  exists o1,
    namespace_at (objs st1) other = Some o1 /\
    absorb fuel self (VRef other) exclude include namespace_options st =
    match snd (absorbed (Nat.eqb self other) n o mutable_properties namespace_options) with
    | k :: ks =>
        (Raise (ValueError (format (objs st)
           "the namespace_options {}, is not a supported PortNamespace property"
           [VStr (String.concat ", " (map fst (k :: ks)))])), st1)
    | [] =>
        match _filter_ports (_ports o1) exclude include with
        | Ok items => absorb_ports fuel self items st1
        | Raise e => (Raise e, st1)
        | NoFuel => (NoFuel, st1)
        end
    end.
Proof.
  intros Hn Ho n' st1.
  assert (Ho1 : exists o1, namespace_at (objs st1) other = Some o1).
  { subst st1. destruct (Nat.eq_dec self other) as [<-|Hne].
    - rewrite namespace_at_with_object; [eauto|]. eapply namespace_at_lt; eassumption.
    - rewrite namespace_at_with_object_ne by exact Hne. eauto. }
  destruct Ho1 as [o1 Ho1]. exists o1. split; [exact Ho1|].
  unfold absorb. unfold bind at 1. unfold namespace_of at 1. rewrite Hn.
  unfold bind at 1. unfold get_heap at 1.
  rewrite (namespace_at_type _ _ _ Ho). cbn [issubclass pytype_eqb orb].
  unfold bind at 1. rewrite (absorb_properties_run self other _ st n o _ Hn Ho).
  fold n'. fold st1.
  destruct (snd (absorbed (Nat.eqb self other) n o mutable_properties namespace_options));
    [|reflexivity].
  unfold bind at 1. unfold namespace_of at 1. rewrite Ho1.
  unfold bind at 1. unfold lift.
  destruct (_filter_ports (_ports o1) exclude include); reflexivity.
Qed.

(** [absorb] fails unless it is applied to two namespaces, and then it has
    changed nothing. *)
Lemma absorb_not_namespaces fuel self port_namespace exclude include namespace_options st :
  namespace_at (objs st) self = None \/
  (forall other n, port_namespace = VRef other -> namespace_at (objs st) other <> Some n) ->
  exists e,
    absorb fuel self port_namespace exclude include namespace_options st = (Raise e, st).
Proof.
  intros H. unfold absorb. unfold bind at 1. unfold namespace_of at 1.
  destruct (namespace_at (objs st) self) as [n|] eqn:Hn; [|eexists; reflexivity].
  destruct H as [H|H]; [discriminate|].
  unfold bind at 1. unfold get_heap at 1.
  destruct port_namespace as [| | | | | | | |other]; try (eexists; reflexivity).
  destruct (issubclass (type_of (objs st) (VRef other)) TPortNamespace) eqn:E;
    [|eexists; reflexivity].
  apply type_namespace in E as [o Ho]. now destruct (H other o eq_refl).
Qed.

Lemma filter_ports_both items x exclude include :
  exists e, _filter_ports items (x :: exclude) (Some include) = Raise e.
Proof. eexists. reflexivity. Qed.

(** The second loop gives [self] new children and nothing else. *)
Lemma absorb_ports_properties fuel self items :
  forall st r st' n,
    namespace_at (objs st) self = Some n ->
    absorb_ports fuel self items st = (r, st') ->
    exists n',
      namespace_at (objs st') self = Some n' /\
      ns_spec n' = ns_spec n /\ ns_default n' = ns_default n /\ _dynamic n' = _dynamic n.
Proof.
  induction items as [|[port_name port] items IH]; intros st r st' n Hn Hrun.
  - cbn in Hrun. injection Hrun as _ <-. eauto.
  - cbn [absorb_ports] in Hrun. unfold bind at 1 in Hrun.
    pose proof (namespace_at_lt _ _ _ Hn) as Hlt.
    pose proof (frame_deepcopy (S self) fuel (VRef port) [] st Hlt) as [Hlen Hkeep].
    destruct (deepcopy fuel (VRef port) [] st) as [rc st1]. cbn [snd] in *.
    assert (Hn1 : namespace_at (objs st1) self = Some n).
    { unfold namespace_at in *. rewrite Hkeep by lia. exact Hn. }
    destruct rc as [c| |]; try (injection Hrun as _ <-; eauto).
    unfold bind at 1 in Hrun.
    assert (Hset : (exists e, PortNamespace_setitem self port_name (fst c) st1 = (Raise e, st1))
                   \/ (exists ports,
                         PortNamespace_setitem self port_name (fst c) st1 =
                         (Ok tt, with_object st1 self (ONamespace (with_ports n ports))))).
    { unfold PortNamespace_setitem. run.
      destruct (fst c); try (left; eexists; reflexivity).
      destruct (issubclass _ _); [|left; eexists; reflexivity].
      right. rewrite Hn1. eexists. reflexivity. }
    destruct Hset as [(e & He)|(ports & He)]; rewrite He in Hrun.
    + injection Hrun as _ <-. eauto.
    + unfold bind at 1 in Hrun.
      destruct (absorb_ports fuel self items _) as [r2 st2] eqn:E2.
      apply IH with (n := with_ports n ports) in E2.
      2:{ apply namespace_at_with_object. lia. }
      destruct E2 as (n' & Hn' & Hs & Hd & Hy).
      assert (st' = st2) by (destruct r2; now injection Hrun). subst st2.
      exists n'. auto.
Qed.


(** C10: after a successful [absorb], [self] has the [valid_type] of
    [namespace_options] if it holds one, that of the other namespace
    otherwise, and its [dynamic] flag says whether that [valid_type] is
    not [None] -- whatever [namespace_options] says about [dynamic] and
    whatever the flag of the other namespace is. *)
Theorem absorb_dynamic fuel self port_namespace exclude include namespace_options
  st absorbed_ports st' :
  absorb fuel self port_namespace exclude include namespace_options st
    = (Ok absorbed_ports, st') ->
  exists other o n',
    port_namespace = VRef other /\
    namespace_at (objs st) other = Some o /\
    namespace_at (objs st') self = Some n' /\
    _valid_type (ns_spec n') =
      match dict_get "valid_type" namespace_options with
      | Some valid_type => valid_type
      | None => _valid_type (ns_spec o)
      end /\
    _dynamic n' = VBool (negb (is_None (_valid_type (ns_spec n')))).
Proof.
  intros Hrun.
  destruct (namespace_at (objs st) self) as [n|] eqn:Hn.
  2:{ destruct (absorb_not_namespaces fuel self port_namespace exclude include
                  namespace_options st) as [e He]; [now left|].
      rewrite He in Hrun. discriminate. }
  assert (Hother : exists other o, port_namespace = VRef other /\
                     namespace_at (objs st) other = Some o).
  { assert (Hno : (forall other o, port_namespace = VRef other ->
                       namespace_at (objs st) other <> Some o) -> False).
    { intros Hnone.
      destruct (absorb_not_namespaces fuel self port_namespace exclude include
                  namespace_options st (or_intror Hnone)) as [e He].
      rewrite He in Hrun. discriminate. }
    destruct port_namespace as [| | | | | | | |other];
      try (exfalso; apply Hno; discriminate).
    destruct (namespace_at (objs st) other) as [o|] eqn:Ho; [eauto|].
    exfalso. apply Hno. intros other' o' [= <-]. rewrite Ho. discriminate. }
  destruct Hother as (other & o & -> & Ho).
  exists other, o.
  destruct (absorb_run fuel self other exclude include namespace_options st n o Hn Ho)
    as (o1 & _ & Hrun').
  rewrite Hrun' in Hrun. clear Hrun'.
  assert (Halias : Nat.eqb self other = true -> o = n).
  { intros E. apply Nat.eqb_eq in E as <-. congruence. }
  destruct (absorbed_mutable_properties (Nat.eqb self other) n o namespace_options Halias)
    as (_ & _ & _ & _ & _ & Hvt & _ & Hdyn).
  set (n1 := fst (absorbed (Nat.eqb self other) n o mutable_properties
                    namespace_options)) in *.
  destruct (snd (absorbed _ n o mutable_properties namespace_options)); [|discriminate].
  destruct (_filter_ports (_ports o1) exclude include) as [items| |]; try discriminate.
  pose proof (namespace_at_lt _ _ _ Hn) as Hlt.
  destruct (absorb_ports_properties fuel self items _ _ _ n1
              (namespace_at_with_object st self n1 Hlt) Hrun)
    as (n' & Hn' & Hs & _ & Hy).
  exists n'. split; [reflexivity|]. split; [exact Ho|]. split; [exact Hn'|].
  rewrite Hs, Hy. split; [exact Hvt|exact Hdyn].
Qed.

(** ** validate *)

Lemma frame_items_of k v : frame k (items_of v).
Proof. unfold items_of. repeat frame_step. Qed.

Lemma frame_to_dict k v : frame k (to_dict v).
Proof. unfold to_dict. repeat frame_step. Qed.

Lemma frame_dict_pop k (d : loc) key default : k <= d -> frame k (dict_pop d key default).
Proof. intros Hd. unfold dict_pop. repeat frame_step. Qed.

Lemma frame_validate_ports k validate self (port_values : loc) :
  (forall port v, frame k (validate port v)) ->
  k <= port_values ->
  frame k (validate_ports validate self port_values).
Proof.
  intros Hv Hd. unfold validate_ports. frame_step; [frame_step|].
  generalize (VBool true) VNone.
  induction (_ports a) as [|[name port] ports IH]; intros is_valid message.
  - frame_step.
  - frame_step; [now apply frame_dict_pop|].
    frame_step; [apply Hv|]. frame_step. frame_step; [frame_step|].
    frame_step; [frame_step|apply IH].
Qed.

Lemma frame_validate_dynamic_ports k self (port_values : loc) :
  frame k (validate_dynamic_ports self port_values).
Proof.
  unfold validate_dynamic_ports. frame_step; [frame_step|]. frame_step.
  frame_step; [frame_step|]. frame_step; [|frame_step].
  frame_step; [apply frame_items_of|].
  induction a0 as [|[port_name port_value] items IH]; [frame_step|].
  frame_step; [frame_step|]. frame_step; [frame_step|apply IH].
Qed.

Lemma frame_PortNamespace_validate k validate self port_values :
  (forall port v, frame k (validate port v)) ->
  frame k (PortNamespace_validate validate self port_values).
Proof.
  intros Hv. unfold PortNamespace_validate.
  frame_step; [frame_step|]. frame_step; [frame_step|].
  frame_step.
  { destruct (is_None port_values); [frame_step|apply frame_to_dict]. }
  frame_step. rename H into Hd.
  frame_step.
  { destruct (negb (is_None (_validator (ns_spec a0)))); [|frame_step].
    repeat frame_step. }
  destruct a2 as [r|[is_valid message]]; [frame_step|].
  frame_step. frame_step; [frame_step|].
  frame_step; [now apply frame_validate_ports|].
  frame_step. frame_step; [frame_step|].
  frame_step; [frame_step|].
  frame_step; [apply frame_validate_dynamic_ports|].
  repeat frame_step.
Qed.

(** [validate] leaves every object that was there as it is. *)
Lemma frame_validate k fuel : forall port v, frame k (validate fuel port v).
Proof.
  induction fuel as [|fuel IH]; intros port v; cbn [validate]; [frame_step|].
  frame_step. destruct (h !! port) as [[c s d|n|d]|]; try frame_step.
  - apply frame_reader, reader_ValueSpec_validate.
  - now apply frame_PortNamespace_validate.
Qed.

(** C8: [validate] never modifies the caller's mapping.  Every object
    that exists when [validate] is called, the mapping among them, is the
    same afterwards, whatever the outcome: [validate] pops the matched
    keys from a copy that it made for itself. *)
Theorem validate_leaves_values_alone fuel (self : loc) (port_values : val) st
  (l : loc) (o : obj) :
  objs st !! l = Some o ->
  objs (snd (validate fuel self port_values st)) !! l = Some o.
Proof.
  intros Hl.
  destruct (frame_validate (length (objs st)) fuel self port_values st (Nat.le_refl _))
    as [_ Hkeep].
  rewrite Hkeep; [exact Hl|]. eapply lookup_lt_Some. exact Hl.
Qed.




(** ** The namespace as a container *)

Lemma dict_set_length {A} k (v : A) d :
  length (dict_set k v d) = if dict_mem k d then length d else S (length d).
Proof.
  unfold dict_mem. induction d as [|[k' v'] d IH]; cbn; [reflexivity|].
  destruct (String.eqb k k'); cbn; [reflexivity|].
  rewrite IH. now destruct (dict_get k d).
Qed.

Lemma dict_remove_set_fresh {A} k (v : A) d :
  dict_get k d = None -> dict_remove k (dict_set k v d) = d.
Proof.
  induction d as [|[k' v'] d IH]; cbn.
  - now rewrite String.eqb_refl.
  - destruct (String.eqb k k') eqn:E; [discriminate|]. cbn. rewrite E.
    intros H. now rewrite IH.
Qed.

Lemma dict_get_not_in {A} k (d : dict A) :
  ~ In k (map fst d) -> dict_get k d = None.
Proof.
  induction d as [|[k' v'] d IH]; cbn; [reflexivity|]. intros H.
  destruct (String.eqb k k') eqn:E.
  - apply String.eqb_eq in E. subst. tauto.
  - apply IH. tauto.
Qed.

Lemma dict_get_remove_eq {A} k (d : dict A) :
  List.NoDup (map fst d) -> dict_get k (dict_remove k d) = None.
Proof.
  induction d as [|[k' v'] d IH]; cbn; [reflexivity|]. intros H.
  apply NoDup_cons_iff in H as [Hk' Hd].
  destruct (String.eqb k k') eqn:E.
  - apply String.eqb_eq in E. subst. now apply dict_get_not_in.
  - cbn. rewrite E. now apply IH.
Qed.

Lemma dict_remove_length {A} k (d : dict A) :
  dict_mem k d = true -> S (length (dict_remove k d)) = length d.
Proof.
  unfold dict_mem. induction d as [|[k' v'] d IH]; cbn; [discriminate|].
  destruct (String.eqb k k'); [reflexivity|]. cbn. intros H. now rewrite IH.
Qed.

Lemma type_port_is_ref (h : heap) (port : val) :
  issubclass (type_of h port) TPort = true -> exists p : loc, port = VRef p.
Proof. destruct port; cbn; try discriminate. eauto. Qed.

(** Assigning a child and reading it back.  [self[key] = port] needs a
    [Port]: then [self[key]] is that very object, every other key reads as
    before, the length has grown by one exactly if the key is new, and no
    object but [self] has changed.  Anything that is not a [Port] is
    refused with a [TypeError], and nothing has changed. *)
Theorem setitem_getitem (self : loc) (key : string) (port : val) (st : state)
  (n : PortNamespace) :
  namespace_at (objs st) self = Some n ->
  if issubclass (type_of (objs st) port) TPort then
    exists (p : loc) st',
      port = VRef p
      /\ PortNamespace_setitem self key port st = (Ok tt, st')
      /\ PortNamespace_getitem self key st' = (Ok p, st')
      /\ (forall key', key' <> key ->
            fst (PortNamespace_getitem self key' st')
            = fst (PortNamespace_getitem self key' st))
      /\ fst (PortNamespace_len self st')
         = Ok (if dict_mem key (_ports n) then length (_ports n)
               else S (length (_ports n)))
      /\ (forall l : loc, l <> self -> objs st' !! l = objs st !! l)
  else
    exists msg, PortNamespace_setitem self key port st = (Raise (TypeError msg), st).
Proof.
  intros Hn. pose proof (namespace_at_lt _ _ _ Hn) as Hlt.
  destruct (issubclass (type_of (objs st) port) TPort) eqn:Ht.
  - destruct (type_port_is_ref _ _ Ht) as [p ->].
    exists p, (with_object st self (ONamespace (with_ports n (dict_set key p (_ports n))))).
    split; [reflexivity|].
    assert (Hn' : namespace_at
                    (objs (with_object st self
                             (ONamespace (with_ports n (dict_set key p (_ports n)))))) self
                  = Some (with_ports n (dict_set key p (_ports n))))
      by now apply namespace_at_with_object.
    split; [|split; [|split; [|split]]].
    + unfold PortNamespace_setitem. run. rewrite Ht, Hn. reflexivity.
    + unfold PortNamespace_getitem. run. rewrite Hn'. cbn [with_ports _ports].
      now rewrite dict_get_set_eq.
    + intros key' Hne. unfold PortNamespace_getitem. run. rewrite Hn', Hn.
      cbn [with_ports _ports]. rewrite dict_get_set_ne by exact Hne.
      destruct (dict_get key' (_ports n)); reflexivity.
    + unfold PortNamespace_len. run. rewrite Hn'. cbn [with_ports _ports fst].
      now rewrite dict_set_length.
    + intros l Hl. apply lookup_store_ne. congruence.
  - unfold PortNamespace_setitem. run.
    destruct port; try (eexists; reflexivity). rewrite Ht. eexists; reflexivity.
Qed.

(** Deleting a child.  [del self[key]] of a key that is there removes it:
    the key is no longer in the namespace, every other key reads as
    before, and the length is one less.  Of a key that is not there it is a
    [KeyError], and nothing has changed.  Deleting a key that was newly
    assigned gives the children back as they were. *)
Theorem delitem_removes (self : loc) (key : string) (st : state) (n : PortNamespace) :
  namespace_at (objs st) self = Some n ->
  List.NoDup (map fst (_ports n)) ->
  (dict_mem key (_ports n) = true ->
   exists st',
     PortNamespace_delitem self key st = (Ok tt, st')
     /\ PortNamespace_contains self key st' = (Ok false, st')
     /\ (forall key', key' <> key ->
           fst (PortNamespace_getitem self key' st')
           = fst (PortNamespace_getitem self key' st))
     /\ (exists k, fst (PortNamespace_len self st') = Ok k /\ S k = length (_ports n)))
  /\ (dict_mem key (_ports n) = false ->
      PortNamespace_delitem self key st = (Raise (KeyError key), st)
      /\ forall (p : loc) st1,
           PortNamespace_setitem self key (VRef p) st = (Ok tt, st1) ->
           exists st2,
             PortNamespace_delitem self key st1 = (Ok tt, st2)
             /\ namespace_at (objs st2) self = Some n).
Proof.
  intros Hn Hnd. pose proof (namespace_at_lt _ _ _ Hn) as Hlt. split.
  - intros Hmem.
    exists (with_object st self (ONamespace (with_ports n (dict_remove key (_ports n))))).
    assert (Hn' : namespace_at
                    (objs (with_object st self
                             (ONamespace (with_ports n (dict_remove key (_ports n)))))) self
                  = Some (with_ports n (dict_remove key (_ports n))))
      by now apply namespace_at_with_object.
    split; [|split; [|split]].
    + unfold PortNamespace_delitem. run. rewrite Hn, Hmem. reflexivity.
    + unfold PortNamespace_contains. run. rewrite Hn'. cbn [with_ports _ports].
      unfold dict_mem. now rewrite dict_get_remove_eq.
    + intros key' Hne. unfold PortNamespace_getitem. run. rewrite Hn', Hn.
      cbn [with_ports _ports]. rewrite dict_get_remove_ne by exact Hne.
      destruct (dict_get key' (_ports n)); reflexivity.
    + eexists. split.
      * unfold PortNamespace_len. run. rewrite Hn'. reflexivity.
      * cbn [with_ports _ports]. now apply dict_remove_length.
  - intros Hmem. split.
    + unfold PortNamespace_delitem. run. rewrite Hn, Hmem. reflexivity.
    + intros p st1 Hset. unfold PortNamespace_setitem in Hset. run.
      destruct (issubclass _ _); [|discriminate]. rewrite Hn in Hset.
      injection Hset as <-.
      change {| objs := <[self:=ONamespace (with_ports n (dict_set key p (_ports n)))]> (objs st);
                logged := logged st; validated := validated st |}
        with (with_object st self (ONamespace (with_ports n (dict_set key p (_ports n))))).
      eexists. split.
      * unfold PortNamespace_delitem. run.
        rewrite namespace_at_with_object by exact Hlt. cbn [with_ports _ports].
        unfold dict_mem. rewrite dict_get_set_eq. reflexivity.
      * change {| objs := <[self:=?o]> (objs ?s); logged := logged ?s;
                  validated := validated ?s |} with (with_object s self o).
        rewrite with_object_twice. cbn [with_ports _ports ns_spec ns_default _dynamic].
        rewrite dict_remove_set_fresh.
        -- assert (E : {| ns_spec := ns_spec n; _ports := _ports n;
                          ns_default := ns_default n; _dynamic := _dynamic n |} = n)
             by now destruct n.
           change (with_ports (with_ports n (dict_set key p (_ports n))) (_ports n))
             with {| ns_spec := ns_spec n; _ports := _ports n;
                     ns_default := ns_default n; _dynamic := _dynamic n |}.
           rewrite E. rewrite with_object_same; [exact Hn|].
           now apply namespace_at_lookup.
        -- unfold dict_mem in Hmem. now destruct (dict_get key (_ports n)).
Qed.

(** ** Creating and looking up *)

(** Lookups survive the growth of the heap. *)
Lemma get_port_extends h h' name :
  extends h h' ->
  forall self p, get_port h self (VStr name) = Ok p -> get_port h' self (VStr name) = Ok p.
Proof.
  intros Hext. remember (String.length name) as k eqn:Hk.
  revert name Hk. induction k as [k IH] using lt_wf_ind. intros name Hk self p Hp.
  destruct (namespace_at h self) as [n|] eqn:Hn.
  2:{ destruct (get_port_not_namespace h self (VStr name) Hn) as [e He].
      rewrite He in Hp. discriminate. }
  destruct (string_dec name EmptyString) as [->|Hne].
  { destruct (get_port_invalid_name h self (VStr EmptyString)) as [e He]; [now left|].
    rewrite He in Hp. discriminate. }
  destruct (extends_namespace _ _ _ _ Hext Hn) as (n' & Hn' & Hkeys).
  rewrite (get_port_step h self n name Hn Hne) in Hp.
  rewrite (get_port_step h' self n' name Hn' Hne).
  destruct (split NAMESPACE_SEPARATOR name) as [|x rest] eqn:Es;
    [now apply split_not_nil in Es|].
  cbn [hd tl] in *.
  destruct (dict_get x (_ports n)) as [port|] eqn:Hx; [|discriminate].
  rewrite (Hkeys _ _ Hx).
  destruct rest as [|y ys]; [exact Hp|].
  eapply (IH _ (eq_ind _ (fun m => _ < m) (rest_shorter _ _ _ _ _ Es) _ (eq_sym Hk)));
    [reflexivity|exact Hp].
Qed.

Lemma extends_length h h' : extends h h' -> length h <= length h'.
Proof.
  intros Hext. destruct (Nat.le_gt_cases (length h) (length h')) as [H|H]; [exact H|].
  destruct (lookup_lt_is_Some_2 h (length h')) as [o Ho]; [lia|].
  destruct (Hext _ _ Ho) as (o' & Ho' & _).
  apply lookup_lt_Some in Ho'. lia.
Qed.

(** A call that changes nothing found every segment in place, and
    [get_port] finds the same node. *)
Lemma create_port_namespace_found name :
  forall self kwargs st node,
    create_port_namespace self (VStr name) kwargs st = (Ok node, st) ->
    get_port (objs st) self (VStr name) = Ok node
    /\ exists n', namespace_at (objs st) node = Some n'.
Proof.
  remember (String.length name) as k eqn:Hk.
  revert name Hk. induction k as [k IH] using lt_wf_ind.
  intros name Hk self kwargs st node Hrun.
  destruct (namespace_at (objs st) self) as [n|] eqn:Hn.
  2:{ destruct (create_port_namespace_not_namespace self (VStr name) kwargs st Hn) as [e He].
      rewrite He in Hrun. discriminate. }
  destruct (string_dec name EmptyString) as [->|Hne].
  { destruct (create_port_namespace_invalid_name self (VStr EmptyString) kwargs st) as [e He];
      [now left|].
    rewrite He in Hrun. discriminate. }
  rewrite (get_port_step _ self n name Hn Hne).
  destruct (split NAMESPACE_SEPARATOR name) as [|x rest] eqn:Es;
    [now apply split_not_nil in Es|].
  cbn [hd tl].
  destruct (dict_get x (_ports n)) as [port|] eqn:Hx.
  - destruct (namespace_at (objs st) port) as [n'|] eqn:Hp.
    + assert (Hl : linked (objs st) self (hd EmptyString (split NAMESPACE_SEPARATOR name)) port).
      { rewrite Es. exists n, n'. auto. }
      rewrite (create_port_namespace_present self name kwargs st port Hne Hl) in Hrun.
      rewrite Es in Hrun. cbn [tl] in Hrun. destruct rest as [|y ys].
      * injection Hrun as <-. eauto.
      * eapply (IH _ (eq_ind _ (fun m => _ < m) (rest_shorter _ _ _ _ _ Es) _ (eq_sym Hk)));
          [reflexivity|exact Hrun].
    + destruct (create_port_namespace_occupied self name kwargs st n port Hne Hn)
        as [e He]; [now rewrite Es|exact Hp|].
      rewrite He in Hrun. discriminate.
  - exfalso.
    destruct (create_port_namespace_absent self name kwargs st n Hne Hn) as
      [(e & He)|(st2 & Hext & Hl & He)]; [now rewrite Es| |].
    + rewrite He in Hrun. discriminate.
    + rewrite He, Es in Hrun. cbn [tl] in Hrun.
      destruct Hl as (_ & m' & _ & _ & Hnew).
      assert (Hgrown : length (objs st) < length (objs st2)).
      { apply namespace_at_lt in Hnew. exact Hnew. }
      destruct rest as [|y ys].
      * injection Hrun as _ E. rewrite E in Hgrown. lia.
      * apply create_port_namespace_extends, extends_length in Hrun. lia.
Qed.

(** Creating and looking up.  When [create_port_namespace] has returned a
    node, [get_port] with the same name returns that node, and the node is
    a namespace. *)
Theorem create_then_get_port (self : loc) (name : string) (kwargs : dict val)
  (st : state) (node : loc) (st1 : state) :
  create_port_namespace self (VStr name) kwargs st = (Ok node, st1) ->
  get_port (objs st1) self (VStr name) = Ok node
  /\ exists n', namespace_at (objs st1) node = Some n'.
Proof.
  intros Hrun.
  apply (create_port_namespace_found name self kwargs st1 node).
  eapply create_port_namespace_again. exact Hrun.
Qed.

Lemma create_port_namespace_extends_any self (name : val) kwargs st :
  extends (objs st) (objs (snd (create_port_namespace self name kwargs st))).
Proof.
  assert (Hbad : (forall s, name <> VStr s) ->
            extends (objs st) (objs (snd (create_port_namespace self name kwargs st)))).
  { intros Hname.
    destruct (create_port_namespace_invalid_name self name kwargs st (or_intror Hname))
      as [e He].
    rewrite He. apply extends_refl. }
  destruct name as [| | |s| | | | |]; try (apply Hbad; intros s0 Hs; now inversion Hs).
  clear Hbad.
  destruct (create_port_namespace self (VStr s) kwargs st) as [r st'] eqn:Hrun.
  eapply create_port_namespace_extends. exact Hrun.
Qed.

(** What could be looked up before [create_port_namespace] can be looked
    up after it, and is the same object, whether the call succeeded or
    failed half way. *)
Theorem create_port_namespace_keeps_ports (self : loc) (name : val) (kwargs : dict val)
  (st : state) (self0 : loc) (name0 : string) (p : loc) :
  get_port (objs st) self0 (VStr name0) = Ok p ->
  get_port (objs (snd (create_port_namespace self name kwargs st))) self0 (VStr name0)
  = Ok p.
Proof.
  intros Hp. eapply get_port_extends; [|exact Hp].
  apply create_port_namespace_extends_any.
Qed.

(** ** More on absorb *)

Lemma bind_ok {A B} (m : M A) (k : A -> M B) st b st' :
  bind m k st = (Ok b, st') ->
  exists a st1, m st = (Ok a, st1) /\ k a st1 = (Ok b, st').
Proof.
  unfold bind. destruct (m st) as [[a| |] st1]; try discriminate. eauto.
Qed.

(** Taking a successful sequence of steps apart *)
Tactic Notation "bind_inv" hyp(H) "as" ident(a) ident(st1) ident(H1) :=
  apply bind_ok in H as (a & st1 & H1 & H).

(** The copy of an object, with an empty memo, is the next object of the
    heap. *)
Lemma deepcopy_new fuel (port : loc) st c st' :
  deepcopy fuel (VRef port) [] st = (Ok c, st') ->
  fst c = VRef (length (objs st)).
Proof.
  destruct fuel as [|fuel]; [discriminate|]. cbn [deepcopy memo_get].
  intros H. bind_inv H as h st0 Hh. unfold get_heap in Hh. injection Hh as <- <-.
  destruct (objs st !! port) as [o|]; [|discriminate].
  rewrite bind_alloc in H. cbv zeta in H.
  destruct o as [c0 s [d|]|n|d];
    repeat (let a := fresh "a" in let s1 := fresh "s" in let Ha := fresh "Ha" in
            bind_inv H as a s1 Ha);
    injection H as <- _; reflexivity.
Qed.

(** The second loop of [absorb]: the names it returns are those of the
    items; under each of them [self] has a new object, and under every
    other name what it had.  Every other object of the heap is as it was. *)
Lemma absorb_ports_children fuel self items :
  forall st absorbed_ports st' n,
    namespace_at (objs st) self = Some n ->
    absorb_ports fuel self items st = (Ok absorbed_ports, st') ->
    absorbed_ports = map fst items
    /\ length (objs st) <= length (objs st')
    /\ exists n',
        namespace_at (objs st') self = Some n'
        /\ (forall key, In key absorbed_ports ->
              exists c : loc, dict_get key (_ports n') = Some c /\ length (objs st) <= c)
        /\ (forall key, ~ In key absorbed_ports ->
              dict_get key (_ports n') = dict_get key (_ports n)).
Proof.
  induction items as [|[port_name port] items IH]; intros st names st' n Hn Hrun.
  - cbn in Hrun. injection Hrun as <- <-. split; [reflexivity|]. split; [lia|].
    exists n. split; [exact Hn|]. split; [intros key []|reflexivity].
  - cbn [absorb_ports] in Hrun. bind_inv Hrun as c st0 Hcopy.
    pose proof (namespace_at_lt _ _ _ Hn) as Hlt.
    pose proof (frame_deepcopy (S self) fuel (VRef port) [] st Hlt) as [Hlen Hkeep].
    rewrite Hcopy in Hlen, Hkeep. cbn [snd] in Hlen, Hkeep.
    pose proof (deepcopy_new _ _ _ _ _ Hcopy) as Hc.
    assert (Hn1 : namespace_at (objs st0) self = Some n).
    { unfold namespace_at in *. rewrite Hkeep by lia. exact Hn. }
    bind_inv Hrun as u st2 Hset. unfold PortNamespace_setitem in Hset. rewrite Hc in Hset.
    run. destruct (issubclass _ _); [|discriminate]. rewrite Hn1 in Hset.
    injection Hset as _ <-.
    bind_inv Hrun as a1 st3 Hstep1. injection Hrun as <- <-.
    set (n1 := with_ports n (dict_set port_name (length (objs st)) (_ports n))) in *.
    change {| objs := <[self:=ONamespace n1]> (objs st0); logged := logged st0;
              validated := validated st0 |}
      with (with_object st0 self (ONamespace n1)) in Hstep1.
    assert (Hlt0 : self < length (objs st0)) by lia.
    destruct (IH _ _ _ n1 (namespace_at_with_object st0 self n1 Hlt0) Hstep1)
      as (Hnames & Hlen' & n' & Hn' & Hin & Hout).
    assert (Hlen0 : length (objs (with_object st0 self (ONamespace n1))) = length (objs st0))
      by apply length_insert.
    split; [cbn; now rewrite Hnames|]. split; [lia|].
    exists n'. split; [exact Hn'|]. split.
    + intros key Hkey.
      destruct (in_dec string_dec key a1) as [Hlater|Hnot].
      * destruct (Hin key Hlater) as (c0 & Hget & Hge). exists c0. split; [exact Hget|lia].
      * destruct Hkey as [<-|Hkey]; [|contradiction].
        rewrite (Hout _ Hnot). subst n1. cbn [with_ports _ports].
        rewrite dict_get_set_eq. eauto.
    + intros key Hkey. cbn in Hkey.
      rewrite (Hout key) by tauto. subst n1. cbn [with_ports _ports].
      apply dict_get_set_ne. intros ->. tauto.
Qed.

Lemma absorb_ports_others fuel self items :
  forall st r st',
    self < length (objs st) ->
    absorb_ports fuel self items st = (r, st') ->
    forall l : loc, l < length (objs st) -> l <> self -> objs st' !! l = objs st !! l.
Proof.
  induction items as [|[port_name port] items IH]; intros st r st' Hlt Hrun l Hl Hne.
  - cbn in Hrun. now injection Hrun as _ <-.
  - cbn [absorb_ports] in Hrun. unfold bind at 1 in Hrun.
    pose proof (frame_deepcopy (length (objs st)) fuel (VRef port) [] st (Nat.le_refl _))
      as [Hlen Hkeep].
    destruct (deepcopy fuel (VRef port) [] st) as [rc st1]. cbn [snd] in *.
    destruct rc as [c| |]; try (injection Hrun as _ <-; now apply Hkeep).
    unfold bind at 1 in Hrun.
    assert (Hset : objs (snd (PortNamespace_setitem self port_name (fst c) st1)) !! l
                   = objs st1 !! l
                   /\ length (objs (snd (PortNamespace_setitem self port_name (fst c) st1)))
                      = length (objs st1)).
    { unfold PortNamespace_setitem. run.
      destruct (fst c); try (split; reflexivity).
      destruct (issubclass _ _); [|split; reflexivity].
      destruct (namespace_at (objs st1) self); [|split; reflexivity].
      cbn [snd objs]. split; [apply lookup_store_ne; congruence|apply length_insert]. }
    destruct Hset as [Hset Hsetlen].
    destruct (PortNamespace_setitem self port_name (fst c) st1) as [[[]| |] st2];
      cbn [snd] in *; try (injection Hrun as _ <-; rewrite Hset; now apply Hkeep).
    unfold bind at 1 in Hrun.
    destruct (absorb_ports fuel self items st2) as [r2 st3] eqn:E2.
    assert (st' = st3) by (destruct r2; now injection Hrun). subst st3.
    assert (Hlt2 : self < length (objs st2)) by (rewrite Hsetlen; lia).
    assert (Hl2 : l < length (objs st2)) by (rewrite Hsetlen; lia).
    rewrite (IH _ _ _ Hlt2 E2 l Hl2 Hne), Hset. now apply Hkeep.
Qed.

Lemma absorb_run_ports fuel self other exclude include namespace_options st n o :
  namespace_at (objs st) self = Some n ->
  namespace_at (objs st) other = Some o ->
  let n' := fst (absorbed (Nat.eqb self other) n o mutable_properties namespace_options) in
  let st1 := with_object st self (ONamespace n') in
  _ports n' = _ports n /\
  absorb fuel self (VRef other) exclude include namespace_options st =
  match snd (absorbed (Nat.eqb self other) n o mutable_properties namespace_options) with
  | k :: ks =>
      (Raise (ValueError (format (objs st)
         "the namespace_options {}, is not a supported PortNamespace property"
         [VStr (String.concat ", " (map fst (k :: ks)))])), st1)
  | [] =>
      match _filter_ports (_ports o) exclude include with
      | Ok items => absorb_ports fuel self items st1
      | Raise e => (Raise e, st1)
      | NoFuel => (NoFuel, st1)
      end
  end.
Proof.
  intros Hn Ho n' st1.
  assert (Halias : Nat.eqb self other = true -> o = n).
  { intros E. apply Nat.eqb_eq in E as <-. congruence. }
  destruct (absorbed_mutable_properties (Nat.eqb self other) n o namespace_options Halias)
    as (Hports & _).
  fold n' in Hports. split; [exact Hports|].
  destruct (absorb_run fuel self other exclude include namespace_options st n o Hn Ho)
    as (o1 & Ho1 & Hrun).
  fold n' in Ho1, Hrun. fold st1 in Ho1, Hrun. rewrite Hrun.
  assert (Hsame : _ports o1 = _ports o).
  { subst st1. destruct (Nat.eq_dec self other) as [<-|Hne].
    - rewrite namespace_at_with_object in Ho1 by (eapply namespace_at_lt; eassumption).
      injection Ho1 as <-. rewrite Hports. rewrite Hn in Ho. now injection Ho as <-.
    - rewrite namespace_at_with_object_ne in Ho1 by exact Hne.
      rewrite Ho in Ho1. now injection Ho1 as <-. }
  now rewrite Hsame.
Qed.

Lemma filter_map_fst {A} (f : string -> bool) (items : dict A) :
  map fst (List.filter (fun item => f (fst item)) items) = List.filter f (map fst items).
Proof.
  induction items as [|[k v] items IH]; cbn; [reflexivity|].
  destruct (f k); cbn; now rewrite IH.
Qed.

(** What a successful [absorb] absorbs.  The names it returns are the
    names of the children of the other namespace, in their order, that are
    in [include] if one is given and otherwise are not in [exclude].
    Under each of these names [self] then has an object that did not
    exist before the call, and under every other name the child it had. *)
Theorem absorb_children fuel (self other : loc) exclude include namespace_options
  (st : state) (n o : PortNamespace) absorbed_ports st' :
  namespace_at (objs st) self = Some n ->
  namespace_at (objs st) other = Some o ->
  absorb fuel self (VRef other) exclude include namespace_options st
    = (Ok absorbed_ports, st') ->
  absorbed_ports =
    List.filter (fun name =>
                   match include with
                   | Some names => name_in name names
                   | None => negb (name_in name exclude)
                   end) (map fst (_ports o))
  /\ exists n',
      namespace_at (objs st') self = Some n'
      /\ (forall key, In key absorbed_ports ->
            exists c : loc, dict_get key (_ports n') = Some c /\ length (objs st) <= c)
      /\ (forall key, ~ In key absorbed_ports ->
            dict_get key (_ports n') = dict_get key (_ports n)).
Proof.
  intros Hn Ho Hrun.
  destruct (absorb_run_ports fuel self other exclude include namespace_options st n o Hn Ho)
    as (Hports & Hrun').
  rewrite Hrun' in Hrun. clear Hrun'.
  set (n1 := fst (absorbed (Nat.eqb self other) n o mutable_properties
                    namespace_options)) in *.
  destruct (snd (absorbed _ n o mutable_properties namespace_options)); [|discriminate].
  destruct (_filter_ports (_ports o) exclude include) as [items| |] eqn:Hf; try discriminate.
  pose proof (namespace_at_lt _ _ _ Hn) as Hlt.
  destruct (absorb_ports_children fuel self items _ _ _ n1
              (namespace_at_with_object st self n1 Hlt) Hrun)
    as (Hnames & _ & n' & Hn' & Hin & Hout).
  assert (Hlen : length (objs (with_object st self (ONamespace n1))) = length (objs st))
    by apply length_insert.
  split.
  - rewrite Hnames. unfold _filter_ports in Hf.
    destruct exclude as [|x exclude], include as [names|];
      try discriminate; injection Hf as <-;
      [ exact (filter_map_fst (fun name => name_in name names) _)
      | exact (filter_map_fst (fun name => negb (name_in name [])) _)
      | exact (filter_map_fst (fun name => negb (name_in name (x :: exclude))) _) ].
  - exists n'. split; [exact Hn'|]. split.
    + intros key Hkey. destruct (Hin key Hkey) as (c & Hc & Hge). exists c.
      split; [exact Hc|lia].
    + intros key Hkey. rewrite (Hout key Hkey). now rewrite Hports.
Qed.


Lemma absorbed_keeps_other_keys alias attrs key :
  name_in key attrs = false ->
  forall n o namespace_options,
    dict_get key (snd (absorbed alias n o attrs namespace_options))
    = dict_get key namespace_options.
Proof.
  induction attrs as [|attr attrs IH]; intros Hkey n o opts; [reflexivity|].
  cbn [name_in existsb] in Hkey. apply orb_false_iff in Hkey as [Hne Hkey].
  cbn [absorbed]. rewrite (IH Hkey). apply dict_get_remove_ne.
  intros ->. now rewrite String.eqb_refl in Hne.
Qed.

(** An override for something that is not a mutable property.  [absorb]
    raises a [ValueError]; by then the supported overrides and the
    properties of the other namespace have been written to [self], whose
    children are still the ones it had. *)
Theorem absorb_unsupported_option fuel (self other : loc) exclude include
  namespace_options (st : state) (n o : PortNamespace) (key : string) :
  namespace_at (objs st) self = Some n ->
  namespace_at (objs st) other = Some o ->
  dict_mem key namespace_options = true ->
  name_in key mutable_properties = false ->
  let r := absorb fuel self (VRef other) exclude include namespace_options st in
  (exists msg, fst r = Raise (ValueError msg))
  /\ exists n',
      namespace_at (objs (snd r)) self = Some n'
      /\ _ports n' = _ports n
      /\ forall attr,
          In attr ["default"; "help"; "required"; "valid_type"; "validator"] ->
          getattr n' attr = absorbed_value namespace_options o attr.
Proof.
  intros Hn Ho Hmem Hkey r.
  destruct (absorb_run_ports fuel self other exclude include namespace_options st n o Hn Ho)
    as (Hports & Hrun).
  assert (Halias : Nat.eqb self other = true -> o = n).
  { intros E. apply Nat.eqb_eq in E as <-. rewrite Hn in Ho. now injection Ho. }
  destruct (absorbed_mutable_properties (Nat.eqb self other) n o namespace_options Halias)
    as (_ & _ & Hd & Hh & Hr & Hvt & Hv & _).
  set (n1 := fst (absorbed (Nat.eqb self other) n o mutable_properties
                    namespace_options)) in *.
  pose proof (absorbed_keeps_other_keys (Nat.eqb self other) mutable_properties key Hkey
                n o namespace_options) as Hleft.
  subst r. rewrite Hrun. clear Hrun.
  destruct (snd (absorbed _ n o mutable_properties namespace_options)) as [|k ks].
  { cbn in Hleft. unfold dict_mem in Hmem. rewrite <- Hleft in Hmem. discriminate. }
  cbn [fst snd]. split; [eauto|].
  exists n1. split; [|split; [exact Hports|]].
  - apply namespace_at_with_object. eapply namespace_at_lt; eassumption.
  - intros attr Hattr. cbn in Hattr.
    destruct Hattr as [<-|[<-|[<-|[<-|[<-|[]]]]]]; assumption.
Qed.

(** ** More on InputPort *)

Lemma ValueSpec_validate_result (self : loc) c s d v st :
  objs st !! self = Some (OLeaf c s d) ->
  fst (ValueSpec_validate self v st) = fst (validate_value s v st)
  /\ objs (snd (ValueSpec_validate self v st)) = objs st.
Proof.
  intros Hself. split; [|apply reader_ValueSpec_validate].
  unfold ValueSpec_validate. run. rewrite Hself.
  set (st1 := {| objs := objs st; logged := logged st;
                 validated := validated st ++ [self] |}).
  destruct (reader_validate_value s v st) as (_ & _ & Hr).
  specialize (Hr st1 eq_refl).
  destruct (validate_value s v st1) as [r st2] eqn:E. cbn [fst snd] in *.
  rewrite <- Hr. now destruct r.
Qed.

(** [InputPort.__init__] validates a default against the port under
    construction, which by then has [required] false.  The constructor
    returns exactly when that validation passes, and the new port then has
    the default; a verdict that the default is invalid is raised as a
    [ValueError] carrying the validator's message; and in no other case a
    port is returned. *)
Theorem InputPort_default_is_checked name valid_type help default required validator st :
  is_UNSPECIFIED default = false ->
  let s := {| _name := name; _valid_type := valid_type; _help := help;
              _required := VBool false; _validator := validator |} in
  let self : loc := length (objs st) in
  let h1 : heap := objs st ++ [OLeaf CInputPort s None] in
  let r := fst (validate_value s default
                  {| objs := h1; logged := logged st; validated := validated st |}) in
  let out := InputPort_init name valid_type help default required validator st in
  (succeeds h1 r ->
     fst out = Ok self /\
     objs (snd out) !! self = Some (OLeaf CInputPort s (Some default)) /\
     fst (has_default self (snd out)) = Ok true)
  /\ (forall v ok msg,
        r = Ok v -> unpack2 h1 v = Ok (ok, msg) -> truthy h1 ok = false ->
        fst out = Raise (ValueError (format h1 "Invalid default value: {}" [msg])))
  /\ (~ succeeds h1 r -> forall port, fst out <> Ok port).
Proof.
  intros Hd s self h1 r out.
  assert (Hout : exists st2, objs st2 = h1 /\
    out = ((r0 <- ValueSpec_validate self default ;;
            h <- get_heap ;;
            p <- lift (unpack2 h r0) ;;
            (let '(default_valid, msg) := p in
             if negb (truthy h default_valid) then
               raise (ValueError (format h "Invalid default value: {}" [msg]))
             else ret tt)) ;;;
           store self (OLeaf CInputPort s (Some default)) ;;; ret self) st2).
  { subst out. unfold InputPort_init, required_override. rewrite Hd. cbn [negb].
    rewrite bind_alloc. fold s. fold self.
    destruct (required_was_overridden required default); run;
      eexists; (split; [|reflexivity]); reflexivity. }
  destruct Hout as (st2 & Hh & ->).
  assert (Hself : objs st2 !! self = Some (OLeaf CInputPort s None)).
  { rewrite Hh. apply lookup_alloc. }
  destruct (ValueSpec_validate_result self CInputPort s None default st2 Hself)
    as (Hres & Hobjs).
  assert (Hr : fst (validate_value s default st2) = r).
  { subst r. destruct (reader_validate_value s default st2) as (_ & _ & Hrd).
    symmetry. apply Hrd. cbn. symmetry. exact Hh. }
  rewrite Hr in Hres. clear Hr.
  match goal with |- context [fst (?m st2)] => destruct (m st2) as [ro sto] eqn:Eo end.
  cbn [fst snd]. run.
  destruct (ValueSpec_validate self default st2) as [r0 st3] eqn:E.
  cbn [fst snd] in Hres, Hobjs. subst r0.
  assert (Hh3 : objs st3 = h1) by (rewrite Hobjs; exact Hh).
  clearbody r. clear E. rewrite Hh3 in Eo.
  split; [|split].
  - intros (v & [ok msg] & -> & Hu & Ht). cbn [fst] in Ht.
    rewrite Hu, Ht in Eo. cbn [negb] in Eo. injection Eo as <- <-.
    cbn [objs]. rewrite ?Hh3.
    assert (Hl : (<[self:=OLeaf CInputPort s (Some default)]> h1 : heap) !! self
                 = Some (OLeaf CInputPort s (Some default))).
    { apply lookup_store. subst self h1. rewrite length_app. cbn. lia. }
    split; [reflexivity|]. split; [exact Hl|].
    unfold has_default. run. rewrite Hl. cbn. rewrite Hd. reflexivity.
  - intros v ok msg -> Hu Ht. rewrite Hu, Ht in Eo. cbn [negb] in Eo.
    injection Eo as <- _. reflexivity.
  - intros Hno port ->. destruct r as [v | e |]; try discriminate.
    destruct (unpack2 h1 v) as [[ok msg] | e |] eqn:Hu; try discriminate.
    destruct (truthy h1 ok) eqn:Ht; cbn [negb] in Eo; try discriminate.
    apply Hno. exists v, (ok, msg). auto.
Qed.

(** ** What a successful validation says about the values *)

Lemma dict_get_remove_none {A} k k' (d : dict A) :
  dict_get k d = None -> dict_get k (dict_remove k' d) = None.
Proof.
  induction d as [|[k0 v0] d IH]; cbn; [reflexivity|].
  destruct (String.eqb k k0) eqn:E; [discriminate|]. intros H.
  destruct (String.eqb k' k0); [exact H|]. cbn. rewrite E. now apply IH.
Qed.

Lemma dict_mem_in {A} k (d : dict A) : In k (map fst d) -> dict_mem k d = true.
Proof.
  unfold dict_mem. intros H. destruct (dict_get k d) eqn:E; [reflexivity|].
  exfalso. induction d as [|[k0 v0] d IH]; cbn in *; [exact H|].
  destruct (String.eqb k k0) eqn:E0; [discriminate|].
  destruct H as [->|H]; [now rewrite String.eqb_refl in E0|now apply IH].
Qed.

Lemma dict_get_in {A} k (d : dict A) v : dict_get k d = Some v -> In (k, v) d.
Proof.
  induction d as [|[k0 v0] d IH]; cbn; [discriminate|].
  destruct (String.eqb k k0) eqn:E.
  - apply String.eqb_eq in E as ->. intros [= ->]. now left.
  - intros H. right. now apply IH.
Qed.


(** Popping every name leaves nothing only if every key was a name. *)
Lemma popped_nil names : forall d k,
  popped names d = [] -> dict_mem k d = true -> In k names.
Proof.
  unfold popped.
  induction names as [|a names IH]; intros d k; cbn [fold_left].
  - intros ->. discriminate.
  - intros Hnil Hk. destruct (String.eqb k a) eqn:E.
    + apply String.eqb_eq in E. now left.
    + right. apply (IH (dict_remove a d)); [exact Hnil|].
      unfold dict_mem in *. rewrite dict_get_remove_ne; [exact Hk|].
      intros ->. now rewrite String.eqb_refl in E.
Qed.


(** After [pop] the dictionary is without the key, present or not. *)
Lemma dict_pop_run (pv : loc) name d st v st1 :
  objs st !! pv = Some (ODict d) ->
  dict_pop pv name UNSPECIFIED st = (Ok v, st1) ->
  objs st1 !! pv = Some (ODict (dict_remove name d))
  /\ (forall l : loc, l <> pv -> objs st1 !! l = objs st !! l)
  /\ length (objs st1) = length (objs st)
  /\ (dict_get name d = None -> v = UNSPECIFIED).
Proof.
  intros Hpv H. unfold dict_pop in H. run. rewrite Hpv in H.
  assert (Hlt : pv < length (objs st)) by (eapply lookup_lt_Some; exact Hpv).
  destruct (dict_get name d) as [x|] eqn:Hg; injection H as <- <-; cbn [objs].
  - split; [now apply lookup_store|]. split.
    + intros l Hl. apply lookup_store_ne. congruence.
    + split; [apply length_insert|discriminate].
  - rewrite (dict_remove_absent _ _ Hg). auto.
Qed.

(** A required port without a value is turned down. *)
Lemma validate_required_leaf fuel (port : loc) c s dflt st r st' :
  objs st !! port = Some (OLeaf c s dflt) ->
  _required s = VBool true ->
  validate fuel port UNSPECIFIED st = (Ok r, st') ->
  objs st' = objs st /\ exists msg, r = invalid msg.
Proof.
  intros Hport Hreq H. destruct fuel as [|fuel]; [discriminate|].
  cbn [validate] in H. unfold bind at 1 in H. unfold get_heap at 1 in H.
  rewrite Hport in H.
  destruct (ValueSpec_validate_result port c s dflt UNSPECIFIED st Hport) as (Hr & Ho).
  rewrite H in Hr, Ho. cbn [fst snd] in Hr, Ho. split; [exact Ho|].
  rewrite validate_value_unspecified, Hreq in Hr. cbn in Hr.
  injection Hr as ->. eauto.
Qed.

(** The loop of [validate_ports]: it leaves the objects below the
    dictionary alone, and when it ends well every declared name has been
    popped and every required port had a value. *)
Lemma validate_ports_run fuel (self pv : loc) n d st r st' :
  namespace_at (objs st) self = Some n ->
  objs st !! pv = Some (ODict d) ->
  validate_ports (validate fuel) self pv st = (Ok r, st') ->
  exists ok msg, r = VTuple [ok; msg] /\
    (forall l : loc, l < pv -> objs st' !! l = objs st !! l) /\
    (truthy (objs st') ok = true ->
       objs st' !! pv = Some (ODict (popped (map fst (_ports n)) d)) /\
       forall name (port : loc) c s dflt,
         In (name, port) (_ports n) ->
         port < pv -> objs st !! port = Some (OLeaf c s dflt) ->
         _required s = VBool true ->
         dict_mem name d = true).
Proof.
  intros Hn Hpv H. unfold validate_ports in H.
  bind_inv H as n0 st0 Hn0. unfold namespace_of in Hn0. rewrite Hn in Hn0.
  injection Hn0 as <- <-. clear Hn.
  revert H. generalize VNone at 1. generalize (VBool true) at 1. revert st d Hpv.
  induction (_ports n) as [|[name port] ports IH]; intros st d Hpv is_valid message H.
  - injection H as <- <-. exists is_valid, message. split; [reflexivity|].
    split; [reflexivity|]. intros _. split; [exact Hpv|]. intros ? ? ? ? ? [].
  - bind_inv H as v st1 Hpop.
    destruct (dict_pop_run pv name d st v st1 Hpv Hpop) as (Hpv1 & Hoth1 & Hlen1 & Hv).
    bind_inv H as r1 st2 Hchild.
    assert (Hlt1 : S pv <= length (objs st1)).
    { apply lookup_lt_Some in Hpv1. lia. }
    destruct (frame_validate (S pv) fuel port v st1 Hlt1) as [Hlen2 Hkeep2].
    rewrite Hchild in Hlen2, Hkeep2. cbn [snd] in Hlen2, Hkeep2.
    bind_inv H as h st3 Hh. unfold get_heap in Hh. injection Hh as <- <-.
    bind_inv H as p st3 Hp. unfold lift in Hp.
    destruct (unpack2 (objs st2) r1) as [p0| |] eqn:Hu; try discriminate.
    injection Hp as <- <-.
    assert (Hbelow : forall l : loc, l < pv -> objs st2 !! l = objs st !! l).
    { intros l Hl. rewrite Hkeep2 by lia. apply Hoth1. lia. }
    destruct (truthy (objs st2) (fst p0)) eqn:Ht; cbn [negb] in H.
    + assert (Hpv2 : objs st2 !! pv = Some (ODict (dict_remove name d))).
      { rewrite Hkeep2 by lia. exact Hpv1. }
      destruct (IH st2 (dict_remove name d) Hpv2 _ _ H)
        as (ok & msg & -> & Hbelow' & Hgood).
      exists ok, msg. split; [reflexivity|]. split.
      { intros l Hl. rewrite Hbelow' by exact Hl. now apply Hbelow. }
      intros Hok. destruct (Hgood Hok) as (Hleft & Hreq). split; [exact Hleft|].
      intros name0 port0 c s dflt [[= <- <-]|Hin] Hlt Hport Hs.
      * unfold dict_mem. destruct (dict_get name d) eqn:Hg; [reflexivity|].
        exfalso. rewrite (Hv eq_refl) in Hchild.
        assert (Hport1 : objs st1 !! port = Some (OLeaf c s dflt)).
        { rewrite Hoth1 by lia. exact Hport. }
        destruct (validate_required_leaf fuel port c s dflt st1 r1 st2 Hport1 Hs Hchild)
          as (_ & msg0 & ->).
        cbn in Hu. injection Hu as <-. discriminate.
      * assert (Hport2 : objs st2 !! port0 = Some (OLeaf c s dflt)).
        { rewrite Hbelow by exact Hlt. exact Hport. }
        specialize (Hreq name0 port0 c s dflt Hin Hlt Hport2 Hs).
        unfold dict_mem in *. destruct (dict_get name0 d) eqn:Hg; [reflexivity|].
        now rewrite (dict_get_remove_none _ name _ Hg) in Hreq.
    + injection H as <- <-. exists (fst p0), (snd p0). split; [reflexivity|].
      split; [exact Hbelow|]. intros Hok. rewrite Ht in Hok. discriminate.
Qed.

(** [validate_dynamic_ports] reads only.  When it passes, either nothing
    is left in the dictionary or the namespace is dynamic, and what is left
    is of the namespace's [valid_type]. *)
Lemma validate_dynamic_ports_run (self pv : loc) n rest st r st' p :
  namespace_at (objs st) self = Some n ->
  objs st !! pv = Some (ODict rest) ->
  validate_dynamic_ports self pv st = (Ok r, st') ->
  unpack2 (objs st') r = Ok p ->
  truthy (objs st') (fst p) = true ->
  st' = st
  /\ (rest = [] \/ truthy (objs st) (_dynamic n) = true)
  /\ (is_None (_valid_type (ns_spec n)) = false ->
      forall k x, In (k, x) rest ->
        isinstance (objs st) x (_valid_type (ns_spec n)) = Ok true).
Proof.
  intros Hn Hpv H Hu Ht. unfold validate_dynamic_ports in H.
  bind_inv H as n0 st0 Hn0. unfold namespace_of in Hn0. rewrite Hn in Hn0.
  injection Hn0 as <- <-.
  bind_inv H as h st0 Hh. unfold get_heap in Hh. injection Hh as <- <-.
  assert (Hpvt : truthy (objs st) (VRef pv) = match rest with [] => false | _ => true end).
  { cbn [truthy]. now rewrite Hpv. }
  rewrite Hpvt in H.
  destruct (match rest with [] => false | _ => true end
            && negb (truthy (objs st) (_dynamic n))) eqn:Hb.
  { injection H as <- <-. cbn in Hu. injection Hu as <-. discriminate. }
  assert (Hdyn : rest = [] \/ truthy (objs st) (_dynamic n) = true).
  { destruct rest; [now left|]. right. cbn in Hb.
    now destruct (truthy (objs st) (_dynamic n)). }
  destruct (is_None (_valid_type (ns_spec n))) eqn:Hvt; cbn [negb] in H.
  { injection H as <- <-. split; [reflexivity|]. split; [exact Hdyn|discriminate]. }
  bind_inv H as items st0 Hi. unfold items_of in Hi. run. rewrite Hpv in Hi.
  injection Hi as <- <-.
  assert (Hloop : st' = st /\ forall k x, In (k, x) rest ->
            isinstance (objs st) x (_valid_type (ns_spec n)) = Ok true).
  { clear -H Hu Ht. revert H.
    induction rest as [|[k0 x0] rest IH]; intros H.
    - injection H as <- <-. split; [reflexivity|]. intros ? ? [].
    - run.
      destruct (isinstance (objs st) x0 (_valid_type (ns_spec n))) as [[|]| |] eqn:Hx;
        cbn [negb] in H; try discriminate.
      + destruct (IH H) as (-> & Hall). split; [reflexivity|].
        intros k x [[= <- <-]|Hin]; [exact Hx|now apply (Hall k)].
      + injection H as <- <-. cbn in Hu. injection Hu as <-. discriminate. }
  destruct Hloop as (-> & Hall). split; [reflexivity|]. split; [exact Hdyn|].
  intros _. exact Hall.
Qed.

Lemma values_given_run port_values st st0 :
  objs st0 = objs st ->
  (if is_None port_values then ret [] else to_dict port_values) st0
  = (fst (values_given port_values st), st0).
Proof.
  intros E. unfold values_given.
  destruct (is_None port_values); [reflexivity|].
  unfold to_dict. run. rewrite E.
  repeat case_match; reflexivity.
Qed.

(** A successful [validate] of a namespace, taken apart.  User functions
    have no side effects in this model, so the validator of the namespace
    leaves the private copy of the values as it is.  The objects that
    were there before are as they were.  Either nothing was given and the
    namespace is not required, and then no port was looked at; or the
    declared names were popped from the private copy of the values, every
    required port had a value, and what was left passed
    [validate_dynamic_ports]. *)
Lemma validate_success fuel (self : loc) port_values n entries st r st' p :
  namespace_at (objs st) self = Some n ->
  fst (values_given port_values st) = Ok entries ->
  validate fuel self port_values st = (Ok r, st') ->
  unpack2 (objs st') r = Ok p ->
  truthy (objs st') (fst p) = true ->
  let pv : loc := length (objs st) in
  let rest := popped (map fst (_ports n)) entries in
  (forall l : loc, l < pv -> objs st' !! l = objs st !! l)
  /\ ((entries = [] /\ truthy (objs st') (_required (ns_spec n)) = false)
      \/ (objs st' !! pv = Some (ODict rest)
          /\ (forall name (port : loc) c s dflt,
                In (name, port) (_ports n) ->
                objs st !! port = Some (OLeaf c s dflt) ->
                _required s = VBool true ->
                dict_mem name entries = true)
          /\ (rest = [] \/ truthy (objs st') (_dynamic n) = true)
          /\ (is_None (_valid_type (ns_spec n)) = false ->
              forall k x, In (k, x) rest ->
                isinstance (objs st') x (_valid_type (ns_spec n)) = Ok true))).
Proof.
  intros Hn Hgiven H Hu Ht pv rest.
  destruct fuel as [|fuel]; [discriminate|]. cbn [validate] in H.
  unfold bind at 1 in H. unfold get_heap at 1 in H.
  rewrite (namespace_at_lookup _ _ _ Hn) in H.
  unfold PortNamespace_validate in H.
  bind_inv H as u st0 Hnote. unfold note_validate in Hnote. injection Hnote as _ <-.
  bind_inv H as n0 st0 Hn0. unfold namespace_of in Hn0. cbn [objs] in Hn0.
  rewrite Hn in Hn0. injection Hn0 as <- <-.
  bind_inv H as d st0 Hd. rewrite (values_given_run port_values st) in Hd by reflexivity.
  rewrite Hgiven in Hd. injection Hd as <- <-.
  rewrite bind_alloc in H. cbn [objs logged validated] in H. fold pv in H.
  set (h1 := objs st ++ [ODict entries]) in H.
  assert (Hpv1 : (h1 : heap) !! pv = Some (ODict entries)) by apply lookup_alloc.
  assert (Hold1 : forall l : loc, l < pv -> (h1 : heap) !! l = objs st !! l).
  { intros l Hl. subst h1. apply lookup_app_l. exact Hl. }
  assert (Hpvt : truthy h1 (VRef pv) = match entries with [] => false | _ => true end).
  { cbn [truthy]. now rewrite Hpv1. }
  bind_inv H as checked st1 Hc.
  assert (Hst1 : objs st1 = h1 /\
                 (forall q, checked = inl q ->
                    exists a b, q = VTuple [a; b] /\ truthy h1 a = false)).
  { destruct (negb (is_None (_validator (ns_spec n)))).
    - bind_inv Hc as r0 st2 Hcall.
      destruct (reader_call (_validator (ns_spec n)) [VRef self; VRef pv]
                  {| objs := h1; logged := logged st;
                     validated := validated st ++ [self] |}) as (Ho & _ & _).
      rewrite Hcall in Ho. cbn [snd objs] in Ho.
      bind_inv Hc as h st3 Hh. unfold get_heap in Hh. injection Hh as <- <-.
      bind_inv Hc as p0 st3 Hp. unfold lift in Hp.
      destruct (unpack2 (objs st2) r0) as [p1| |]; try discriminate.
      injection Hp as <- <-. rewrite Ho in Hc.
      destruct (truthy h1 (fst p1)) eqn:Ht1; cbn [negb] in Hc;
        injection Hc as <- <-; (split; [exact Ho|]); intros q [= <-]; eauto.
    - injection Hc as <- <-. split; [reflexivity|]. discriminate. }
  destruct Hst1 as (Hh1 & Hinl).
  destruct checked as [q|[is_valid message]].
  { injection H as <- <-. destruct (Hinl q eq_refl) as (a & b & -> & Hf).
    cbn in Hu. injection Hu as <-. cbn [fst] in Ht. rewrite Hh1, Hf in Ht.
    discriminate. }
  clear Hinl Hc.
  bind_inv H as h st2 Hh. unfold get_heap in Hh. injection Hh as <- <-.
  rewrite Hh1, Hpvt in H.
  destruct (negb (match entries with [] => false | _ => true end)
            && negb (truthy h1 (_required (ns_spec n)))) eqn:Hvac.
  { injection H as <- <-. rewrite Hh1. split; [exact Hold1|]. left.
    destruct entries; [|discriminate]. split; [reflexivity|].
    cbn in Hvac. now destruct (truthy h1 (_required (ns_spec n))). }
  assert (Hn1 : namespace_at (objs st1) self = Some n).
  { rewrite Hh1. unfold namespace_at. rewrite Hold1; [exact Hn|].
    eapply namespace_at_lt. exact Hn. }
  assert (Hpv1' : objs st1 !! pv = Some (ODict entries)) by (rewrite Hh1; exact Hpv1).
  bind_inv H as r2 st2 Hports.
  destruct (validate_ports_run fuel self pv n entries st1 r2 st2 Hn1 Hpv1' Hports)
    as (ok & msg & -> & Hbelow & Hgood).
  bind_inv H as h st3 Hh. unfold get_heap in Hh. injection Hh as <- <-.
  bind_inv H as p2 st3 Hp. cbn in Hp. injection Hp as <- <-. cbn [fst snd] in H.
  assert (Hold2 : forall l : loc, l < pv -> objs st2 !! l = objs st !! l).
  { intros l Hl. rewrite Hbelow by exact Hl. rewrite Hh1. now apply Hold1. }
  destruct (truthy (objs st2) ok) eqn:Hok; cbn [negb] in H.
  2:{ injection H as <- <-. cbn in Hu. injection Hu as <-. cbn [fst] in Ht.
      rewrite Hok in Ht. discriminate. }
  destruct (Hgood eq_refl) as (Hleft & Hreq).
  bind_inv H as r3 st3 Hdyn.
  bind_inv H as h st4 Hh. unfold get_heap in Hh. injection Hh as <- <-.
  bind_inv H as p3 st4 Hp. unfold lift in Hp.
  destruct (unpack2 (objs st3) r3) as [p4| |] eqn:Hu3; try discriminate.
  injection Hp as <- <-. injection H as <- <-.
  cbn in Hu. injection Hu as <-. cbn [fst] in Ht.
  assert (Hn2 : namespace_at (objs st2) self = Some n).
  { unfold namespace_at. rewrite Hold2; [exact Hn|]. eapply namespace_at_lt. exact Hn. }
  destruct (validate_dynamic_ports_run self pv n rest st2 r3 st3 p4 Hn2 Hleft Hdyn Hu3 Ht)
    as (-> & Hd & Hall).
  split; [exact Hold2|]. right. split; [exact Hleft|]. split; [|split; assumption].
  intros name port c s dflt Hin Hport Hs.
  assert (Hlt : port < pv) by (eapply lookup_lt_Some; exact Hport).
  apply (Hreq name port c s dflt Hin Hlt); [|exact Hs].
  rewrite Hh1, Hold1 by exact Hlt. exact Hport.
Qed.

(** A namespace that is not dynamic accepts no value under a name it has
    not declared: when [validate] passes, every key of the values that were
    given is the name of a port of the namespace.  (Validators are
    functions without side effects, as everywhere in the model.) *)
Theorem validate_rejects_undeclared fuel (self : loc) port_values n entries st :
  namespace_at (objs st) self = Some n ->
  _dynamic n = VBool false ->
  fst (values_given port_values st) = Ok entries ->
  let out := validate fuel self port_values st in
  succeeds (objs (snd out)) (fst out) ->
  forall key, dict_mem key entries = true -> dict_mem key (_ports n) = true.
Proof.
  intros Hn Hdyn Hgiven out (r & p & Hr & Hu & Ht) key Hkey.
  destruct out as [r0 st'] eqn:Hout. cbn [fst snd] in *. subst r0.
  destruct (validate_success fuel self port_values n entries st r st' p
              Hn Hgiven Hout Hu Ht) as (_ & [(-> & _)|(_ & _ & Hrest & _)]).
  - discriminate.
  - rewrite Hdyn in Hrest. destruct Hrest as [Hrest|Hrest]; [|discriminate].
    apply dict_mem_in. exact (popped_nil _ _ _ Hrest Hkey).
Qed.



(** ** project, on values without namespaces among them *)

(** What [project] keeps of the items: the ones under a declared name, a
    later item replacing an earlier one of the same key *)
Lemma project_fold_get (ports : dict loc) key : forall (items res : dict val),
  List.NoDup (map fst items) ->
  dict_get key
    (fold_left (fun r item =>
                  if dict_mem (fst item) ports then dict_set (fst item) (snd item) r else r)
               items res)
  = match (if dict_mem key ports then dict_get key items else None) with
    | Some v => Some v
    | None => dict_get key res
    end.
Proof.
  induction items as [|[k x] items IH]; intros res Hnd; cbn [fold_left fst snd].
  - cbn. now destruct (dict_mem key ports).
  - cbn [map fst] in Hnd. apply NoDup_cons_iff in Hnd as [Hk Hnd].
    rewrite IH by exact Hnd. cbn [dict_get].
    destruct (String.eqb key k) eqn:E.
    + apply String.eqb_eq in E as ->.
      rewrite (dict_get_not_in _ _ Hk).
      destruct (dict_mem k ports); [|reflexivity]. apply dict_get_set_eq.
    + assert (Hne : key <> k) by (intros ->; now rewrite String.eqb_refl in E).
      destruct (dict_mem key ports); destruct (dict_get key items); try reflexivity;
        destruct (dict_mem k ports); try reflexivity; now apply dict_get_set_ne.
Qed.

Lemma type_not_namespace_alloc (h : heap) (o : dict val) x :
  issubclass (type_of h x) TPortNamespace = false ->
  issubclass (type_of (h ++ [ODict o]) x) TPortNamespace = false.
Proof.
  destruct x as [| | | | | | | |l]; try (intros; reflexivity).
  unfold type_of. destruct (decide (l < length h)) as [Hl|Hl].
  - assert (E : ((h ++ [ODict o]) : heap) !! l = h !! l) by now apply lookup_app_l.
    now rewrite E.
  - intros _.
    destruct (((h ++ [ODict o]) : heap) !! l) as [ob|] eqn:E; [|reflexivity].
    apply lookup_app_Some in E as [E|[_ E]].
    + apply lookup_lt_Some in E. lia.
    + destruct (l - length h) as [|k]; [|discriminate]. cbn in E.
      injection E as <-. reflexivity.
Qed.

Lemma store_alloc (h : heap) (o o' : obj) :
  (<[(length h : loc) := o']> ((h ++ [o]) : heap) : heap) = h ++ [o'].
Proof.
  etransitivity; [apply (insert_app_r_alt h [o] (length h) o'); lia|].
  now rewrite Nat.sub_diag.
Qed.

(** [project] of a dictionary none of whose values is a namespace is a new
    dictionary that has the entries of the given one under the names of the
    ports of the namespace, and no others.  Nothing else changes: the new
    dictionary is the one object added to the heap. *)
Theorem project_plain fuel (self d : loc) n entries st :
  namespace_at (objs st) self = Some n ->
  objs st !! d = Some (ODict entries) ->
  List.NoDup (map fst entries) ->
  (forall key value, In (key, value) entries ->
     issubclass (type_of (objs st) value) TPortNamespace = false) ->
  exists result,
    project (S fuel) self (VRef d) st
    = (Ok (VRef (length (objs st))),
       {| objs := objs st ++ [ODict result]; logged := logged st;
          validated := validated st |})
    /\ forall key,
         dict_get key result
         = if dict_mem key (_ports n) then dict_get key entries else None.
Proof.
  intros Hn Hd Hnd Hplain.
  exists (fold_left (fun r item =>
            if dict_mem (fst item) (_ports n) then dict_set (fst item) (snd item) r else r)
          entries []).
  split.
  2:{ intros key. rewrite project_fold_get by exact Hnd. cbn.
      now destruct (if dict_mem key (_ports n) then dict_get key entries else None). }
  cbn [project]. unfold bind at 1. unfold namespace_of at 1. rewrite Hn.
  rewrite bind_alloc. unfold bind at 1. unfold items_of, bind at 1, get_heap at 1.
  cbn [objs].
  assert (Hd1 : ((objs st ++ [ODict []]) : heap) !! d = Some (ODict entries)).
  { now apply lookup_alloc_old. }
  rewrite Hd1. unfold ret at 1.
  assert (Hloop : forall items res,
    (forall key value, In (key, value) items ->
       issubclass (type_of (objs st) value) TPortNamespace = false) ->
    (fix loop (items : dict val) : M unit :=
       match items with
       | [] => ret tt
       | (name, value) :: items' =>
           n <- namespace_of self ;;
           (if dict_mem name (_ports n) then
              h <- get_heap ;;
              if issubclass (type_of h value) TPortNamespace then
                child <- PortNamespace_getitem self name ;;
                r <- project fuel child value ;;
                dict_setitem (length (objs st)) name r
              else dict_setitem (length (objs st)) name value
            else ret tt) ;;;
           loop items'
       end) items
      {| objs := objs st ++ [ODict res]; logged := logged st; validated := validated st |}
    = (Ok tt,
       {| objs := objs st ++ [ODict (fold_left (fun r item =>
            if dict_mem (fst item) (_ports n) then dict_set (fst item) (snd item) r else r)
            items res)];
          logged := logged st; validated := validated st |})).
  { induction items as [|[name value] items IH]; intros res Hpl; [reflexivity|].
    unfold bind at 1. unfold namespace_of at 1. cbn [objs].
    assert (Hn1 : namespace_at (objs st ++ [ODict res]) self = Some n).
    { apply lookup_namespace_at, lookup_alloc_old, namespace_at_lookup, Hn. }
    rewrite Hn1. cbn [fold_left fst snd].
    assert (Hrest : forall key value, In (key, value) items ->
              issubclass (type_of (objs st) value) TPortNamespace = false).
    { intros k x Hin. apply (Hpl k). now right. }
    unfold bind at 1.
    destruct (dict_mem name (_ports n)).
    - unfold bind at 1. unfold get_heap at 1. cbn [objs].
      rewrite (type_not_namespace_alloc _ res value (Hpl name value (or_introl eq_refl))).
      unfold dict_setitem, bind at 1, get_heap at 1. cbn [objs].
      assert (Hpv : ((objs st ++ [ODict res]) : heap) !! (length (objs st) : loc) = Some (ODict res))
        by apply lookup_alloc.
      rewrite Hpv. unfold store. cbn [objs logged validated].
      rewrite store_alloc. apply IH, Hrest.
    - unfold ret at 1. apply IH, Hrest. }
  unfold bind at 1. rewrite (Hloop entries [] Hplain). reflexivity.
Qed.

(** ** The copies that absorb makes *)

(** A value without references is its own deep copy; nothing is allocated
    for it and nothing is entered in the memo. *)
Lemma deepcopy_plain fuel : forall v m st,
  plain v = true ->
  snd (deepcopy fuel v m st) = st
  /\ (fst (deepcopy fuel v m st) = Ok (v, m) \/ fst (deepcopy fuel v m st) = NoFuel).
Proof.
  induction fuel as [|fuel IH]; intros v m st Hv; [cbn; auto|].
  assert (Hlist : forall l m st, forallb plain l = true ->
            snd (copy_values (deepcopy fuel) l m st) = st
            /\ (fst (copy_values (deepcopy fuel) l m st) = Ok (l, m)
                \/ fst (copy_values (deepcopy fuel) l m st) = NoFuel)).
  { clear v m st Hv. induction l as [|x l IHl]; intros m st Hl; [cbn; auto|].
    cbn [forallb] in Hl. apply andb_true_iff in Hl as [Hx Hl].
    cbn [copy_values]. unfold bind at 1 3 5.
    destruct (IH x m st Hx) as (Hs & Hr).
    destruct (deepcopy fuel x m st) as [r st1]. cbn [fst snd] in Hs, Hr. subst st1.
    destruct Hr as [->| ->]; [|cbn; auto]. cbn [fst snd].
    unfold bind at 1 2 3.
    destruct (IHl m st Hl) as (Hs & Hr).
    destruct (copy_values (deepcopy fuel) l m st) as [r st1]. cbn [fst snd] in Hs, Hr.
    subst st1. destruct Hr as [->| ->]; cbn; auto. }
  destruct v as [| | | |l|l| | |l]; try (cbn; auto; fail); try discriminate.
  - cbn [deepcopy plain] in *. unfold bind.
    destruct (Hlist l m st Hv) as (Hs & Hr).
    destruct (copy_values (deepcopy fuel) l m st) as [r st1]. cbn [fst snd] in Hs, Hr.
    subst st1. destruct Hr as [->| ->]; cbn; auto.
  - cbn [deepcopy plain] in *. unfold bind.
    destruct (Hlist l m st Hv) as (Hs & Hr).
    destruct (copy_values (deepcopy fuel) l m st) as [r st1]. cbn [fst snd] in Hs, Hr.
    subst st1. destruct Hr as [->| ->]; cbn; auto.
Qed.

Lemma deepcopy_plain_ok fuel v m st r st' :
  plain v = true -> deepcopy fuel v m st = (Ok r, st') -> r = (v, m) /\ st' = st.
Proof.
  intros Hv H. destruct (deepcopy_plain fuel v m st Hv) as (Hs & Hr).
  rewrite H in Hs, Hr. cbn [fst snd] in Hs, Hr.
  destruct Hr as [[= ->]|Hr]; [auto|discriminate].
Qed.

Lemma copy_spec_plain fuel s m st r st' :
  plain (_name s) && plain (_valid_type s) && plain (_help s) && plain (_required s)
  && plain (_validator s) = true ->
  copy_spec (deepcopy fuel) s m st = (Ok r, st') -> r = (s, m) /\ st' = st.
Proof.
  intros Hs H. repeat (apply andb_true_iff in Hs as [Hs ?]).
  unfold copy_spec in H.
  bind_inv H as p1 st1 Hc1. apply deepcopy_plain_ok in Hc1 as [-> ->]; [|assumption].
  bind_inv H as p2 st2 Hc2. apply deepcopy_plain_ok in Hc2 as [-> ->]; [|assumption].
  bind_inv H as p3 st3 Hc3. apply deepcopy_plain_ok in Hc3 as [-> ->]; [|assumption].
  bind_inv H as p4 st4 Hc4. apply deepcopy_plain_ok in Hc4 as [-> ->]; [|assumption].
  bind_inv H as p5 st5 Hc5. apply deepcopy_plain_ok in Hc5 as [-> ->]; [|assumption].
  injection H as <- <-. cbn [fst snd]. now destruct s.
Qed.

(** The deep copy of a port whose attributes hold no references is a new
    object with the same attributes. *)
Lemma deepcopy_leaf fuel (port : loc) cls s dflt st c st' :
  objs st !! port = Some (OLeaf cls s dflt) ->
  plain_port s dflt = true ->
  deepcopy fuel (VRef port) [] st = (Ok c, st') ->
  fst c = VRef (length (objs st))
  /\ objs st' = objs st ++ [OLeaf cls s dflt].
Proof.
  intros Hport Hplain H. unfold plain_port in Hplain.
  apply andb_true_iff in Hplain as [Hs Hd].
  destruct fuel as [|fuel]; [discriminate|]. cbn [deepcopy memo_get] in H.
  bind_inv H as h st0 Hh. unfold get_heap in Hh. injection Hh as <- <-.
  rewrite Hport in H. rewrite bind_alloc in H. cbv zeta in H.
  destruct dflt as [d|].
  - bind_inv H as ps st1 Hps. apply copy_spec_plain in Hps as [-> ->]; [|exact Hs].
    bind_inv H as pd st2 Hpd. apply deepcopy_plain_ok in Hpd as [-> ->]; [|exact Hd].
    cbn [fst snd] in H. run. injection H as <- <-. cbn [fst objs].
    split; [reflexivity|]. apply store_alloc.
  - bind_inv H as ps st1 Hps. apply copy_spec_plain in Hps as [-> ->]; [|exact Hs].
    cbn [fst snd] in H. run. injection H as <- <-. cbn [fst objs].
    split; [reflexivity|]. apply store_alloc.
Qed.

(** The second loop of [absorb], for an item that is such a port: the
    child that [self] has under its name afterwards is a new object with
    the attributes of the original. *)
Lemma absorb_ports_leaf fuel (self : loc) items :
  forall st names st' n,
    namespace_at (objs st) self = Some n ->
    List.NoDup (map fst items) ->
    absorb_ports fuel self items st = (Ok names, st') ->
    forall key (port : loc) cls s dflt,
      In (key, port) items ->
      objs st !! port = Some (OLeaf cls s dflt) ->
      plain_port s dflt = true ->
      exists n' (c : loc),
        namespace_at (objs st') self = Some n'
        /\ dict_get key (_ports n') = Some c
        /\ length (objs st) <= c
        /\ objs st' !! c = Some (OLeaf cls s dflt).
Proof.
  induction items as [|[port_name port0] items IH];
    intros st names st' n Hn Hnd Hrun key port cls s dflt Hin Hport Hplain; [destruct Hin|].
  cbn [map fst] in Hnd. apply NoDup_cons_iff in Hnd as [Hfirst Hnd].
  cbn [absorb_ports] in Hrun. bind_inv Hrun as c st0 Hcopy.
  pose proof (namespace_at_lt _ _ _ Hn) as Hlt.
  pose proof (frame_deepcopy (length (objs st)) fuel (VRef port0) [] st (Nat.le_refl _))
    as [Hlen Hkeep].
  rewrite Hcopy in Hlen, Hkeep. cbn [snd] in Hlen, Hkeep.
  pose proof (deepcopy_new _ _ _ _ _ Hcopy) as Hc.
  assert (Hn1 : namespace_at (objs st0) self = Some n).
  { unfold namespace_at in *. rewrite Hkeep by lia. exact Hn. }
  bind_inv Hrun as u st2 Hset. unfold PortNamespace_setitem in Hset. rewrite Hc in Hset.
  run. destruct (issubclass _ _); [|discriminate]. rewrite Hn1 in Hset.
  injection Hset as _ <-.
  bind_inv Hrun as a1 st3 Hrest. injection Hrun as <- ->.
  set (n1 := with_ports n (dict_set port_name (length (objs st)) (_ports n))) in *.
  change {| objs := <[self:=ONamespace n1]> (objs st0); logged := logged st0;
            validated := validated st0 |}
    with (with_object st0 self (ONamespace n1)) in Hrest.
  set (st2 := with_object st0 self (ONamespace n1)) in *.
  assert (Hlt0 : self < length (objs st0)) by lia.
  assert (Hn2 : namespace_at (objs st2) self = Some n1)
    by exact (namespace_at_with_object st0 self n1 Hlt0).
  assert (Hlen2 : length (objs st2) = length (objs st0)) by apply length_insert.
  assert (Hne : port <> self).
  { intros ->. apply namespace_at_lookup in Hn. rewrite Hn in Hport. discriminate. }
  destruct Hin as [[= -> ->]|Hin].
  - destruct (deepcopy_leaf fuel port cls s dflt st c st0 Hport Hplain Hcopy) as (_ & Hobjs).
    destruct (absorb_ports_children fuel self items st2 a1 st' n1 Hn2 Hrest)
      as (Hnames & _ & n' & Hn' & _ & Hout).
    exists n', (length (objs st)). split; [exact Hn'|]. split.
    { rewrite Hout by (rewrite Hnames; exact Hfirst). subst n1. cbn [with_ports _ports].
      apply dict_get_set_eq. }
    split; [lia|].
    assert (Hnew : objs st0 !! (length (objs st) : loc) = Some (OLeaf cls s dflt)).
    { rewrite Hobjs. apply lookup_alloc. }
    assert (Hnew_lt : length (objs st) < length (objs st0)).
    { rewrite Hobjs, length_app. cbn. lia. }
    rewrite (absorb_ports_others fuel self items st2 (Ok a1) st'
               ltac:(rewrite Hlen2; exact Hlt0) Hrest (length (objs st))
               ltac:(rewrite Hlen2; exact Hnew_lt) ltac:(lia)).
    subst st2. cbn [with_object objs].
    etransitivity; [apply lookup_store_ne; lia|exact Hnew].
  - assert (Hport_lt : port < length (objs st)) by (eapply lookup_lt_Some; exact Hport).
    assert (Hport2 : objs st2 !! port = Some (OLeaf cls s dflt)).
    { subst st2. cbn [with_object objs].
      etransitivity; [apply lookup_store_ne; congruence|].
      rewrite Hkeep by exact Hport_lt. exact Hport. }
    destruct (IH st2 a1 st' n1 Hn2 Hnd Hrest key port cls s dflt Hin Hport2 Hplain)
      as (n' & c0 & Hn' & Hget & Hge & Hobj).
    exists n', c0. split; [exact Hn'|]. split; [exact Hget|]. split; [lia|exact Hobj].
Qed.

(** An absorbed port is an equal but separate copy.  When [absorb]
    succeeds, then for every absorbed name under which the other namespace
    has a port whose attributes hold no references, [self] has under that
    name a port with the same class, attributes and default, which is
    another object than the original; the original is as it was. *)
Theorem absorb_copies_port fuel (self other : loc) exclude include namespace_options
  (st : state) (n o : PortNamespace) absorbed_ports st' key (port : loc) cls s dflt :
  namespace_at (objs st) self = Some n ->
  namespace_at (objs st) other = Some o ->
  List.NoDup (map fst (_ports o)) ->
  absorb fuel self (VRef other) exclude include namespace_options st
    = (Ok absorbed_ports, st') ->
  In key absorbed_ports ->
  dict_get key (_ports o) = Some port ->
  objs st !! port = Some (OLeaf cls s dflt) ->
  plain_port s dflt = true ->
  exists n' (c : loc),
    namespace_at (objs st') self = Some n'
    /\ dict_get key (_ports n') = Some c
    /\ c <> port
    /\ objs st' !! c = Some (OLeaf cls s dflt)
    /\ objs st' !! port = Some (OLeaf cls s dflt).
Proof.
  intros Hn Ho Hnd Hrun Hkey Hget Hport Hplain.
  assert (Hport_lt : port < length (objs st)) by (eapply lookup_lt_Some; exact Hport).
  assert (Hne : port <> self).
  { intros ->. apply namespace_at_lookup in Hn. rewrite Hn in Hport. discriminate. }
  assert (Hsame : objs st' !! port = Some (OLeaf cls s dflt)).
  { assert (E : objs (snd (absorb fuel self (VRef other) exclude include
                             namespace_options st)) !! port = objs st !! port).
    { destruct (absorb_run_ports fuel self other exclude include namespace_options
                  st n o Hn Ho) as (_ & Hrun').
      rewrite Hrun'. clear Hrun'.
      set (n1 := fst (absorbed (Nat.eqb self other) n o mutable_properties
                        namespace_options)) in *.
      assert (Hst1 : objs (with_object st self (ONamespace n1)) !! port = objs st !! port)
        by (apply lookup_store_ne; congruence).
      assert (Hlen : length (objs (with_object st self (ONamespace n1)))
                     = length (objs st)) by apply length_insert.
      destruct (snd (absorbed _ n o mutable_properties namespace_options)); [|exact Hst1].
      destruct (_filter_ports (_ports o) exclude include) as [items| |]; try exact Hst1.
      destruct (absorb_ports fuel self items (with_object st self (ONamespace n1)))
        as [r st2] eqn:Hports.
      cbn [snd]. rewrite <- Hst1.
      apply (absorb_ports_others fuel self items _ _ _ ltac:(rewrite Hlen;
               eapply namespace_at_lt; eassumption) Hports); [lia|exact Hne]. }
    rewrite Hrun in E. cbn [snd] in E. now rewrite E. }
  destruct (absorb_run_ports fuel self other exclude include namespace_options st n o Hn Ho)
    as (_ & Hrun').
  rewrite Hrun' in Hrun. clear Hrun'.
  set (n1 := fst (absorbed (Nat.eqb self other) n o mutable_properties
                    namespace_options)) in *.
  destruct (snd (absorbed _ n o mutable_properties namespace_options)); [|discriminate].
  destruct (_filter_ports (_ports o) exclude include) as [items| |] eqn:Hf; try discriminate.
  pose proof (namespace_at_lt _ _ _ Hn) as Hlt.
  set (st1 := with_object st self (ONamespace n1)) in *.
  assert (Hn1 : namespace_at (objs st1) self = Some n1)
    by exact (namespace_at_with_object st self n1 Hlt).
  assert (Hlen : length (objs st1) = length (objs st)) by apply length_insert.
  destruct (absorb_ports_children fuel self items st1 absorbed_ports st' n1 Hn1 Hrun)
    as (Hnames & _).
  assert (Hitems : exists f, items = List.filter (fun item => f (fst item)) (_ports o)).
  { unfold _filter_ports in Hf.
    destruct exclude as [|x exclude], include as [names|];
      try discriminate; injection Hf as <-;
      [ exists (fun name => name_in name names)
      | exists (fun name => negb (name_in name []))
      | exists (fun name => negb (name_in name (x :: exclude))) ]; reflexivity. }
  destruct Hitems as (f & Hitems).
  assert (Hnd' : List.NoDup (map fst items)).
  { rewrite Hitems, filter_map_fst. now apply List.NoDup_filter. }
  assert (Hin : In (key, port) items).
  { rewrite Hitems. apply filter_In. split; [now apply dict_get_in|]. cbn [fst].
    rewrite Hnames, Hitems in Hkey. apply in_map_iff in Hkey as ([k p] & <- & Hk).
    apply filter_In in Hk as [_ Hk]. exact Hk. }
  assert (Hport1 : objs st1 !! port = Some (OLeaf cls s dflt)).
  { subst st1. cbn [with_object objs].
    etransitivity; [apply lookup_store_ne; congruence|exact Hport]. }
  destruct (absorb_ports_leaf fuel self items st1 absorbed_ports st' n1 Hn1 Hnd' Hrun
              key port cls s dflt Hin Hport1 Hplain)
    as (n' & c & Hn' & Hc & Hge & Hobj).
  exists n', c. split; [exact Hn'|]. split; [exact Hc|]. split; [lia|].
  split; [exact Hobj|exact Hsame].
Qed.

End Ports.

(** * The properties on the example data *)

(** C1, counterexample: an optional port whose validator rejects.  The
    port is not required, yet [validate(UNSPECIFIED)] does not succeed:
    the validator was called and its verdict returned. *)
Lemma optional_port_rejected_on_unspecified :
  objs Example.optional_checked !! 0
    = Some (Example.input "n" (VType TInt) (VBool false) (VFun 0))
  /\ fst (ValueSpec_validate Example.call Example.format 0 UNSPECIFIED
            Example.optional_checked)
     = Ok (invalid "Value failed validation")
  /\ ~ succeeds (objs Example.optional_checked)
         (fst (ValueSpec_validate Example.call Example.format 0 UNSPECIFIED
                 Example.optional_checked)).
Proof.
  split; [reflexivity|]. split; [reflexivity|].
  intros (v & p & E & U & T). vm_compute in E. injection E as <-.
  vm_compute in U. injection U as <-. discriminate.
Qed.

(** C1, on an instance: the same port, for which the three parts of the
    theorem hold. *)
Lemma validate_unspecified_witness :
  let st := Example.optional_checked in
  let s := Example.spec "n" (VType TInt) (VBool false) (VFun 0) in
  let r := fst (ValueSpec_validate Example.call Example.format 0 UNSPECIFIED st) in
  objs st !! 0 = Some (OLeaf CInputPort s (Some UNSPECIFIED))
  /\ (succeeds (objs st) r <->
      truthy (objs st) (_required s) = false /\
      (_validator s = VNone \/
       accepts Example.call (_validator s) (objs st) UNSPECIFIED)).
Proof.
  intros st s r. split; [reflexivity|].
  apply (validate_unspecified Example.call Example.format st 0 CInputPort s
           (Some UNSPECIFIED)).
  reflexivity.
Defined.

(** C4, counterexample: a caller who supplies an empty tuple to a required
    port is told that no value was provided. *)
Lemma empty_tuple_is_taken_for_unspecified :
  fst (ValueSpec_validate Example.call Example.format 0 (VTuple [])
         Example.required_plain)
  = Ok (invalid "required value was not provided for '{}'").
Proof. reflexivity. Qed.

(** C7, on an instance: an integer port with default 3, declared required. *)
Lemma InputPort_required_override_witness :
  let init required :=
    InputPort_init Example.call Example.format (VStr "n") (VType TInt) VNone
      (VInt 3) required VNone (Example.state_of []) in
  init (VBool true) = (Ok 0, snd (init (VBool true)))
  /\ (exists s,
        objs (snd (init (VBool true))) !! 0 = Some (OLeaf CInputPort s (Some (VInt 3)))
        /\ _required s = VBool false)
  /\ (forall required', fst (init required') = Ok 0)
  /\ (exists msg, logged (snd (init (VBool true))) = [msg]).
Proof.
  intros init.
  assert (H : init (VBool true) = (Ok 0, snd (init (VBool true)))) by reflexivity.
  subst init. cbv beta in *.
  split; [exact H|].
  destruct (InputPort_required_override Example.call Example.format _ _ _ _ _ _ _ _ _ H)
    as ((s & Hs & Hreq & _) & Hany & Hlog).
  split; [exists s; split; [exact Hs | apply Hreq; reflexivity]|].
  split; [exact Hany | exact Hlog].
Defined.

(** C5, on an instance: in the example tree the three lookups and the
    dotted name arrive at the same object, location 3. *)
Lemma get_port_path_witness :
  let h := objs Example.tree in
  get_port Example.format h 0 (VStr "a") = Ok 1
  /\ get_port Example.format h 1 (VStr "b") = Ok 2
  /\ get_port Example.format h 2 (VStr "c") = Ok 3
  /\ get_port Example.format h 0 (VStr "a.b.c") = Ok 3.
Proof.
  intros h.
  assert (H1 : get_port Example.format h 0 (VStr "a") = Ok 1) by (vm_compute; reflexivity).
  assert (H2 : get_port Example.format h 1 (VStr "b") = Ok 2) by (vm_compute; reflexivity).
  assert (H3 : get_port Example.format h 2 (VStr "c") = Ok 3) by (vm_compute; reflexivity).
  repeat (split; [assumption|]).
  exact (proj1 (get_port_path Example.format h 0) "a" "b" "c" 1 2 3
           eq_refl eq_refl eq_refl H1 H2 H3).
Defined.

(** C6, on an instance: in the example tree, [x.y.z] is created by the
    first call and found by the second, which carries other schema
    arguments; [a.n.z] runs into the leaf [n]. *)
Lemma create_port_namespace_idempotent_witness :
  let create name kwargs st :=
    create_port_namespace Example.format 0 (VStr name) kwargs st in
  let st1 := snd (create "x.y.z" [("required", VBool false)] Example.tree) in
  create "x.y.z" [("required", VBool false)] Example.tree = (Ok 7, st1)
  /\ create "x.y.z" [("dynamic", VBool true)] st1 = (Ok 7, st1)
  /\ exists e, create "a.n.z" [] Example.tree = (Raise e, Example.tree).
Proof.
  intros create st1. subst create. cbv beta in *.
  assert (H : create_port_namespace Example.format 0 (VStr "x.y.z")
                [("required", VBool false)] Example.tree = (Ok 7, st1))
    by (vm_compute; reflexivity).
  split; [exact H|]. split.
  - exact (proj1 (create_port_namespace_idempotent Example.format 0 "x.y.z" _ _)
             7 st1 H [("dynamic", VBool true)]).
  - exact (proj2 (create_port_namespace_idempotent Example.format 0 "a.n.z" [] Example.tree)
             ["a"] "n" ["z"] 1
             {| ns_spec := Example.spec "a" VNone (VBool true) VNone;
                _ports := [("b", 2); ("n", 4)];
                ns_default := UNSPECIFIED; _dynamic := VBool false |}
             4 CInputPort (Example.spec "n" (VType TInt) (VBool true) VNone)
             (Some UNSPECIFIED)
             eq_refl eq_refl eq_refl eq_refl eq_refl).
Defined.



(** C10, on an instance: [other] has no [valid_type], and the override
    asks for [dynamic] to be true.  After the call [self] is not dynamic. *)
Lemma absorb_dynamic_witness :
  let st := Example.two_namespaces in
  let r := absorb Example.format 10 0 (VRef 1) [] None [("dynamic", VBool true)] st in
  fst r = Ok ["a"; "b"]
  /\ exists n', namespace_at (objs (snd r)) 0 = Some n'
       /\ _valid_type (ns_spec n') = VNone /\ _dynamic n' = VBool false.
Proof.
  intros st r.
  assert (H : absorb Example.format 10 0 (VRef 1) [] None [("dynamic", VBool true)] st
              = (Ok ["a"; "b"], snd r)) by (vm_compute; reflexivity).
  split; [reflexivity|].
  destruct (absorb_dynamic Example.format _ _ _ _ _ _ _ _ _ H)
    as (other & o & n' & Hpn & Ho & Hn' & Hvt & Hdyn).
  injection Hpn as <-. vm_compute in Ho. injection Ho as <-.
  exists n'. split; [exact Hn'|]. cbn in Hvt. rewrite Hvt in Hdyn.
  split; [exact Hvt|exact Hdyn].
Defined.

(** C3, the failing input: the value of [sub] is a plain dictionary and
    the child [sub] of the schema is a namespace.  [project] keeps the key
    [sub] and drops [unknown], but the value it returns for [sub] is the
    caller's nested dictionary itself (location 4), with the undeclared
    [y] still in it; the projection of that dictionary on the child would
    have been [{"x": 1}]. *)
Lemma project_keeps_nested_dictionary :
  let st := Example.nested in
  let r := project 5 0 (VRef 3) st in
  let sub := project 5 1 (VRef 4) st in
  fst r = Ok (VRef 5)
  /\ objs (snd r) !! 5 = Some (ODict [("sub", VRef 4)])
  /\ objs (snd r) !! 4 = Some (ODict [("x", VInt 1); ("y", VInt 2)])
  /\ fst sub = Ok (VRef 5)
  /\ objs (snd sub) !! 5 = Some (ODict [("x", VInt 1)]).
Proof. repeat split; reflexivity. Qed.

(** C8, on an instance: [{"n": 5}] is valid for the namespace with the
    integer port [n].  The caller's dictionary still has its entry; the
    entry was popped from the copy, the new object at location 3. *)
Lemma validate_leaves_values_alone_witness :
  let st := Example.one_port in
  let r := validate Example.call Example.format 5 0 (VRef 2) st in
  objs st !! 2 = Some (ODict [("n", VInt 5)])
  /\ fst r = Ok valid
  /\ objs (snd r) !! 2 = Some (ODict [("n", VInt 5)])
  /\ objs (snd r) !! 3 = Some (ODict []).
Proof.
  intros st r.
  assert (H : objs st !! 2 = Some (ODict [("n", VInt 5)])) by reflexivity.
  split; [exact H|]. split; [reflexivity|]. split; [|reflexivity].
  exact (validate_leaves_values_alone Example.call Example.format 5 0 (VRef 2) st 2 _ H).
Defined.


(** * Further properties on the example data *)

(** Assigning the port at location 3 under the new key [new] of the first
    of the two namespaces, and reading it back *)
Lemma setitem_getitem_witness :
  let st := Example.two_namespaces in
  namespace_at (objs st) 0 <> None
  /\ exists st',
       PortNamespace_setitem 0 "new" (VRef 3) st = (Ok tt, st')
       /\ PortNamespace_getitem 0 "new" st' = (Ok 3, st')
       /\ fst (PortNamespace_len 0 st') = Ok 2.
Proof.
  intros st. split; [discriminate|].
  destruct (setitem_getitem 0 "new" (VRef 3) st _ eq_refl)
    as (p & st' & Hp & Hset & Hget & _ & Hlen & _).
  injection Hp as <-. exists st'. split; [exact Hset|]. split; [exact Hget|exact Hlen].
Defined.

(** Deleting the child [a] of the second namespace, and the absent [zz] *)
Lemma delitem_removes_witness :
  let st := Example.two_namespaces in
  (exists st',
     PortNamespace_delitem 1 "a" st = (Ok tt, st')
     /\ PortNamespace_contains 1 "a" st' = (Ok false, st')
     /\ fst (PortNamespace_len 1 st') = Ok 1)
  /\ PortNamespace_delitem 1 "zz" st = (Raise (KeyError "zz"), st).
Proof.
  intros st.
  assert (Hnd : List.NoDup (map fst [("a", 3); ("b", 4)])).
  { repeat (constructor; [cbn; intuition discriminate|]). constructor. }
  destruct (delitem_removes 1 "a" st _ eq_refl Hnd) as (Hin & _).
  destruct (delitem_removes 1 "zz" st _ eq_refl Hnd) as (_ & Hout).
  split.
  - destruct (Hin eq_refl) as (st' & Hdel & Hgone & _ & k & Hlen & Hk).
    exists st'. split; [exact Hdel|]. split; [exact Hgone|].
    cbn in Hk. injection Hk as ->. exact Hlen.
  - exact (proj1 (Hout eq_refl)).
Defined.

(** In the example tree: the namespace [x.y.z] is created and then found
    under that name. *)
Lemma create_then_get_port_witness :
  let r := create_port_namespace Example.format 0 (VStr "x.y.z") [] Example.tree in
  fst r = Ok 7
  /\ get_port Example.format (objs (snd r)) 0 (VStr "x.y.z") = Ok 7.
Proof.
  intros r.
  assert (H : create_port_namespace Example.format 0 (VStr "x.y.z") [] Example.tree
              = (Ok 7, snd r)) by (vm_compute; reflexivity).
  split; [vm_compute; reflexivity|].
  exact (proj1 (create_then_get_port Example.format 0 "x.y.z" [] Example.tree 7 _ H)).
Defined.

(** In the example tree: the port [a.b.c] is where it was after [a.x] has
    been created, and after the failed attempt to create [a.n.z]. *)
Lemma create_port_namespace_keeps_ports_witness :
  let h := objs Example.tree in
  let after name :=
    objs (snd (create_port_namespace Example.format 0 (VStr name) [] Example.tree)) in
  get_port Example.format h 0 (VStr "a.b.c") = Ok 3
  /\ get_port Example.format (after "a.x") 0 (VStr "a.b.c") = Ok 3
  /\ get_port Example.format (after "a.n.z") 0 (VStr "a.b.c") = Ok 3.
Proof.
  intros h after.
  assert (H : get_port Example.format h 0 (VStr "a.b.c") = Ok 3) by (vm_compute; reflexivity).
  split; [exact H|]. split.
  - exact (create_port_namespace_keeps_ports Example.format 0 (VStr "a.x") []
             Example.tree 0 "a.b.c" 3 H).
  - exact (create_port_namespace_keeps_ports Example.format 0 (VStr "a.n.z") []
             Example.tree 0 "a.b.c" 3 H).
Defined.

(** The first of the two namespaces absorbs the second, but for [b]: it
    gets a new child [a] and keeps [keep]. *)
Lemma absorb_children_witness :
  let st := Example.two_namespaces in
  let r := absorb Example.format 10 0 (VRef 1) ["b"] None [] st in
  fst r = Ok ["a"]
  /\ exists n',
       namespace_at (objs (snd r)) 0 = Some n'
       /\ (exists c : loc, dict_get "a" (_ports n') = Some c /\ 5 <= c)
       /\ dict_get "keep" (_ports n') = Some 2
       /\ dict_get "b" (_ports n') = None.
Proof.
  intros st r.
  assert (H : absorb Example.format 10 0 (VRef 1) ["b"] None [] st = (Ok ["a"], snd r))
    by (vm_compute; reflexivity).
  split; [vm_compute; reflexivity|].
  destruct (absorb_children Example.call Example.format 10 0 1 ["b"] None [] st _ _ _ _
              eq_refl eq_refl H) as (_ & n' & Hn' & Hin & Hout).
  exists n'. split; [exact Hn'|]. split; [|split].
  - apply Hin. now left.
  - rewrite Hout; [reflexivity|]. cbn. intuition discriminate.
  - rewrite Hout; [reflexivity|]. cbn. intuition discriminate.
Defined.


(** An override for [colour], which is no property of a namespace: the
    call raises, after [required] has been taken from the other namespace. *)
Lemma absorb_unsupported_option_witness :
  let st := Example.two_namespaces in
  let r := absorb Example.format 10 0 (VRef 1) [] None [("colour", VInt 1)] st in
  (exists msg, fst r = Raise (ValueError msg))
  /\ exists n',
       namespace_at (objs (snd r)) 0 = Some n'
       /\ _ports n' = [("keep", 2)]
       /\ getattr n' "required" = VBool false.
Proof.
  intros st r.
  destruct (absorb_unsupported_option Example.format 10 0 1 [] None [("colour", VInt 1)]
              st _ _ "colour" eq_refl eq_refl eq_refl eq_refl)
    as (Hraise & n' & Hn' & Hports & Hattr).
  split; [exact Hraise|]. exists n'. split; [exact Hn'|]. split; [exact Hports|].
  rewrite Hattr; [reflexivity|]. cbn. tauto.
Defined.

(** An integer port with the default 3 is constructed; with the default
    [None], which is no integer, the constructor raises. *)
Lemma InputPort_default_is_checked_witness :
  let init default :=
    InputPort_init Example.call Example.format (VStr "n") (VType TInt) VNone default
      (VBool true) VNone (Example.state_of []) in
  is_UNSPECIFIED (VInt 3) = false
  /\ fst (init (VInt 3)) = Ok 0
  /\ fst (has_default 0 (snd (init (VInt 3)))) = Ok true
  /\ (exists msg, fst (init VNone) = Raise (ValueError msg)).
Proof.
  intros init. split; [reflexivity|].
  destruct (InputPort_default_is_checked Example.call Example.format (VStr "n") (VType TInt)
              VNone (VInt 3) (VBool true) VNone (Example.state_of []) eq_refl)
    as (Hgood & _).
  destruct (InputPort_default_is_checked Example.call Example.format (VStr "n") (VType TInt)
              VNone VNone (VBool true) VNone (Example.state_of []) eq_refl)
    as (_ & Hbad & _).
  assert (Hs : succeeds
                 ([] ++ [OLeaf CInputPort
                           {| _name := VStr "n"; _valid_type := VType TInt;
                              _help := VNone; _required := VBool false;
                              _validator := VNone |} None])
                 (Ok valid)).
  { exists valid, (VBool true, VNone). repeat split. }
  destruct (Hgood Hs) as (Hok & _ & Hdef).
  split; [exact Hok|]. split; [exact Hdef|].
  eexists. eapply Hbad; reflexivity.
Defined.

(** [{"n": 5}] passes for the namespace with the port [n]; its one key is
    declared. *)
Lemma validate_rejects_undeclared_witness :
  let st := Example.one_port in
  let out := validate Example.call Example.format 5 0 (VRef 2) st in
  succeeds (objs (snd out)) (fst out)
  /\ forall key, dict_mem key [("n", VInt 5)] = true -> dict_mem key [("n", 1)] = true.
Proof.
  intros st out.
  assert (Hs : succeeds (objs (snd out)) (fst out)).
  { exists valid, (VBool true, VNone). repeat split. }
  split; [exact Hs|].
  exact (validate_rejects_undeclared Example.call Example.format 5 0 (VRef 2) _
           [("n", VInt 5)] st eq_refl eq_refl eq_refl Hs).
Defined.



(** The projection of [{"n": 5, "extra": 7}] on that namespace is a new
    dictionary with the entry for [n] and none for [extra]. *)
Lemma project_plain_witness :
  let st := Example.dynamic_namespace in
  exists result,
    project 1 0 (VRef 2) st
    = (Ok (VRef 3),
       {| objs := objs st ++ [ODict result]; logged := []; validated := [] |})
    /\ dict_get "n" result = Some (VInt 5)
    /\ dict_get "extra" result = None.
Proof.
  intros st.
  assert (Hnd : List.NoDup (map fst [("n", VInt 5); ("extra", VInt 7)])).
  { repeat (constructor; [cbn; intuition discriminate|]). constructor. }
  assert (Hplain : forall key value, In (key, value) [("n", VInt 5); ("extra", VInt 7)] ->
            issubclass (type_of (objs st) value) TPortNamespace = false).
  { intros key value [[= <- <-]|[[= <- <-]|[]]]; reflexivity. }
  destruct (project_plain 0 0 2 _ _ st eq_refl eq_refl Hnd Hplain) as (result & Hrun & Hget).
  exists result. split; [exact Hrun|]. split; [exact (Hget "n")|exact (Hget "extra")].
Defined.

(** The first of the two namespaces absorbs the second: its new child [a]
    is an integer port like the original at location 3, and is another
    object. *)
Lemma absorb_copies_port_witness :
  let st := Example.two_namespaces in
  let r := absorb Example.format 10 0 (VRef 1) [] None [] st in
  fst r = Ok ["a"; "b"]
  /\ exists n' (c : loc),
       namespace_at (objs (snd r)) 0 = Some n'
       /\ dict_get "a" (_ports n') = Some c
       /\ c <> 3
       /\ objs (snd r) !! c = Some (Example.input "a" (VType TInt) (VBool true) VNone)
       /\ objs (snd r) !! 3 = Some (Example.input "a" (VType TInt) (VBool true) VNone).
Proof.
  intros st r.
  assert (H : absorb Example.format 10 0 (VRef 1) [] None [] st = (Ok ["a"; "b"], snd r))
    by (vm_compute; reflexivity).
  assert (Hnd : List.NoDup (map fst [("a", 3); ("b", 4)])).
  { repeat (constructor; [cbn; intuition discriminate|]). constructor. }
  split; [vm_compute; reflexivity|].
  exact (absorb_copies_port Example.call Example.format 10 0 1 [] None [] st _ _ _ _
           "a" 3 CInputPort (Example.spec "a" (VType TInt) (VBool true) VNone)
           (Some UNSPECIFIED) eq_refl eq_refl Hnd H (or_introl eq_refl)
           eq_refl eq_refl eq_refl).
Defined.
